(** * js-date-format: the date annotator and the date formatter

    A shallow embedding of the two browser scripts of the repository,

    - [preprocess-date.js]: [addDateDataAttributes], [applyDateDataAttributes];
    - the formatter script: [formatDate], [applyAllDateFormats];
    - the wiring at the end of both: the listeners for [DOMContentLoaded]
      and [mercury:load], and the functions put on [window];

    together with the parts of the host they call: the ECMAScript [Date]
    object and string methods, and the DOM tree with [querySelectorAll],
    [closest], [parentElement], [getAttribute], [setAttribute],
    [textContent] and the [innerHTML] setter.

    Conventions of the embedding.
    - A JavaScript string is a [string]; a character stands for one code
      unit below 256.
    - A JavaScript Number that holds a date field or a time value is a
      [Number]: [NaN] or an integer.
    - The document is a tree of [node]s; an element reference is the [path]
      from the root element to it.
    - A call that may throw returns a [result]; where the document that
      an exception leaves behind is read afterwards, a [completion].
    - What ECMAScript and HTML leave to the host (the local time zone, the
      date formats accepted beyond the ISO ones, the HTML fragment parser)
      is a field of the record [Host]. *)

From Stdlib Require Import ZArith List String Ascii Bool Lia DecimalString Sorted.
Import ListNotations.

Open Scope string_scope.

Set Warnings "-register-all".

(* ================================================================== *)
(** * JavaScript strings and numbers *)
(* ================================================================== *)

Module JS.

(** A Number as far as the two scripts use it. *)
Inductive Number : Type :=
| NaN
| Num (z : Z).

Definition isNaN (n : Number) : bool :=
  match n with NaN => true | Num _ => false end.

(** [n + 1] on Numbers ([NaN + 1] is [NaN]). *)
Definition add1 (n : Number) : Number :=
  match n with NaN => NaN | Num z => Num (z + 1)%Z end.

(** Number::toString of an integer, in decimal. *)
Definition Z_to_string (z : Z) : string :=
  NilZero.string_of_int (Z.to_int z).

(** ToString of a Number: what [String(n)], a template literal and
    [setAttribute(name, n)] produce. *)
Definition ToString (n : Number) : string :=
  match n with NaN => "NaN" | Num z => Z_to_string z end.

(** The value of a token is a string or a Number; it reaches the markup
    through a template literal. *)
Inductive Value : Type :=
| VStr (s : string)
| VNum (n : Number).

Definition Value_to_string (v : Value) : string :=
  match v with VStr s => s | VNum n => ToString n end.

(** ToBoolean of a value that is [null] or a string: [!dateValue] is true
    for [null] and for the empty string. *)
Definition truthy (v : option string) : bool :=
  match v with
  | None => false
  | Some s => negb (String.eqb s "")
  end.

(** White space and line terminators below 256, as [trim] removes them. *)
Definition is_ws (c : ascii) : bool :=
  let n := N_of_ascii c in
  ((9 <=? n) && (n <=? 13) || (n =? 32) || (n =? 160))%N.

Fixpoint trimStart (s : string) : string :=
  match s with
  | String c r => if is_ws c then trimStart r else s
  | EmptyString => EmptyString
  end.

Fixpoint trimEnd (s : string) : string :=
  match s with
  | EmptyString => EmptyString
  | String c r =>
      let r' := trimEnd r in
      if is_ws c && String.eqb r' "" then EmptyString else String c r'
  end.

(** [s.trim()] *)
Definition trim (s : string) : string := trimEnd (trimStart s).

Fixpoint repeat_char (c : ascii) (n : nat) : string :=
  match n with
  | O => EmptyString
  | S k => String c (repeat_char c k)
  end.

(** [s.padStart(n, '0')] *)
Definition padStart0 (n : nat) (s : string) : string :=
  repeat_char "0" (n - String.length s) ++ s.

(** [s.slice(-2)]: the last two code units, or all of [s] when shorter. *)
Definition slice_last2 (s : string) : string :=
  substring (String.length s - 2) 2 s.

(** [s.split('T')[0]]: what stands before the first ['T']. *)
Fixpoint split_T_first (s : string) : string :=
  match s with
  | EmptyString => EmptyString
  | String c r =>
      if Ascii.eqb c "T" then EmptyString else String c (split_T_first r)
  end.

(** A word character of a regular expression without the [u] flag:
    [[A-Za-z0-9_]]. *)
Definition is_word (c : ascii) : bool :=
  let n := N_of_ascii c in
  ((65 <=? n) && (n <=? 90) || (97 <=? n) && (n <=? 122)
   || (48 <=? n) && (n <=? 57) || (n =? 95))%N.

Definition is_word_opt (c : option ascii) : bool :=
  match c with Some x => is_word x | None => false end.

(** The assertion [\b] between the code unit [prev] and the code unit
    [next] ([None] outside the string). *)
Definition word_boundary (prev next : option ascii) : bool :=
  xorb (is_word_opt prev) (is_word_opt next).

Definition first_char (s : string) : option ascii :=
  match s with String c _ => Some c | EmptyString => None end.

Fixpoint drop (n : nat) (s : string) : string :=
  match n, s with
  | S k, String _ r => drop k r
  | _, _ => s
  end.

Fixpoint last_char (d : option ascii) (s : string) : option ascii :=
  match s with
  | EmptyString => d
  | String c r => last_char (Some c) r
  end.

(** The characters that [escapeRegExp]-style code protects:
    [[.*+?^${}()|[\]\\]]. *)
Definition is_regex_special (c : ascii) : bool :=
  existsb (Ascii.eqb c) (list_ascii_of_string ".*+?^${}()|[]\").

(** [token.replace(/[.*+?^${}()|[\]\\]/g, '\\$&')] *)
Fixpoint escapeRegExp (s : string) : string :=
  match s with
  | EmptyString => EmptyString
  | String c r =>
      if is_regex_special c then String "\" (String c (escapeRegExp r))
      else String c (escapeRegExp r)
  end.

(** The pattern sources that are read as a literal, and the literal each
    one matches: a character that is not a syntax character of the
    pattern grammar stands for itself, and a backslash followed by a
    syntax character stands for that character.  Any other source is not
    read, [None]: a backslash before anything else ([\d], [\b], a
    backslash at the end) and a bare syntax character make a pattern of
    another kind, or no pattern, or a literal only by the browsers'
    extension of the grammar (a bare []]).  The syntax characters of the
    grammar are the fourteen of [is_regex_special]. *)
Fixpoint pattern_literal (src : string) : option string :=
  match src with
  | EmptyString => Some EmptyString
  | String c r =>
      if Ascii.eqb c "\"
      then match r with
           | String c' r' =>
               if is_regex_special c'
               then option_map (String c') (pattern_literal r')
               else None
           | EmptyString => None
           end
      else if is_regex_special c then None
      else option_map (String c) (pattern_literal r)
  end.

(** Does [\b lit \b] match at the head of [s], the code unit before it being
    [prev]?  [lit] is matched literally. *)
Definition matches_word_at (lit : string) (prev : option ascii) (s : string) : bool :=
  word_boundary prev (first_char s)
  && prefix lit s
  && word_boundary (last_char prev lit) (first_char (drop (String.length lit) s)).

(** [s.replace(new RegExp('\\b' + src + '\\b', 'g'), repl)] where [src]
    denotes the non-empty literal [lit] and the replacement [repl] holds no
    ['$']: the matches are found from left to right in the subject, without
    overlap, and the replacement text is never scanned again.  [skip] counts
    the code units of the current match still to be dropped. *)
Fixpoint replace_word_aux (lit repl : string) (skip : nat) (prev : option ascii)
         (s : string) : string :=
  match s with
  | EmptyString => EmptyString
  | String c r =>
      match skip with
      | S k => replace_word_aux lit repl k (Some c) r
      | O =>
          if matches_word_at lit prev s
          then repl ++ replace_word_aux lit repl (String.length lit - 1) (Some c) r
          else String c (replace_word_aux lit repl O (Some c) r)
      end
  end.

Definition replace_word_all (lit repl s : string) : string :=
  replace_word_aux lit repl O None s.

End JS.

(* ================================================================== *)
(** * Exceptions *)
(* ================================================================== *)

(** A computation that returns a value or throws. *)
Inductive Exn : Type := RangeError | TypeError | SyntaxError.

Inductive result (A : Type) : Type :=
| Ok (a : A)
| Throw (e : Exn).

Arguments Ok {A} a.
Arguments Throw {A} e.

Definition bind {A B : Type} (c : result A) (k : A -> result B) : result B :=
  match c with
  | Ok a => k a
  | Throw e => Throw e
  end.

Notation "x <- c ;; k" := (bind c (fun x => k))
  (at level 61, c at next level, right associativity).

(** [list.forEach(f)] for a callback that mutates the state [S]: a throw
    ends the loop. *)
Fixpoint forEach {A S : Type} (f : S -> A -> result S) (l : list A) (s : S)
  : result S :=
  match l with
  | [] => Ok s
  | x :: r => s' <- f s x ;; forEach f r s'
  end.

(** A call that changes a state ends by returning or by an exception, and
    the state stays as the call has left it: a completion holds the state
    as it is then.  [Throw] above keeps none; it serves where nothing
    after the exception reads the state. *)
Inductive completion (S : Type) : Type :=
| Normal (s : S)
| Abrupt (e : Exn) (s : S).

Arguments Normal {S} s.
Arguments Abrupt {S} e s.

Definition state {S : Type} (c : completion S) : S :=
  match c with Normal s => s | Abrupt _ s => s end.

Definition thrown {S : Type} (c : completion S) : option Exn :=
  match c with Normal _ => None | Abrupt e _ => Some e end.

(** The completion of a computation that, from the state [s], returns a
    new state or throws with nothing changed. *)
Definition completion_of {S : Type} (r : result S) (s : S) : completion S :=
  match r with
  | Ok s' => Normal s'
  | Throw e => Abrupt e s
  end.

(** [list.forEach(f)] with the state kept: the exception of a callback
    ends the loop in the state that the callback has left. *)
Fixpoint forEach_state {A S : Type} (f : S -> A -> completion S) (l : list A) (s : S)
  : completion S :=
  match l with
  | [] => Normal s
  | x :: r =>
      match f s x with
      | Normal s' => forEach_state f r s'
      | Abrupt e s' => Abrupt e s'
      end
  end.

(* ================================================================== *)
(** * The DOM tree *)
(* ================================================================== *)

Module DOM.

(** A node of the document: a text node or an element with its local name
    (lower case in an HTML document), its attribute list in order, and its
    child nodes. *)
Inductive node : Type :=
| Text (data : string)
| Element (localName : string) (attributes : list (string * string))
          (childNodes : list node).

(** An element reference: the child indices from the root of its tree. *)
Definition path : Type := list nat.

Definition is_element (n : node) : bool :=
  match n with Element _ _ _ => true | Text _ => false end.

Definition children (n : node) : list node :=
  match n with Element _ _ cs => cs | Text _ => [] end.

Definition attrs (n : node) : list (string * string) :=
  match n with Element _ a _ => a | Text _ => [] end.

Definition upper (c : ascii) : ascii :=
  let n := N_of_ascii c in
  if ((97 <=? n) && (n <=? 122))%N then ascii_of_N (n - 32) else c.

Fixpoint toUpperCase (s : string) : string :=
  match s with
  | EmptyString => EmptyString
  | String c r => String (upper c) (toUpperCase r)
  end.

(** [el.tagName] of an HTML element: the local name in upper case. *)
Definition tagName (n : node) : string :=
  match n with Element t _ _ => toUpperCase t | Text _ => "" end.

(** [el.getAttribute(name)]: [None] is [null]. *)
Fixpoint assoc (name : string) (l : list (string * string)) : option string :=
  match l with
  | [] => None
  | (k, v) :: r => if String.eqb k name then Some v else assoc name r
  end.

Definition getAttribute (n : node) (name : string) : option string :=
  assoc name (attrs n).

(** [setAttribute]: the value of an existing attribute is changed in
    place, a new attribute is appended. *)
Fixpoint set_assoc (name value : string) (l : list (string * string))
  : list (string * string) :=
  match l with
  | [] => [(name, value)]
  | (k, v) :: r =>
      if String.eqb k name then (k, value) :: r
      else (k, v) :: set_assoc name value r
  end.

Definition setAttribute (name value : string) (n : node) : node :=
  match n with
  | Element t a cs => Element t (set_assoc name value a) cs
  | Text _ => n
  end.

(** [el.textContent]: the data of the text descendants, in tree order. *)
Fixpoint textContent (n : node) : string :=
  match n with
  | Text s => s
  | Element _ _ cs =>
      (fix go (l : list node) : string :=
         match l with
         | [] => EmptyString
         | c :: r => textContent c ++ go r
         end) cs
  end.

(** The node at a path. *)
Fixpoint lookup (n : node) (p : path) : option node :=
  match p with
  | [] => Some n
  | i :: q =>
      match nth_error (children n) i with
      | Some c => lookup c q
      | None => None
      end
  end.

(** Apply [g] to the [i]-th member of a list. *)
Fixpoint alter_nth {A : Type} (g : A -> A) (i : nat) (l : list A) : list A :=
  match l, i with
  | [], _ => []
  | x :: r, O => g x :: r
  | x :: r, S k => x :: alter_nth g k r
  end.

(** Mutate the node at a path. *)
Fixpoint update (f : node -> node) (n : node) (p : path) : node :=
  match p with
  | [] => f n
  | i :: q =>
      match n with
      | Element t a cs => Element t a (alter_nth (fun c => update f c q) i cs)
      | Text _ => n
      end
  end.

(** The nodes from the one at [p] up to the root, nearest first. *)
Fixpoint chain_aux (n : node) (p : path) (above : list node) : option (list node) :=
  match p with
  | [] => Some (n :: above)
  | i :: q =>
      match nth_error (children n) i with
      | Some c => chain_aux c q (n :: above)
      | None => None
      end
  end.

Definition chain (doc : node) (p : path) : option (list node) :=
  chain_aux doc p [].

(** The paths of the elements of a tree, in tree order (preorder). *)
Fixpoint element_paths (n : node) : list path :=
  match n with
  | Text _ => []
  | Element _ _ cs =>
      [] :: (fix go (i : nat) (l : list node) : list path :=
               match l with
               | [] => []
               | c :: r => (map (cons i) (element_paths c) ++ go (S i) r)%list
               end) O cs
  end.

(** [el.parentElement]: the root element has none. *)
Definition parentElement (p : path) : option path :=
  match p with
  | [] => None
  | _ :: _ => Some (removelast p)
  end.

End DOM.

(* ================================================================== *)
(** * The host *)
(* ================================================================== *)

(** What the standards leave to the browser.
    - [LocalTZA t]: the offset of local time from UTC, in milliseconds, at
      the instant [t] (it varies with daylight saving).
    - [parseOther s]: the time value that [Date.parse] gives to a string
      that is not a legal [YYYY-MM-DD] date; ECMAScript lets the host
      accept further formats there, [NaN] is an unrecognised string.
    - [parseFragment s]: the nodes that the HTML fragment parser builds
      from markup assigned to [innerHTML]. *)
Record Host : Type := {
  LocalTZA : Z -> Z;
  parseOther : string -> JS.Number;
  parseFragment : string -> list DOM.node
}.

(* ================================================================== *)
(** * ECMAScript dates *)
(* ================================================================== *)

Module ESDate.
Import JS.

Open Scope Z_scope.

Definition msPerDay : Z := 86400000.
Definition msPerHour : Z := 3600000.
Definition msPerMinute : Z := 60000.
Definition msPerSecond : Z := 1000.

Definition Day (t : Z) : Z := t / msPerDay.
Definition TimeWithinDay (t : Z) : Z := t mod msPerDay.

Definition DaysInYear (y : Z) : Z :=
  if negb (y mod 4 =? 0) then 365
  else if negb (y mod 100 =? 0) then 366
  else if negb (y mod 400 =? 0) then 365
  else 366.

Definition DayFromYear (y : Z) : Z :=
  365 * (y - 1970) + (y - 1969) / 4 - (y - 1901) / 100 + (y - 1601) / 400.

Definition TimeFromYear (y : Z) : Z := msPerDay * DayFromYear y.

(** The largest year that starts on or before day [d]: an estimate from
    the mean length of a year, corrected by one year at most. *)
Definition YearFromDay (d : Z) : Z :=
  let y := 1970 + (d * 400) / 146097 in
  if d <? DayFromYear y then y - 1
  else if DayFromYear (y + 1) <=? d then y + 1
  else y.

Definition YearFromTime (t : Z) : Z := YearFromDay (Day t).

Definition InLeapYear (t : Z) : Z :=
  if DaysInYear (YearFromTime t) =? 366 then 1 else 0.

Definition DayWithinYear (t : Z) : Z := Day t - DayFromYear (YearFromTime t).

(** The day of the year on which month [m] (0 to 11) starts, in a year
    with [leap] extra days. *)
Definition month_start (leap m : Z) : Z :=
  match m with
  | 0 => 0
  | 1 => 31
  | 2 => 59 + leap
  | 3 => 90 + leap
  | 4 => 120 + leap
  | 5 => 151 + leap
  | 6 => 181 + leap
  | 7 => 212 + leap
  | 8 => 243 + leap
  | 9 => 273 + leap
  | 10 => 304 + leap
  | 11 => 334 + leap
  | _ => 365 + leap
  end.

Definition MonthFromTime (t : Z) : Z :=
  let d := DayWithinYear t in
  let leap := InLeapYear t in
  if d <? month_start leap 1 then 0
  else if d <? month_start leap 2 then 1
  else if d <? month_start leap 3 then 2
  else if d <? month_start leap 4 then 3
  else if d <? month_start leap 5 then 4
  else if d <? month_start leap 6 then 5
  else if d <? month_start leap 7 then 6
  else if d <? month_start leap 8 then 7
  else if d <? month_start leap 9 then 8
  else if d <? month_start leap 10 then 9
  else if d <? month_start leap 11 then 10
  else 11.

Definition DateFromTime (t : Z) : Z :=
  DayWithinYear t - month_start (InLeapYear t) (MonthFromTime t) + 1.

Definition WeekDay (t : Z) : Z := (Day t + 4) mod 7.

Definition HourFromTime (t : Z) : Z := (t / msPerHour) mod 24.
Definition MinFromTime (t : Z) : Z := (t / msPerMinute) mod 60.
Definition SecFromTime (t : Z) : Z := (t / msPerSecond) mod 60.
Definition msFromTime (t : Z) : Z := t mod msPerSecond.

(** MakeDay(year, month, date) with a month counted from 0. *)
Definition MakeDay (year month date : Z) : Z :=
  let ym := year + month / 12 in
  let mn := month mod 12 in
  let leap := if DaysInYear ym =? 366 then 1 else 0 in
  DayFromYear ym + month_start leap mn + date - 1.

Definition MakeDate (day time : Z) : Z := day * msPerDay + time.

(** TimeClip: a time value lies within 8.64e15 ms of the epoch. *)
Definition TimeClip (n : Number) : Number :=
  match n with
  | NaN => NaN
  | Num t => if Z.abs t <=? 8640000000000000 then Num t else NaN
  end.

Definition DaysInMonth (y m : Z) : Z :=
  let leap := if DaysInYear y =? 366 then 1 else 0 in
  month_start leap m - month_start leap (m - 1).

(** ** Strings of digits *)

Definition is_digit (c : ascii) : bool :=
  let n := N_of_ascii c in ((48 <=? n) && (n <=? 57))%N.

Definition digit_val (c : ascii) : Z := Z.of_N (N_of_ascii c) - 48.

Fixpoint digits_val (acc : Z) (l : list ascii) : option Z :=
  match l with
  | [] => Some acc
  | c :: r => if is_digit c then digits_val (10 * acc + digit_val c) r else None
  end.

(** The decimal numeral of [z >= 0] on at least [n] digits. *)
Definition pad (n : nat) (z : Z) : string := padStart0 n (Z_to_string z).

(** ** Parsing *)

(** The date-only form [YYYY-MM-DD] of the Date Time String Format. *)
Definition parse_iso_date (s : string) : option (Z * Z * Z) :=
  match list_ascii_of_string s with
  | [y1; y2; y3; y4; s1; m1; m2; s2; d1; d2] =>
      if Ascii.eqb s1 "-" && Ascii.eqb s2 "-" then
        match digits_val 0 [y1; y2; y3; y4], digits_val 0 [m1; m2],
              digits_val 0 [d1; d2] with
        | Some y, Some m, Some d => Some (y, m, d)
        | _, _, _ => None
        end
      else None
  | _ => None
  end.

Definition legal_date (y m d : Z) : bool :=
  (1 <=? m) && (m <=? 12) && (1 <=? d) && (d <=? DaysInMonth y m).

Section WithHost.
Variable h : Host.

(** [Date.parse(s)]: a legal date-only string is midnight UTC of that day;
    every other string is the host's business. *)
Definition Date_parse (s : string) : Number :=
  match parse_iso_date s with
  | Some (y, m, d) =>
      if legal_date y m d then Num (MakeDate (MakeDay y (m - 1) d) 0)
      else parseOther h s
  | None => parseOther h s
  end.

(** [new Date(s)] for a string [s]: the time value of the Date object. *)
Definition new_Date (s : string) : Number := TimeClip (Date_parse s).

(** [date.getTime()] *)
Definition getTime (date : Number) : Number := date.

Definition LocalTime (t : Z) : Z := t + LocalTZA h t.

(** [date.getFullYear()], [date.getMonth()], [date.getDate()]: fields of
    the local time. *)
Definition getFullYear (date : Number) : Number :=
  match date with NaN => NaN | Num t => Num (YearFromTime (LocalTime t)) end.

Definition getMonth (date : Number) : Number :=
  match date with NaN => NaN | Num t => Num (MonthFromTime (LocalTime t)) end.

Definition getDate (date : Number) : Number :=
  match date with NaN => NaN | Num t => Num (DateFromTime (LocalTime t)) end.

End WithHost.

(** The string of [date.toISOString()] for a valid date: the fields of UTC.  The year has
    four digits from 0 to 9999, a sign and six digits otherwise. *)
Definition iso_year (y : Z) : string :=
  if (0 <=? y) && (y <=? 9999) then pad 4 y
  else if y <? 0 then "-" ++ pad 6 (- y)
  else "+" ++ pad 6 y.

Definition iso_string (t : Z) : string :=
  iso_year (YearFromTime t) ++ "-" ++ pad 2 (MonthFromTime t + 1) ++ "-"
  ++ pad 2 (DateFromTime t) ++ "T" ++ pad 2 (HourFromTime t) ++ ":"
  ++ pad 2 (MinFromTime t) ++ ":" ++ pad 2 (SecFromTime t) ++ "."
  ++ pad 3 (msFromTime t) ++ "Z".

(** [date.toISOString()]: a RangeError on an invalid date. *)
Definition toISOString (date : Number) : result string :=
  match date with
  | NaN => Throw RangeError
  | Num t => Ok (iso_string t)
  end.

(** ** English names, as [toLocaleDateString('en-US', ...)] gives them *)

Definition month_names : list string :=
  ["January"; "February"; "March"; "April"; "May"; "June"; "July";
   "August"; "September"; "October"; "November"; "December"].

Definition weekday_names : list string :=
  ["Sunday"; "Monday"; "Tuesday"; "Wednesday"; "Thursday"; "Friday";
   "Saturday"].

Definition month_long (m : Z) : string := nth (Z.to_nat m) month_names "".
Definition month_short (m : Z) : string := substring 0 3 (month_long m).
Definition weekday_long (w : Z) : string := nth (Z.to_nat w) weekday_names "".
Definition weekday_short (w : Z) : string := substring 0 3 (weekday_long w).

(** [date.toLocaleDateString('en-US', { month: 'long' })] and its three
    companions: names of the local date. *)
Definition toLocale_month (h : Host) (long : bool) (date : Number) : string :=
  match date with
  | NaN => "Invalid Date"
  | Num t =>
      let m := MonthFromTime (LocalTime h t) in
      if long then month_long m else month_short m
  end.

Definition toLocale_weekday (h : Host) (long : bool) (date : Number) : string :=
  match date with
  | NaN => "Invalid Date"
  | Num t =>
      let w := WeekDay (LocalTime h t) in
      if long then weekday_long w else weekday_short w
  end.

End ESDate.

(* ================================================================== *)
(** * CSS selectors *)
(* ================================================================== *)

(** The selectors of the model, already parsed: compound selectors of
    type, class, identifier and attribute tests and their negation,
    combined by descendant and child combinators, in a comma list.  A
    selector is matched against an element together with its ancestors. *)
Module CSS.
Import DOM.

Inductive simple : Type :=
| Universal                              (* [*] *)
| Tag (name : string)                    (* [time] *)
| Class (name : string)                  (* [.post-date] *)
| Id (name : string)                     (* [#main] *)
| HasAttr (name : string)                (* [[data-date]] *)
| AttrEq (name value : string)           (* [[lang="en"]] *)
| Not (s : simple).                      (* [:not(s)] *)

Definition compound : Type := list simple.

Inductive complex : Type :=
| Compound (c : compound)                         (* [a.b] *)
| Descendant (anc : complex) (c : compound)       (* [anc c] *)
| Child (par : complex) (c : compound).           (* [par > c] *)

Definition selector : Type := list complex.

(** ASCII white space, as HTML has it: tab, line feed, form feed, carriage
    return and space. *)
Definition is_ascii_whitespace (c : ascii) : bool :=
  let n := N_of_ascii c in
  ((n =? 9) || (n =? 10) || (n =? 12) || (n =? 13) || (n =? 32))%N.

(** The tokens of a [class] attribute value, split at ASCII white space. *)
Fixpoint class_tokens (cur : string) (s : string) : list string :=
  match s with
  | EmptyString => if String.eqb cur "" then [] else [cur]
  | String c r =>
      if is_ascii_whitespace c
      then (if String.eqb cur "" then class_tokens "" r
            else cur :: class_tokens "" r)
      else class_tokens (cur ++ String c EmptyString) r
  end.

Definition classList (n : node) : list string :=
  match getAttribute n "class" with
  | Some v => class_tokens "" v
  | None => []
  end.

Fixpoint matches_simple (s : simple) (n : node) : bool :=
  match s with
  | Universal => true
  | Tag t => match n with Element l _ _ => String.eqb l t | Text _ => false end
  | Class c => existsb (String.eqb c) (classList n)
  | Id i => match getAttribute n "id" with
            | Some v => String.eqb v i
            | None => false
            end
  | HasAttr a => match getAttribute n a with Some _ => true | None => false end
  | AttrEq a v => match getAttribute n a with
                  | Some w => String.eqb w v
                  | None => false
                  end
  | Not s' => negb (matches_simple s' n)
  end.

Definition matches_compound (c : compound) (n : node) : bool :=
  is_element n && forallb (fun s => matches_simple s n) c.

(** Is [f] true of some non-empty suffix of the list? *)
Fixpoint exists_suffix {A : Type} (f : list A -> bool) (l : list A) : bool :=
  match l with
  | [] => false
  | _ :: r => f l || exists_suffix f r
  end.

(** [ch] is an element followed by its ancestors, nearest first. *)
Fixpoint matches_complex (c : complex) (ch : list node) : bool :=
  match ch with
  | [] => false
  | n :: above =>
      match c with
      | Compound k => matches_compound k n
      | Descendant a k =>
          matches_compound k n && exists_suffix (matches_complex a) above
      | Child a k => matches_compound k n && matches_complex a above
      end
  end.

Definition matches_chain (s : selector) (ch : list node) : bool :=
  existsb (fun c => matches_complex c ch) s.

(** [el.matches(s)] for the element at [p]. *)
Definition matches (s : selector) (doc : node) (p : path) : bool :=
  match chain doc p with
  | Some ch => matches_chain s ch
  | None => false
  end.

(** [document.querySelectorAll(s)]: the matching elements, in tree
    order. *)
Definition querySelectorAll (s : selector) (doc : node) : list path :=
  filter (matches s doc) (element_paths doc).

(** [el.closest(s)]: the element itself or its nearest ancestor that
    matches, searched upwards. *)
Fixpoint closest_rev (s : selector) (doc : node) (rp : list nat) : option path :=
  if matches s doc (rev rp) then Some (rev rp)
  else match rp with
       | [] => None
       | _ :: up => closest_rev s doc up
       end.

Definition closest (s : selector) (doc : node) (p : path) : option path :=
  closest_rev s doc (rev p).

End CSS.

(* ================================================================== *)
(** * preprocess-date.js *)
(* ================================================================== *)

Module Annotator.
Import JS DOM CSS ESDate.

Section WithHost.
Variable h : Host.

(** Lines 31-43: the date value of a time element; [None] when the
    callback returns at line 39. *)
Definition resolve_dateValue (timeEl : node) : result (option string) :=
  let dateValue := getAttribute timeEl "datetime" in
  if negb (truthy dateValue) then
    let dateText := trim (textContent timeEl) in
    let date := new_Date h dateText in
    if isNaN (getTime date) then Ok None
    else iso <- toISOString date ;; Ok (Some (split_T_first iso))
  else Ok dateValue.

(** Lines 57-64: the four attributes, written in this order. *)
Definition write_attributes (dateValue : string) (parentEl : node) : node :=
  let e1 := setAttribute "data-date" dateValue parentEl in
  let date := new_Date h dateValue in
  let e2 := setAttribute "data-year" (ToString (getFullYear h date)) e1 in
  let e3 := setAttribute "data-month" (ToString (add1 (getMonth h date))) e2 in
  setAttribute "data-day" (ToString (getDate h date)) e3.

(** Lines 46-53: the element to annotate.  [parentSelector] is [None] for
    an argument that is undefined or the empty string. *)
Definition resolve_parent (parentSelector : option selector) (doc : node)
           (timeEl : path) : option path :=
  match parentSelector with
  | Some s => closest s doc timeEl
  | None => parentElement timeEl
  end.

(** Lines 29-66: the callback of [forEach], for the time element at
    [timeEl] of the document [doc]. *)
Definition annotate (parentSelector : option selector) (doc : node)
           (timeEl : path) : result node :=
  match lookup doc timeEl with
  | None => Ok doc
  | Some el =>
      r <- resolve_dateValue el ;;
      match r with
      | None => Ok doc
      | Some dateValue =>
          match resolve_parent parentSelector doc timeEl with
          | Some parentEl => Ok (update (write_attributes dateValue) doc parentEl)
          | None => Ok doc
          end
      end
  end.

Definition time_selector : selector := [Compound [Tag "time"]].

(** [addDateDataAttributes(parentSelector)].  The callback never changes
    the shape of the tree, so the paths of the NodeList stay those of its
    elements. *)
Definition addDateDataAttributes (parentSelector : option selector)
           (doc : node) : result node :=
  let timeElements := querySelectorAll time_selector doc in
  forEach (annotate parentSelector) timeElements doc.

(** [window.dateDataConfig]: absent, or an object whose [parentSelector]
    is a selector that parses, or is missing or empty. *)
Record DateDataConfig : Type := { parentSelector : option selector }.

(** [applyDateDataAttributes()] *)
Definition applyDateDataAttributes (dateDataConfig : option DateDataConfig)
           (doc : node) : result node :=
  match dateDataConfig with
  | Some {| parentSelector := Some s |} => addDateDataAttributes (Some s) doc
  | _ => addDateDataAttributes None doc
  end.

End WithHost.
End Annotator.

(* ================================================================== *)
(** * The formatter script *)
(* ================================================================== *)

Module Formatter.
Import JS DOM CSS ESDate.

(** The double quote. *)
Definition dq : string := String (ascii_of_nat 34) EmptyString.

(** [`<span class="${className}">${content}</span>`] *)
Definition span (className content : string) : string :=
  "<span class=" ++ dq ++ className ++ dq ++ ">" ++ content ++ "</span>".

(** A format configuration: [{ selector, name, format }]. *)
Record Config : Type := {
  selector : CSS.selector;
  name : string;
  format : string
}.

(** A token of the table: its value and its class name. *)
Record Token : Type := { value : Value; class : string }.

(** [array.sort(cmp)]: a stable sort. *)
Fixpoint insert_sorted {A : Type} (cmp : A -> A -> Z) (x : A) (l : list A) : list A :=
  match l with
  | [] => [x]
  | y :: r => if (cmp x y <=? 0)%Z then x :: l else y :: insert_sorted cmp x r
  end.

Fixpoint sort {A : Type} (cmp : A -> A -> Z) (l : list A) : list A :=
  match l with
  | [] => []
  | x :: r => insert_sorted cmp x (sort cmp r)
  end.

Definition len (s : string) : Z := Z.of_nat (String.length s).

Fixpoint get {A : Type} (key : string) (o : list (string * A)) : option A :=
  match o with
  | [] => None
  | (k, v) :: r => if String.eqb k key then Some v else get key r
  end.

Section WithHost.
Variable h : Host.

(** Lines 76-87: the token table, its keys in the order of insertion. *)
Definition tokens (date : Number) : list (string * Token) :=
  [ ("YYYY", {| value := VNum (getFullYear h date); class := "year-full" |});
    ("YY", {| value := VStr (slice_last2 (ToString (getFullYear h date)));
              class := "year-short" |});
    ("MMMM", {| value := VStr (toLocale_month h true date); class := "month-long" |});
    ("MMM", {| value := VStr (toLocale_month h false date); class := "month-short" |});
    ("MM", {| value := VStr (padStart0 2 (ToString (add1 (getMonth h date))));
              class := "month-numeric" |});
    ("M", {| value := VNum (add1 (getMonth h date)); class := "month-numeric" |});
    ("dddd", {| value := VStr (toLocale_weekday h true date); class := "weekday-long" |});
    ("ddd", {| value := VStr (toLocale_weekday h false date); class := "weekday-short" |});
    ("DD", {| value := VStr (padStart0 2 (ToString (getDate h date)));
              class := "day-numeric" |});
    ("D", {| value := VNum (getDate h date); class := "day-numeric" |}) ].

(** Line 94: the keys, longest first. *)
Definition sortedTokens (toks : list (string * Token)) : list string :=
  sort (fun a b => len b - len a)%Z (map fst toks).

(** Lines 98-108: one token replaced throughout [formatted]. *)
Definition replace_token (toks : list (string * Token)) (formatted token : string)
  : string :=
  match get token toks with
  | Some t =>
      let wrapped := span (class t) (Value_to_string (value t)) in
      let escapedToken := escapeRegExp token in
      match pattern_literal escapedToken with
      | Some lit => replace_word_all lit wrapped formatted
      | None => formatted         (* never: the escaped source is a literal *)
      end
  | None => formatted
  end.

(** Lines 90-109: the template with every token replaced. *)
Definition substitute (toks : list (string * Token)) (format : string) : string :=
  fold_left (replace_token toks) (sortedTokens toks) format.

(** [el.innerHTML = html] *)
Definition setInnerHTML (html : string) (el : node) : node :=
  match el with
  | Element t a _ => Element t a (parseFragment h html)
  | Text _ => el
  end.

(** Lines 58-114: the callback of [forEach] on the element [el]: [None]
    when it returns at line 66, the element as it has become otherwise. *)
Definition format_element (name format : string) (el : node) : result (option node) :=
  let dateText := trim (textContent el) in
  let date := new_Date h dateText in
  if isNaN (getTime date) then Ok None
  else
    el1 <- (if String.eqb (tagName el) "TIME"
            then iso <- toISOString date ;;
                 Ok (setAttribute "datetime" (split_T_first iso) el)
            else Ok el) ;;
    let formatted := substitute (tokens date) format in
    Ok (Some (setInnerHTML (span name formatted) el1)).

(** ** The loop over the NodeList

    Assigning [innerHTML] removes the former children of the element from
    the document.  The NodeList is static: an element met later in the loop
    may by then live in a removed subtree, where the callback still mutates
    it.  The state of the loop is therefore a forest, the document first,
    and for each member of the NodeList the tree and path where that
    element now lives. *)

Record Heap : Type := {
  trees : list node;
  locs : list (nat * path)
}.

(** [strip p q]: the rest of [q] after its prefix [p]. *)
Fixpoint strip (p q : path) : option path :=
  match p, q with
  | [], _ => Some q
  | i :: p', j :: q' => if Nat.eqb i j then strip p' q' else None
  | _ :: _, [] => None
  end.

(** Where an element lives once the children of the element at [(k, p)]
    have become the trees [base], [base + 1], ... *)
Definition retarget (k : nat) (p : path) (base : nat) (loc : nat * path)
  : nat * path :=
  let (k', q) := loc in
  if Nat.eqb k' k then
    match strip p q with
    | Some (i :: r) => (base + i, r)%nat
    | _ => loc
    end
  else loc.

(** The callback run on the [i]-th member of the NodeList. *)
Definition visit (name format : string) (st : Heap) (i : nat) : result Heap :=
  match nth_error (locs st) i with
  | None => Ok st
  | Some (k, p) =>
      match nth_error (trees st) k with
      | None => Ok st
      | Some tree =>
          match lookup tree p with
          | None => Ok st
          | Some el =>
              r <- format_element name format el ;;
              match r with
              | None => Ok st
              | Some el' =>
                  Ok {| trees := (alter_nth (fun t => update (fun _ => el') t p)
                                            k (trees st)
                                  ++ children el)%list;
                        locs := map (retarget k p (List.length (trees st)))
                                    (locs st) |}
              end
          end
      end
  end.

Definition document (doc : node) (st : Heap) : node := nth 0 (trees st) doc.

(** [formatDate(data)] *)
Definition formatDate (data : Config) (doc : node) : result node :=
  let elements := querySelectorAll (selector data) doc in
  st <- forEach (visit (name data) (format data))
                (seq 0 (List.length elements))
                {| trees := [doc]; locs := map (pair O) elements |} ;;
  Ok (document doc st).

(** ** The argument as the page supplies it

    [formatDate] above is the function on a record that holds what the
    code expects.  The function of the source takes any value, whether a
    member of [window.dateFormats] or the argument of a call by hand, and
    reads it as lines 54, 55 and 108 do:

    - line 54 destructures it, which throws a TypeError for [null] and
      [undefined], and gives [undefined] for a property that is missing;
    - line 55 passes [selector] to [querySelectorAll], which throws a
      SyntaxError for a string that is no selector; [undefined] becomes
      the string ["undefined"], a type selector;
    - [name] reaches the markup through a template literal, where
      [undefined] becomes ["undefined"];
    - line 108 calls [replace] on [format], which throws a TypeError when
      [format] is not a string.  It is reached for the first matched
      element whose text is a date, after the escape at line 66 and after
      the [datetime] attribute of lines 70-72. *)

(** The value of [data.selector] once converted to a string: a selector,
    or a string that does not parse as one. *)
Inductive SelectorValue : Type :=
| Parsed (s : CSS.selector)
| Unparsable.

(** The value of [data]: [null] or [undefined], or a value with
    properties, of which the three are read.  [None] for the selector and
    the name is [undefined]; for the format it is [undefined] or any
    other value that is no string. *)
Inductive Data : Type :=
| Nullish
| Object (selector : option SelectorValue) (name : option string)
         (format : option string).

(** The value that is a record of the expected shape. *)
Definition record (c : Config) : Data :=
  Object (Some (Parsed (selector c))) (Some (name c)) (Some (format c)).

(** [String(undefined)] as a selector. *)
Definition undefined_selector : CSS.selector := [Compound [Tag "undefined"]].

(** Lines 58-108 when [format] is no string: the elements whose text is
    no date are passed over, and the first one whose text is a date ends
    the call, a TIME element with its [datetime] attribute set. *)
Fixpoint format_missing (elements : list path) (doc : node) : completion node :=
  match elements with
  | [] => Normal doc
  | p :: rest =>
      match lookup doc p with
      | None => format_missing rest doc
      | Some el =>
          let date := new_Date h (trim (textContent el)) in
          if isNaN (getTime date) then format_missing rest doc
          else
            match (if String.eqb (tagName el) "TIME"
                   then iso <- toISOString date ;;
                        Ok (update (setAttribute "datetime" (split_T_first iso)) doc p)
                   else Ok doc) with
            | Ok doc1 => Abrupt TypeError doc1
            | Throw e => Abrupt e doc
            end
      end
  end.

(** [formatDate(data)] for any argument.  On a record of the expected
    shape it is [formatDate] above, which never throws. *)
Definition formatDate_of (data : Data) (doc : node) : completion node :=
  match data with
  | Nullish => Abrupt TypeError doc
  | Object selector name format =>
      match match selector with
            | Some v => v
            | None => Parsed undefined_selector
            end with
      | Unparsable => Abrupt SyntaxError doc
      | Parsed s =>
          let name := match name with Some n => n | None => "undefined" end in
          match format with
          | Some f =>
              completion_of
                (formatDate {| selector := s; name := name; format := f |} doc) doc
          | None => format_missing (querySelectorAll s doc) doc
          end
      end
  end.

(** [window.dateFormats]: undefined, an array of values, or any other
    value, truthy or not. *)
Inductive Global : Type :=
| Undefined
| ArrayOf (l : list Data)
| Other (truthy : bool).

Definition ToBoolean (v : Global) : bool :=
  match v with
  | Undefined => false
  | ArrayOf _ => true
  | Other b => b
  end.

Definition isArray (v : Global) : bool :=
  match v with ArrayOf _ => true | _ => false end.

Definition elements_of (v : Global) : list Data :=
  match v with ArrayOf l => l | _ => [] end.

(** [applyAllDateFormats()] *)
Definition applyAllDateFormats (dateFormats : Global) (doc : node)
  : completion node :=
  if ToBoolean dateFormats && isArray dateFormats
  then forEach_state (fun d config => formatDate_of config d)
                     (elements_of dateFormats) doc
  else Normal doc.

End WithHost.
End Formatter.

(* ================================================================== *)
(** * The scripts on a page *)
(* ================================================================== *)

(** Both files end in the same wiring: run the script's function when
    the document is ready, run it again on every [mercury:load] event, and
    assign the core function to a property of [window].

    The page is the state that this wiring reads and writes: the ready
    state and the tree of the document, the two configuration globals, the
    listeners registered at [document] and at [window], the functions that
    the scripts have put on [window], and the exceptions that the host has
    reported.  Every evaluation of a script creates its functions anew, so
    a registration never repeats an earlier one and [addEventListener]
    always adds. *)
Module Page.
Import DOM.

(** [document.readyState] *)
Inductive ReadyState : Type := loading | interactive | complete.

(** The functions that the scripts register as listeners. *)
Inductive Listener : Type := applyDateDataAttributes | applyAllDateFormats.

(** The functions that they assign to properties of [window]. *)
Inductive Exposed : Type := addDateDataAttributes | formatDate.

Record Window : Type := {
  readyState : ReadyState;
  document : node;
  dateDataConfig : option Annotator.DateDataConfig;
  dateFormats : Formatter.Global;
  document_listeners : list (string * Listener);
  window_listeners : list (string * Listener);
  exposed : list Exposed;
  reported : list Exn
}.

Definition set_readyState (r : ReadyState) (w : Window) : Window :=
  {| readyState := r; document := document w;
     dateDataConfig := dateDataConfig w; dateFormats := dateFormats w;
     document_listeners := document_listeners w;
     window_listeners := window_listeners w; exposed := exposed w;
     reported := reported w |}.

Definition set_document (doc : node) (w : Window) : Window :=
  {| readyState := readyState w; document := doc;
     dateDataConfig := dateDataConfig w; dateFormats := dateFormats w;
     document_listeners := document_listeners w;
     window_listeners := window_listeners w; exposed := exposed w;
     reported := reported w |}.

(** [document.addEventListener(type, f)] and [window.addEventListener(type, f)] *)
Definition document_addEventListener (type : string) (f : Listener) (w : Window)
  : Window :=
  {| readyState := readyState w; document := document w;
     dateDataConfig := dateDataConfig w; dateFormats := dateFormats w;
     document_listeners := (document_listeners w ++ [(type, f)])%list;
     window_listeners := window_listeners w; exposed := exposed w;
     reported := reported w |}.

Definition window_addEventListener (type : string) (f : Listener) (w : Window)
  : Window :=
  {| readyState := readyState w; document := document w;
     dateDataConfig := dateDataConfig w; dateFormats := dateFormats w;
     document_listeners := document_listeners w;
     window_listeners := (window_listeners w ++ [(type, f)])%list;
     exposed := exposed w; reported := reported w |}.

(** [window.addDateDataAttributes = ...], [window.formatDate = ...] *)
Definition expose (f : Exposed) (w : Window) : Window :=
  {| readyState := readyState w; document := document w;
     dateDataConfig := dateDataConfig w; dateFormats := dateFormats w;
     document_listeners := document_listeners w;
     window_listeners := window_listeners w; exposed := f :: exposed w;
     reported := reported w |}.

(** The host reports an exception that nothing has caught. *)
Definition report (e : Exn) (w : Window) : Window :=
  {| readyState := readyState w; document := document w;
     dateDataConfig := dateDataConfig w; dateFormats := dateFormats w;
     document_listeners := document_listeners w;
     window_listeners := window_listeners w; exposed := exposed w;
     reported := (reported w ++ [e])%list |}.


(** The listeners of a target for an event type, in the order of their
    registration. *)
Definition listeners_of (type : string) (l : list (string * Listener))
  : list Listener :=
  map snd (filter (fun e => String.eqb (fst e) type) l).

Section WithHost.
Variable h : Host.

(** The body of a registered function: it reads the globals and the
    document as they are at the time of the call. *)
Definition run (f : Listener) (w : Window) : completion node :=
  match f with
  | applyDateDataAttributes =>
      completion_of
        (Annotator.applyDateDataAttributes h (dateDataConfig w) (document w))
        (document w)
  | applyAllDateFormats =>
      Formatter.applyAllDateFormats h (dateFormats w) (document w)
  end.

(** The function called by the script itself, at lines 90 and 143: its
    exception is the script's. *)
Definition invoke (f : Listener) (w : Window) : result Window :=
  match run f w with
  | Normal doc => Ok (set_document doc w)
  | Abrupt e _ => Throw e
  end.

(** The function called by the host as the listener of an event: its
    exception ends it and is reported, and the document stays as it has
    left it.  The listeners that follow are called all the same. *)
Definition call (f : Listener) (w : Window) : result Window :=
  match run f w with
  | Normal doc => Ok (set_document doc w)
  | Abrupt e doc => Ok (report e (set_document doc w))
  end.

Definition dispatch (listeners : list Listener) (w : Window) : result Window :=
  forEach (fun w f => call f w) listeners w.

(** The end of parsing: the document becomes interactive and
    [DOMContentLoaded] is fired at it, and bubbles to [window]. *)
Definition DOMContentLoaded (w : Window) : result Window :=
  let w := set_readyState interactive w in
  dispatch (listeners_of "DOMContentLoaded" (document_listeners w)
            ++ listeners_of "DOMContentLoaded" (window_listeners w))%list w.

(** The platform fires [mercury:load] at [window]. *)
Definition mercury_load (w : Window) : result Window :=
  dispatch (listeners_of "mercury:load" (window_listeners w)) w.

(** [preprocess-date.js], lines 87-98. *)
Definition preprocess_date_js (w : Window) : result Window :=
  w1 <- match readyState w with
        | loading =>
            Ok (document_addEventListener "DOMContentLoaded"
                                          applyDateDataAttributes w)
        | _ => invoke applyDateDataAttributes w
        end ;;
  let w2 := window_addEventListener "mercury:load" applyDateDataAttributes w1 in
  Ok (expose addDateDataAttributes w2).

(** The formatter script, lines 139-155. *)
Definition date_formatter_js (w : Window) : result Window :=
  w1 <- match readyState w with
        | loading =>
            Ok (document_addEventListener "DOMContentLoaded" applyAllDateFormats w)
        | _ => invoke applyAllDateFormats w
        end ;;
  let w2 := window_addEventListener "mercury:load" applyAllDateFormats w1 in
  Ok (expose formatDate w2).

End WithHost.
End Page.

(** The fields of a page after the steps of a script. *)
Ltac page_fields :=
  cbn [Page.readyState Page.document Page.dateDataConfig Page.dateFormats
       Page.document_listeners Page.window_listeners Page.exposed Page.reported
       Page.expose Page.window_addEventListener Page.document_addEventListener
       Page.set_document Page.set_readyState Page.report bind].

(* ================================================================== *)
(** * A host for the examples *)
(* ================================================================== *)

(** A browser in a zone at a fixed offset from UTC that, beyond the ISO
    dates, reads the English form [Month D, YYYY] as midnight local
    time, the way the common engines do, and nothing else. *)
Module SampleHost.
Import JS DOM ESDate.

Definition is_alpha (c : ascii) : bool :=
  let n := N_of_ascii c in
  ((65 <=? n) && (n <=? 90) || (97 <=? n) && (n <=? 122))%N.

Fixpoint span_of (f : ascii -> bool) (l : list ascii) : list ascii * list ascii :=
  match l with
  | c :: r => if f c then let (a, b) := span_of f r in (c :: a, b) else ([], l)
  | [] => ([], [])
  end.

Fixpoint index_of (w : string) (i : Z) (l : list string) : option Z :=
  match l with
  | [] => None
  | x :: r => if String.eqb x w then Some i else index_of w (i + 1)%Z r
  end.

Definition month_index (w : string) : option Z :=
  match index_of w 0%Z month_names with
  | Some i => Some i
  | None => index_of w 0%Z (map (substring 0 3) month_names)
  end.

Open Scope Z_scope.

Definition parse_month_day_year (offset : Z) (s : string) : Number :=
  let (w, r1) := span_of is_alpha (list_ascii_of_string s) in
  let (_, r2) := span_of is_ws r1 in
  let (ds, r3) := span_of is_digit r2 in
  let r4 := match r3 with
            | c :: r => if Ascii.eqb c "," then r else r3
            | [] => r3
            end in
  let (_, r5) := span_of is_ws r4 in
  let (ys, r6) := span_of is_digit r5 in
  match month_index (string_of_list_ascii w), digits_val 0 ds, digits_val 0 ys, r6 with
  | Some m, Some d, Some y, [] =>
      if (1 <=? Z.of_nat (List.length ds)) && (Z.of_nat (List.length ds) <=? 2)
         && (Z.of_nat (List.length ys) =? 4) && (1 <=? d) && (d <=? 31)
      then Num (MakeDate (MakeDay y m d) 0 - offset)
      else NaN
  | _, _, _, _ => NaN
  end.

(** A fragment parser for plain markup: text, and elements with a start
    tag, attributes in double quotes and an end tag.  No character
    references, comments or void elements. *)
Inductive token : Type :=
| TOpen (name : string) (attributes : list (string * string))
| TClose
| TText (data : string).

Definition snoc (s : string) (c : ascii) : string := (s ++ String c EmptyString)%string.

Inductive lex_state : Type :=
| InText (acc : string)
| TagStart
| InClose
| InName (name : string)
| InAttrs (name : string) (attributes : list (string * string))
| InAttrName (name : string) (attributes : list (string * string)) (key : string)
| InAttrValue (name : string) (attributes : list (string * string))
              (key : string) (quoted : bool) (acc : string).

Definition flush (acc : string) : list token :=
  if String.eqb acc "" then [] else [TText acc].

Definition lex_step (st : lex_state) (c : ascii) : lex_state * list token :=
  let lt := Ascii.eqb c "<" in
  let gt := Ascii.eqb c ">" in
  match st with
  | InText acc => if lt then (TagStart, flush acc) else (InText (snoc acc c), [])
  | TagStart => if Ascii.eqb c "/" then (InClose, [])
                else (InName (String c EmptyString), [])
  | InClose => if gt then (InText "", [TClose]) else (InClose, [])
  | InName n =>
      if gt then (InText "", [TOpen n []])
      else if is_ws c then (InAttrs n [], [])
      else (InName (snoc n c), [])
  | InAttrs n a =>
      if gt then (InText "", [TOpen n a])
      else if is_ws c then (InAttrs n a, [])
      else (InAttrName n a (String c EmptyString), [])
  | InAttrName n a k =>
      if Ascii.eqb c "=" then (InAttrValue n a k false "", [])
      else (InAttrName n a (snoc k c), [])
  | InAttrValue n a k false acc =>
      (InAttrValue n a k true acc, [])
  | InAttrValue n a k true acc =>
      if Ascii.eqb c (ascii_of_nat 34) then (InAttrs n (a ++ [(k, acc)]), [])
      else (InAttrValue n a k true (snoc acc c), [])
  end.

Fixpoint lex (st : lex_state) (l : list ascii) : list token :=
  match l with
  | [] => match st with InText acc => flush acc | _ => [] end
  | c :: r => let (st', out) := lex_step st c in (out ++ lex st' r)%list
  end.

Fixpoint build (fuel : nat) (toks : list token) : list node * list token :=
  match fuel with
  | O => ([], [])
  | S f =>
      match toks with
      | [] => ([], [])
      | TText s :: r => let (ns, r') := build f r in (Text s :: ns, r')
      | TClose :: r => ([], r)
      | TOpen n a :: r =>
          let (kids, r1) := build f r in
          let (sibs, r2) := build f r1 in
          (Element n a kids :: sibs, r2)
      end
  end.

Definition fragment (s : string) : list node :=
  let toks := lex (InText "") (list_ascii_of_string s) in
  fst (build (S (List.length toks)) toks).

Definition host (offset : Z) : Host :=
  {| LocalTZA := fun _ => offset;
     parseOther := parse_month_day_year offset;
     parseFragment := fragment |}.

Definition hour : Z := 3600000.

End SampleHost.

(* ================================================================== *)
(** * Definitions for the statements *)
(* ================================================================== *)

Import JS DOM CSS ESDate.

(** Induction on a tree, with the hypothesis for every child. *)
Section NodeInduction.
Variable P : node -> Prop.
Hypothesis P_text : forall s, P (Text s).
Hypothesis P_element : forall t a cs, Forall P cs -> P (Element t a cs).

Fixpoint node_induction (n : node) : P n :=
  match n with
  | Text s => P_text s
  | Element t a cs =>
      P_element t a cs
        ((fix all (l : list node) : Forall P l :=
            match l with
            | [] => Forall_nil P
            | c :: r => Forall_cons c (node_induction c) (all r)
            end) cs)
  end.
End NodeInduction.

(** [q] is [p] or an ancestor of [p]. *)
Definition is_prefix (q p : path) : Prop := exists r, p = (q ++ r)%list.

(** The annotator's callback as a function without exceptions. *)
Definition annotate_pure (h : Host) (parentSelector : option selector)
           (doc : node) (timeEl : path) : node :=
  match Annotator.annotate h parentSelector doc timeEl with
  | Ok d => d
  | Throw _ => doc
  end.

(** What an element is by itself: its name and attributes (the data of a
    text node). *)
Definition own_data (n : node) : string * list (string * string) :=
  match n with
  | Element t a _ => (t, a)
  | Text s => (s, [])
  end.

(** [el.removeAttribute(name)] *)
Definition removeAttribute (name : string) (n : node) : node :=
  match n with
  | Element t a cs =>
      Element t (filter (fun kv => negb (String.eqb (fst kv) name)) a) cs
  | Text _ => n
  end.

(** [q] is the nearest of [p] and its ancestors that matches [s]. *)
Definition nearest_match (s : selector) (doc : node) (p q : path) : Prop :=
  is_prefix q p /\ matches s doc q = true
  /\ forall q', is_prefix q' p -> (List.length q < List.length q')%nat ->
                matches s doc q' = false.

(** Neither [p] nor an ancestor of it matches [s]. *)
Definition no_match (s : selector) (doc : node) (p : path) : Prop :=
  forall q', is_prefix q' p -> matches s doc q' = false.

(** ** The template read in one pass

    The specification of the substitution: the template is cut into its
    words, the maximal runs of word characters, and the characters between
    them; a word that is a token code becomes the span of that token;
    everything else is kept. *)

Inductive seg : Type :=
| Word (w : string)
| Sep (c : ascii).

Fixpoint segs (s : string) : list seg :=
  match s with
  | EmptyString => []
  | String c r =>
      if is_word c then
        match segs r with
        | Word w :: t => Word (String c w) :: t
        | t => Word (String c EmptyString) :: t
        end
      else Sep c :: segs r
  end.

Definition seg_string (g : seg) : string :=
  match g with
  | Word w => w
  | Sep c => String c EmptyString
  end.

Fixpoint flatten (l : list string) : string :=
  match l with
  | [] => EmptyString
  | x :: r => x ++ flatten r
  end.

(** The markup of a token of the table. *)
Definition token_span (t : Formatter.Token) : string :=
  Formatter.span (Formatter.class t) (Value_to_string (Formatter.value t)).

Definition render_seg (toks : list (string * Formatter.Token)) (g : seg) : string :=
  match g with
  | Word w =>
      match Formatter.get w toks with
      | Some t => token_span t
      | None => w
      end
  | Sep c => String c EmptyString
  end.

Definition single_pass (toks : list (string * Formatter.Token)) (format : string)
  : string :=
  flatten (map (render_seg toks) (segs format)).

(** The word at the head of a string, and what follows it. *)
Fixpoint word_prefix (s : string) : string :=
  match s with
  | String c r => if is_word c then String c (word_prefix r) else EmptyString
  | EmptyString => EmptyString
  end.

Fixpoint word_rest (s : string) : string :=
  match s with
  | String c r => if is_word c then word_rest r else s
  | EmptyString => EmptyString
  end.

Fixpoint string_forallb (f : ascii -> bool) (s : string) : bool :=
  match s with
  | EmptyString => true
  | String c r => f c && string_forallb f r
  end.

(** A token code: a non-empty string of word characters. *)
Definition is_code (s : string) : bool :=
  negb (String.eqb s "") && string_forallb is_word s.

(** No word of [s] is one of the [codes]. *)
Definition inert (codes : list string) (s : string) : bool :=
  forallb (fun g => match g with
                    | Word w => negb (existsb (String.eqb w) codes)
                    | Sep _ => true
                    end) (segs s).

(** A replacement text that starts and ends outside a word. *)
Definition closed (s : string) : bool :=
  negb (is_word_opt (first_char s)) && negb (is_word_opt (last_char None s)).

(** One pass of replacement, on the words. *)
Definition render_one (lit repl : string) (g : seg) : string :=
  match g with
  | Word w => if String.eqb w lit then repl else w
  | Sep c => String c EmptyString
  end.

Definition render_all (lit repl s : string) : string :=
  flatten (map (render_one lit repl) (segs s)).

Definition expand_one (lit repl : string) (g : seg) : list seg :=
  match g with
  | Word w => if String.eqb w lit then segs repl else [g]
  | Sep _ => [g]
  end.

(** The words replaced so far, after the passes for the codes [order]. *)
Definition expand_all (toks : list (string * Formatter.Token)) (order : list string)
           (g : seg) : list seg :=
  match g with
  | Word w =>
      if existsb (String.eqb w) order then
        match Formatter.get w toks with
        | Some t => segs (token_span t)
        | None => [g]
        end
      else [g]
  | Sep _ => [g]
  end.

(** A list of segments as [segs] builds them: words are non-empty runs of
    word characters, separators are other characters, and no two words
    touch. *)
Fixpoint well_formed (l : list seg) : bool :=
  match l with
  | [] => true
  | Sep c :: r => negb (is_word c) && well_formed r
  | Word w :: r =>
      is_code w && well_formed r
      && match r with Word _ :: _ => false | _ => true end
  end.

(** The characters of a decimal numeral. *)
Definition is_num_char (c : ascii) : bool := is_digit c || Ascii.eqb c "-".

(** The start tag of a span. *)
Definition span_open (cls : string) : string :=
  "<span class=" ++ Formatter.dq ++ cls ++ Formatter.dq ++ ">".

(** The codes of the token table. *)
Definition token_codes : list string :=
  ["YYYY"; "YY"; "MMMM"; "MMM"; "MM"; "M"; "dddd"; "ddd"; "DD"; "D"].

(** ** Idempotence: definitions *)

(** The attributes that the annotator writes. *)
Definition annotation_keys : list string :=
  ["data-date"; "data-year"; "data-month"; "data-day"].

Definition is_annotation_key (k : string) : bool :=
  existsb (String.eqb k) annotation_keys.

(** A selector that does not look at those attributes. *)
Fixpoint blind_simple (s : simple) : bool :=
  match s with
  | HasAttr a => negb (is_annotation_key a)
  | AttrEq a _ => negb (is_annotation_key a)
  | Not s' => blind_simple s'
  | _ => true
  end.

Fixpoint blind_complex (c : complex) : bool :=
  match c with
  | Compound k => forallb blind_simple k
  | Descendant a k => blind_complex a && forallb blind_simple k
  | Child a k => blind_complex a && forallb blind_simple k
  end.

Definition blind (parentSelector : option selector) : bool :=
  match parentSelector with
  | Some s => forallb blind_complex s
  | None => true
  end.

(** Attribute lists that agree outside the annotation. *)
Definition attrs_agree (a a' : list (string * string)) : Prop :=
  forall k, is_annotation_key k = false -> assoc k a = assoc k a'.

(** Nodes that are the same by themselves, outside the annotation. *)
Definition own_agree (n n' : node) : Prop :=
  match n, n' with
  | Text s, Text s' => s = s'
  | Element t a _, Element t' a' _ => t = t' /\ attrs_agree a a'
  | _, _ => False
  end.

(** Trees that are the same outside the annotation. *)
Fixpoint sim (n n' : node) : Prop :=
  match n, n' with
  | Text s, Text s' => s = s'
  | Element t a cs, Element t' a' cs' =>
      t = t' /\ attrs_agree a a'
      /\ (fix all (l l' : list node) : Prop :=
            match l, l' with
            | [], [] => True
            | c :: r, c' :: r' => sim c c' /\ all r r'
            | _, _ => False
            end) cs cs'
  | _, _ => False
  end.

(** A change of the attributes of an element. *)
Definition map_attrs (F : list (string * string) -> list (string * string))
           (n : node) : node :=
  match n with
  | Element t a cs => Element t (F a) cs
  | Text _ => n
  end.

(** Several attributes set one after the other. *)
Definition sets (kvs : list (string * string)) (a : list (string * string))
  : list (string * string) :=
  fold_left (fun a kv => set_assoc (fst kv) (snd kv) a) kvs a.

Definition remove_key (k : string) (kvs : list (string * string))
  : list (string * string) :=
  filter (fun kv => negb (String.eqb (fst kv) k)) kvs.

(** What the annotator writes for a date value. *)
Definition annotation (h : Host) (dateValue : string) : list (string * string) :=
  let date := new_Date h dateValue in
  [ ("data-date", dateValue);
    ("data-year", ToString (getFullYear h date));
    ("data-month", ToString (add1 (getMonth h date)));
    ("data-day", ToString (getDate h date)) ].

(** What the callback will do for the time element at [p]: the date value
    and the element to annotate, or nothing. *)
Definition plan (h : Host) (parentSelector : option selector) (doc : node)
           (p : path) : option (string * path) :=
  match lookup doc p with
  | None => None
  | Some el =>
      match Annotator.resolve_dateValue h el with
      | Ok (Some dateValue) =>
          match Annotator.resolve_parent parentSelector doc p with
          | Some q => Some (dateValue, q)
          | None => None
          end
      | _ => None
      end
  end.

Definition perform (h : Host) (doc : node) (e : option (string * path)) : node :=
  match e with
  | Some (dateValue, q) => update (map_attrs (sets (annotation h dateValue))) doc q
  | None => doc
  end.

Definition option_rel {A : Type} (R : A -> A -> Prop) (x y : option A) : Prop :=
  match x, y with
  | Some a, Some b => R a b
  | None, None => True
  | _, _ => False
  end.

(** The elements that a script writes on. *)
Definition targets (script : list (option (string * path))) : list path :=
  flat_map (fun e => match e with Some (_, q) => [q] | None => [] end) script.

(** In a list in tree order no element comes after one of its
    descendants, nor twice. *)
Definition tree_order (l : list path) : Prop :=
  ForallOrdPairs (fun x y => ~ is_prefix y x) l.

(** The element [<t a>...</t>] as the callback of [formatDate] leaves it
    when its text is the date [tv]. *)
Definition rewritten (h : Host) (name format t : string)
           (a : list (string * string)) (tv : Z) : node :=
  Element t
    (if String.eqb (toUpperCase t) "TIME"
     then set_assoc "datetime" (split_T_first (iso_string tv)) a else a)
    (parseFragment h
       (Formatter.span name
          (Formatter.substitute (Formatter.tokens h (Num tv)) format))).

(** The state of the loop of [formatDate] for the NodeList [ps]: the
    elements located in the document are at their original paths. *)
Definition located (ps : list path) (st : Formatter.Heap) : Prop :=
  Formatter.trees st <> []
  /\ forall j q, nth_error (Formatter.locs st) j = Some (O, q) ->
                 nth_error ps j = Some q.

(** Before the element [p], of index [j0], is visited: it is in the
    document, and the elements still to visit that are in the document
    are as they were. *)
Definition before_target (doc : node) (ps : list path) (j0 : nat) (p : path)
           (i : nat) (st : Formatter.Heap) : Prop :=
  located ps st
  /\ nth_error (Formatter.locs st) j0 = Some (O, p)
  /\ forall j q, (i <= j)%nat -> nth_error (Formatter.locs st) j = Some (O, q) ->
                 lookup (Formatter.document doc st) q = lookup doc q.

(** After: it is rewritten, and no listed element is in the document
    below it. *)
Definition after_target (doc : node) (ps : list path) (p : path) (rewritten : node)
           (st : Formatter.Heap) : Prop :=
  located ps st
  /\ lookup (Formatter.document doc st) p = Some rewritten
  /\ forall j q, nth_error (Formatter.locs st) j = Some (O, q) ->
                 is_prefix p q -> q = p.

(** The document changes at listed elements only. *)
Definition framed (doc : node) (ps : list path) (st : Formatter.Heap) : Prop :=
  located ps st
  /\ (forall q, (forall p, In p ps -> ~ is_prefix p q) ->
                option_map own_data (lookup (Formatter.document doc st) q)
                = option_map own_data (lookup doc q))
  /\ (forall q, (forall p, In p ps -> ~ is_prefix p q /\ ~ is_prefix q p) ->
                lookup (Formatter.document doc st) q = lookup doc q).

(** [a] may stand before [b] in a list sorted longest first. *)
Definition not_shorter (a b : string) : Prop :=
  (String.length b <= String.length a)%nat.

(** A replacement text in which [replace] finds no [$] pattern. *)
Definition no_dollar (s : string) : bool :=
  string_forallb (fun c => negb (Ascii.eqb c "$")) s.

(** ** Dates and numerals

    The calendar day before a date, the numerals on two and four digits,
    and the tables that check them. *)

(** The calendar day before a date. *)
Definition previous_day (y m d : Z) : Z * Z * Z :=
  if (2 <=? d)%Z then (y, m, d - 1)%Z
  else if (2 <=? m)%Z then (y, m - 1, DaysInMonth y (m - 1))%Z
  else (y - 1, 12, 31)%Z.

(** The decimal digit of [n], from 0 to 9. *)
Definition digit_char (n : Z) : ascii := ascii_of_N (48 + Z.to_N n).

(** The numeral of [n], from 0 to 99, on two digits. *)
Definition two_digits (n : Z) : string :=
  String (digit_char (n / 10)) (String (digit_char (n mod 10)) EmptyString).

(** [pad 4 y] is four digits that read [y]. *)
Definition four_digits_ok (y : Z) : bool :=
  match list_ascii_of_string (pad 4 y) with
  | [a; b; c; d] =>
      match digits_val 0 [a; b; c; d] with
      | Some v => (v =? y)%Z
      | None => false
      end
  | _ => false
  end.

(** [pad 2 n] is the two digits of [n], which read [n]. *)
Definition two_digits_ok (n : Z) : bool :=
  String.eqb (pad 2 n) (two_digits n)
  && match digits_val 0 (list_ascii_of_string (two_digits n)) with
     | Some v => (v =? n)%Z
     | None => false
     end.

(** The last two characters of the numeral of a year from 10 to 9999 are
    the two digits of the year in its century. *)
Definition short_year_ok (y : Z) : bool :=
  String.eqb (slice_last2 (Z_to_string y)) (two_digits (y mod 100)).

(** The date-only form of a year from 0 to 9999, a month and a day. *)
Definition iso_date (y m d : Z) : string :=
  pad 4 y ++ "-" ++ pad 2 m ++ "-" ++ pad 2 d.

(** The integers from 0 to [n - 1]. *)
Definition upto (n : Z) : list Z := map Z.of_nat (seq 0 (Z.to_nat n)).

(** The short year of the years 10 to 9999, and of the years 0 to 9. *)
Definition short_year_table_ok (y : Z) : bool :=
  if (y <? 10)%Z then String.eqb (slice_last2 (Z_to_string y)) (Z_to_string y)
  else short_year_ok y.

(** ** The wiring of a script *)

(** The selector that [applyDateDataAttributes] passes on. *)
Definition configured_selector (dateDataConfig : option Annotator.DateDataConfig)
  : option selector :=
  match dateDataConfig with
  | Some c => Annotator.parentSelector c
  | None => None
  end.




(** What the evaluation of the two files, one after the other, achieves
    in a page that is still loading. *)
Definition wired_in_order (h : Host)
           (first second : Page.Window -> result Page.Window)
           (f g : Page.Listener) (w : Page.Window) : Prop :=
  exists w2,
    (w1 <- first w ;; second w1) = Ok w2
    /\ Page.document w2 = Page.document w
    /\ forall w',
         Page.document_listeners w' = Page.document_listeners w2 ->
         Page.window_listeners w' = Page.window_listeners w2 ->
         Page.DOMContentLoaded h w'
         = (w1' <- Page.call h f (Page.set_readyState Page.interactive w') ;;
            Page.call h g w1')
         /\ Page.mercury_load h w' = (w1' <- Page.call h f w' ;; Page.call h g w1').

(** ** The markup written out

    What the rewritten element is to hold, said without the code: the
    markup of a span as a string, the class name of each code, the markup
    of a template, and the tree of which that markup is the
    serialization. *)

(** The double quote of an attribute value. *)
Definition quote : string := String (ascii_of_nat 34) EmptyString.

(** The markup of a span with one class and a text. *)
Definition span_markup (cls content : string) : string :=
  "<span class=" ++ quote ++ cls ++ quote ++ ">" ++ content ++ "</span>".

(** The class name of each code. *)
Definition semantic_classes : list (string * string) :=
  [ ("YYYY", "year-full"); ("YY", "year-short");
    ("MMMM", "month-long"); ("MMM", "month-short");
    ("MM", "month-numeric"); ("M", "month-numeric");
    ("dddd", "weekday-long"); ("ddd", "weekday-short");
    ("DD", "day-numeric"); ("D", "day-numeric") ].

(** The markup of a word or a character of the template: a word that is
    a code becomes the span of its class around its value in [toks], and
    everything else stands as it is. *)
Definition markup_of_seg (toks : list (string * Formatter.Token)) (g : seg) : string :=
  match g with
  | Word w =>
      match Formatter.get w semantic_classes, Formatter.get w toks with
      | Some cls, Some t => span_markup cls (Value_to_string (Formatter.value t))
      | _, _ => w
      end
  | Sep c => String c EmptyString
  end.

Definition template_markup (toks : list (string * Formatter.Token)) (format : string)
  : string :=
  flatten (map (markup_of_seg toks) (segs format)).

(** The markup of the whole content: the template in one span of the
    wrapper class. *)
Definition wrapper_markup (toks : list (string * Formatter.Token))
           (name format : string) : string :=
  span_markup name (template_markup toks format).

(** The characters that the serialization of a text or of an attribute
    value replaces by a character reference: the ampersand, the angle
    brackets, the double quote and the no-break space. *)
Definition is_markup_char (c : ascii) : bool :=
  let n := N_of_ascii c in
  ((n =? 38) || (n =? 60) || (n =? 62) || (n =? 34) || (n =? 160))%N.

(** A string without any of them. *)
Definition plain (s : string) : bool :=
  string_forallb (fun c => negb (is_markup_char c)) s.

(** Escaping a string, for a text and for an attribute value, where the
    double quote is replaced as well. *)
Fixpoint escape (attribute : bool) (s : string) : string :=
  match s with
  | EmptyString => EmptyString
  | String c r =>
      let n := N_of_ascii c in
      (if (n =? 38)%N then "&amp;"
       else if (n =? 160)%N then "&nbsp;"
       else if (n =? 60)%N then "&lt;"
       else if (n =? 62)%N then "&gt;"
       else if attribute && (n =? 34)%N then "&quot;"
       else String c EmptyString) ++ escape attribute r
  end.

Definition attribute_markup (kv : string * string) : string :=
  " " ++ fst kv ++ "=" ++ quote ++ escape true (snd kv) ++ quote.

(** [node.outerHTML]: the serialization of a text node, and of an element
    that is neither void nor of raw text, as a span is. *)
Fixpoint outerHTML (n : node) : string :=
  match n with
  | Text s => escape false s
  | Element t a cs =>
      "<" ++ t ++ flatten (map attribute_markup a) ++ ">"
      ++ (fix go (l : list node) : string :=
            match l with
            | [] => EmptyString
            | c :: r => outerHTML c ++ go r
            end) cs
      ++ "</" ++ t ++ ">"
  end.

(** [el.innerHTML] of an element with the children [l]. *)
Fixpoint innerHTML (l : list node) : string :=
  match l with
  | [] => EmptyString
  | c :: r => outerHTML c ++ innerHTML r
  end.

(** The text node of a string, none for the empty string. *)
Definition text_node (s : string) : list node :=
  if String.eqb s "" then [] else [Text s].

(** The nodes of a template: the span of every word that is a code, with
    its value for text, and between the spans one text node for all that
    stands there.  [pending] is the text met since the last span. *)
Fixpoint template_nodes (toks : list (string * Formatter.Token)) (pending : string)
         (l : list seg) : list node :=
  match l with
  | [] => text_node pending
  | Sep c :: r => template_nodes toks (pending ++ String c EmptyString) r
  | Word w :: r =>
      match Formatter.get w semantic_classes, Formatter.get w toks with
      | Some cls, Some t =>
          (text_node pending
           ++ Element "span" [("class", cls)]
                      (text_node (Value_to_string (Formatter.value t)))
           :: template_nodes toks "" r)%list
      | _, _ => template_nodes toks (pending ++ w) r
      end
  end.

(** The one span of the wrapper class around them. *)
Definition wrapper_span (toks : list (string * Formatter.Token))
           (name format : string) : node :=
  Element "span" [("class", name)] (template_nodes toks "" (segs format)).

(** A tree as a parser builds it: no empty text node, and no two text
    nodes side by side. *)
Definition is_text (n : node) : bool :=
  match n with Text _ => true | Element _ _ _ => false end.

Fixpoint separated (after_text : bool) (l : list node) : bool :=
  match l with
  | [] => true
  | c :: r => negb (after_text && is_text c) && separated (is_text c) r
  end.

Fixpoint normal (n : node) : bool :=
  match n with
  | Text s => negb (String.eqb s "")
  | Element _ _ cs =>
      separated false cs
      && (fix all (l : list node) : bool :=
            match l with
            | [] => true
            | c :: r => normal c && all r
            end) cs
  end.

Definition all_normal (l : list node) : bool := forallb normal l.

(** The documents, selectors and hosts of the examples. *)
Module Examples.

Definition utc : Host := SampleHost.host 0.
Definition new_york : Host := SampleHost.host (-5 * SampleHost.hour).
Definition berlin : Host := SampleHost.host (1 * SampleHost.hour).

(** [<div class="post-date"><time ...>text</time></div>] *)
Definition post (time_attributes : list (string * string)) (text : string) : node :=
  Element "div" [("class", "post-date")]
          [Element "time" time_attributes [Text text]].

(** [.post-date] and [.post-date time] *)
Definition post_date : selector := [Compound [Class "post-date"]].
Definition post_date_time : selector :=
  [Descendant (Compound [Class "post-date"]) [Tag "time"]].

(** [[data-date] p, div] *)
Definition annotated_p_or_div : selector :=
  [Descendant (Compound [HasAttr "data-date"]) [Tag "p"]; Compound [Tag "div"]].

(** [<div><p><time datetime="2025-12-09"></time></p></div>] *)
Definition time_in_p : node :=
  Element "div" []
          [Element "p" [] [Element "time" [("datetime", "2025-12-09")] []]].

(** Two time elements under one [.post-date] element. *)
Definition two_posts : node :=
  Element "div" [("class", "post-date")]
          [Element "time" [("datetime", "2025-12-09")] [];
           Element "p" [] [Element "time" [] [Text "2026-01-02"]]].

Definition pretty_date : Formatter.Config :=
  {| Formatter.selector := post_date_time;
     Formatter.name := "pretty-date";
     Formatter.format := "dddd, MMMM D, YYYY" |}.

End Examples.

(** [p, .post-date] *)
Definition p_or_post_date : selector :=
  [Compound [Tag "p"]; Compound [Class "post-date"]].

(** Three time elements: under [p, .post-date] the first two share the
    [.post-date] element as their target, and the target of the third is
    the paragraph. *)
Definition three_times : node :=
  Element "div" [("class", "post-date")]
          [Element "time" [("datetime", "2025-12-09")] [];
           Element "time" [] [Text "2026-01-02"];
           Element "p" [] [Element "time" [("datetime", "2024-05-05")] []]].

(** The pages of the examples. *)
Module Pages.

Definition page (r : Page.ReadyState) : Page.Window :=
  {| Page.readyState := r;
     Page.document := Examples.post [] "December 9, 2025";
     Page.dateDataConfig :=
       Some {| Annotator.parentSelector := Some Examples.post_date |};
     Page.dateFormats := Formatter.ArrayOf [Formatter.record Examples.pretty_date];
     Page.document_listeners := [];
     Page.window_listeners := [];
     Page.exposed := [];
     Page.reported := [] |}.

(** A page whose [dateFormats] is [[null]]. *)
Definition null_member (r : Page.ReadyState) : Page.Window :=
  {| Page.readyState := r;
     Page.document := Examples.post [] "December 9, 2025";
     Page.dateDataConfig := None;
     Page.dateFormats := Formatter.ArrayOf [Formatter.Nullish];
     Page.document_listeners := [];
     Page.window_listeners := [];
     Page.exposed := [];
     Page.reported := [] |}.

End Pages.

(* ================================================================== *)
(** * Properties of the host and of the tree *)
(* ================================================================== *)

(** ** Loops and exceptions *)

Lemma forEach_app {A S : Type} (f : S -> A -> result S) (l1 l2 : list A) (s : S) :
  forEach f (l1 ++ l2)%list s = (s' <- forEach f l1 s ;; forEach f l2 s').
Proof.
  revert s; induction l1 as [|x l1 IH]; intros s; simpl; [reflexivity|].
  destruct (f s x) as [s'|e]; simpl; [apply IH|reflexivity].
Qed.

(** A loop whose callback never throws never throws, and is a fold. *)
Lemma forEach_total {A S : Type} (f : S -> A -> result S) (g : S -> A -> S) :
  (forall s x, f s x = Ok (g s x)) ->
  forall l s, forEach f l s = Ok (fold_left g l s).
Proof.
  intros Hf l; induction l as [|x l IH]; intros s; simpl; [reflexivity|].
  rewrite Hf; simpl; apply IH.
Qed.

(** A loop keeps an invariant that its callback keeps. *)
Lemma forEach_invariant {A S : Type} (f : S -> A -> result S) (P : S -> Prop) :
  (forall s x, P s -> exists s', f s x = Ok s' /\ P s') ->
  forall l s, P s -> exists s', forEach f l s = Ok s' /\ P s'.
Proof.
  intros Hf l; induction l as [|x l IH]; intros s Hs; simpl.
  - exists s; split; [reflexivity|assumption].
  - destruct (Hf s x Hs) as [s1 [E1 H1]]; rewrite E1; simpl; apply IH, H1.
Qed.

(** ** The calendar

    [YearFromDay] computes what ECMAScript defines as the largest year
    that starts on or before the day. *)

Open Scope Z_scope.

Lemma div_step (y k n : Z) :
  0 < n -> (k mod n = 0) ->
  (y + 1 - (k + 1)) / n = (y - (k + 1)) / n + (if y mod n =? 0 then 1 else 0).
Proof.
  intros Hn Hk.
  destruct (Z.eqb_spec (y mod n) 0) as [E|E].
  - assert (Hy : (y - k) mod n = 0).
    { rewrite Zminus_mod, E, Hk. reflexivity. }
    apply Z.mod_divide in Hy; [|lia]. destruct Hy as [q Hq].
    replace (y + 1 - (k + 1)) with (q * n) by lia.
    replace (y - (k + 1)) with (q * n + (-1)) by lia.
    rewrite Z.div_mul by lia.
    rewrite Z.div_add_l by lia.
    assert (-1 / n = -1); [|lia].
    symmetry. apply Z.div_unique with (r := n - 1); lia.
  - assert (Hy : (y - k) mod n <> 0).
    { intros H. apply E. 
      replace y with ((y - k) + k) by lia. rewrite Zplus_mod, H, Hk. reflexivity. }
    replace (y + 1 - (k + 1)) with (y - k) by lia.
    replace (y - (k + 1)) with ((y - k) - 1) by lia.
    generalize dependent (y - k). intros x Hx.
    rewrite Z.add_0_r.
    pose proof (Z.div_mod x n ltac:(lia)) as D.
    pose proof (Z.mod_pos_bound x n Hn) as B.
    apply Z.div_unique with (r := x mod n - 1); lia.
Qed.

Lemma DayFromYear_succ (y : Z) : DayFromYear (y + 1) = DayFromYear y + DaysInYear y.
Proof.
  unfold DayFromYear, DaysInYear.
  pose proof (div_step y 1968 4 ltac:(lia) eq_refl) as H4.
  pose proof (div_step y 1900 100 ltac:(lia) eq_refl) as H100.
  pose proof (div_step y 1600 400 ltac:(lia) eq_refl) as H400.
  simpl Z.add in H4, H100, H400. rewrite H4, H100, H400.
  assert (M1 : y mod 100 = 0 -> y mod 4 = 0).
  { intros H. apply Z.mod_divide in H; [|lia]. destruct H as [q ->].
    replace (q * 100) with ((q * 25) * 4) by lia. apply Z.mod_mul. lia. }
  assert (M2 : y mod 400 = 0 -> y mod 100 = 0).
  { intros H. apply Z.mod_divide in H; [|lia]. destruct H as [q ->].
    replace (q * 400) with ((q * 4) * 100) by lia. apply Z.mod_mul. lia. }
  destruct (Z.eqb_spec (y mod 4) 0); destruct (Z.eqb_spec (y mod 100) 0);
    destruct (Z.eqb_spec (y mod 400) 0); cbn [negb]; try lia; tauto.
Qed.

Lemma DaysInYear_bounds (y : Z) : 365 <= DaysInYear y <= 366.
Proof.
  unfold DaysInYear.
  destruct (negb (y mod 4 =? 0)), (negb (y mod 100 =? 0)), (negb (y mod 400 =? 0)); lia.
Qed.

Lemma YearFromDay_spec (d : Z) :
  DayFromYear (YearFromDay d) <= d < DayFromYear (YearFromDay d + 1).
Proof.
  unfold YearFromDay.
  set (y := 1970 + d * 400 / 146097).
  assert (Hy : 146097 * (y - 1970) <= d * 400 < 146097 * (y - 1970) + 146097).
  { subst y. pose proof (Z.div_mod (d * 400) 146097 ltac:(lia)).
    pose proof (Z.mod_pos_bound (d * 400) 146097 ltac:(lia)). lia. }
  assert (B : forall z, 400 * DayFromYear z <= 146097 * (z - 1970) + 400 * 2
                        /\ 146097 * (z - 1970) - 400 * 2 <= 400 * DayFromYear z).
  { intros z. unfold DayFromYear. Z.to_euclidean_division_equations. lia. }
  pose proof (DayFromYear_succ y) as S1.
  pose proof (DayFromYear_succ (y - 1)) as S0.
  pose proof (DayFromYear_succ (y + 1)) as S2.
  replace (y - 1 + 1) with y in * by lia.
  pose proof (DaysInYear_bounds y). pose proof (DaysInYear_bounds (y - 1)).
  pose proof (DaysInYear_bounds (y + 1)).
  pose proof (B y). pose proof (B (y - 1)). pose proof (B (y + 1)).
  pose proof (B (y + 1 + 1)).
  destruct (Z.ltb_spec d (DayFromYear y)).
  - replace (y - 1 + 1) with y by lia. lia.
  - destruct (Z.leb_spec (DayFromYear (y + 1)) d); lia.
Qed.

Lemma DayFromYear_le (y n : Z) : 0 <= n -> DayFromYear y + 365 * n <= DayFromYear (y + n).
Proof.
  intros Hn. pattern n. apply natlike_ind; [| |exact Hn]; cbv beta.
  - replace (y + 0) with y by lia. lia.
  - intros k Hk IH. replace (y + Z.succ k) with (y + k + 1) by lia.
    rewrite DayFromYear_succ. pose proof (DaysInYear_bounds (y + k)). lia.
Qed.

(** The year of a day is the only one that holds it. *)
Lemma YearFromDay_unique (d y : Z) :
  DayFromYear y <= d < DayFromYear (y + 1) -> YearFromDay d = y.
Proof.
  intros H. pose proof (YearFromDay_spec d) as S.
  set (y' := YearFromDay d) in *.
  destruct (Z.lt_trichotomy y y') as [Hlt|[E|Hgt]]; [|auto|].
  - pose proof (DayFromYear_le (y + 1) (y' - (y + 1)) ltac:(lia)) as L.
    replace (y + 1 + (y' - (y + 1))) with y' in L by lia. lia.
  - pose proof (DayFromYear_le (y' + 1) (y - (y' + 1)) ltac:(lia)) as L.
    replace (y' + 1 + (y - (y' + 1))) with y in L by lia. lia.
Qed.

Lemma Day_MakeDate (day rem : Z) :
  0 <= rem < msPerDay -> Day (MakeDate day rem) = day.
Proof.
  intros H. unfold Day, MakeDate. symmetry.
  apply Z.div_unique with (r := rem); [left; exact H | lia].
Qed.

Lemma month_start_cases (leap m : Z) :
  1 <= m <= 12 ->
  exists a b, month_start leap (m - 1) = a /\ month_start leap m = b
              /\ ((m = 1 /\ a = 0 /\ b = 31)
                  \/ (m = 2 /\ a = 31 /\ b = 59 + leap)
                  \/ (m = 3 /\ a = 59 + leap /\ b = 90 + leap)
                  \/ (m = 4 /\ a = 90 + leap /\ b = 120 + leap)
                  \/ (m = 5 /\ a = 120 + leap /\ b = 151 + leap)
                  \/ (m = 6 /\ a = 151 + leap /\ b = 181 + leap)
                  \/ (m = 7 /\ a = 181 + leap /\ b = 212 + leap)
                  \/ (m = 8 /\ a = 212 + leap /\ b = 243 + leap)
                  \/ (m = 9 /\ a = 243 + leap /\ b = 273 + leap)
                  \/ (m = 10 /\ a = 273 + leap /\ b = 304 + leap)
                  \/ (m = 11 /\ a = 304 + leap /\ b = 334 + leap)
                  \/ (m = 12 /\ a = 334 + leap /\ b = 365 + leap)).
Proof.
  intros H. exists (month_start leap (m - 1)), (month_start leap m).
  split; [reflexivity|]. split; [reflexivity|].
  assert (Cases : m = 1 \/ m = 2 \/ m = 3 \/ m = 4 \/ m = 5 \/ m = 6 \/ m = 7
                  \/ m = 8 \/ m = 9 \/ m = 10 \/ m = 11 \/ m = 12) by lia.
  repeat (destruct Cases as [->|Cases]; [tauto|]). subst m. tauto.
Qed.

Lemma MakeDay_month (y m d : Z) :
  1 <= m <= 12 ->
  MakeDay y (m - 1) d
  = DayFromYear y + month_start (if DaysInYear y =? 366 then 1 else 0) (m - 1)
    + d - 1.
Proof.
  intros H. unfold MakeDay.
  rewrite (Z.div_small (m - 1) 12), (Z.mod_small (m - 1) 12), Z.add_0_r by lia.
  reflexivity.
Qed.

(** The fields of the day that [MakeDay] makes of a legal date are that
    date. *)
Lemma fields_of_MakeDay (y m d rem : Z) :
  legal_date y m d = true -> 0 <= rem < msPerDay ->
  YearFromTime (MakeDate (MakeDay y (m - 1) d) rem) = y
  /\ MonthFromTime (MakeDate (MakeDay y (m - 1) d) rem) = m - 1
  /\ DateFromTime (MakeDate (MakeDay y (m - 1) d) rem) = d.
Proof.
  intros Hl Hr. unfold legal_date in Hl.
  apply andb_true_iff in Hl. destruct Hl as [Hl H4].
  apply andb_true_iff in Hl. destruct Hl as [Hl H3].
  apply andb_true_iff in Hl. destruct Hl as [H1 H2].
  apply Z.leb_le in H1, H2, H3, H4.
  set (t := MakeDate (MakeDay y (m - 1) d) rem).
  assert (Hday : Day t = MakeDay y (m - 1) d) by (apply Day_MakeDate, Hr).
  pose proof (DaysInYear_bounds y) as By.
  assert (Hleap : DaysInYear y = 365 + (if DaysInYear y =? 366 then 1 else 0)).
  { destruct (Z.eqb_spec (DaysInYear y) 366); lia. }
  pose proof (MakeDay_month y m d (conj H1 H2)) as Emk.
  unfold DaysInMonth in H4.
  set (leap := if DaysInYear y =? 366 then 1 else 0) in *.
  assert (Bl : 0 <= leap <= 1) by (subst leap; destruct (DaysInYear y =? 366); lia).
  destruct (month_start_cases leap m (conj H1 H2)) as [a [b [Ea [Eb Cases]]]].
  rewrite Ea in Emk. rewrite Ea, Eb in H4.
  assert (Hyear : YearFromTime t = y).
  { unfold YearFromTime. rewrite Hday, Emk. apply YearFromDay_unique.
    rewrite DayFromYear_succ, Hleap. lia. }
  split; [exact Hyear|].
  assert (Hin : InLeapYear t = leap) by (unfold InLeapYear; rewrite Hyear; reflexivity).
  assert (Hdw : DayWithinYear t = a + d - 1).
  { unfold DayWithinYear. rewrite Hyear, Hday, Emk. lia. }
  assert (Hmonth : MonthFromTime t = m - 1).
  { unfold MonthFromTime. rewrite Hdw, Hin. cbn [month_start].
    repeat match goal with
           | |- context [if (?x <? ?z) then _ else _] => destruct (Z.ltb_spec x z)
           end; lia. }
  split; [exact Hmonth|].
  unfold DateFromTime. rewrite Hdw, Hin, Hmonth, Ea. lia.
Qed.

Lemma DayFromYear_estimate (z : Z) :
  146097 * (z - 1970) - 800 <= 400 * DayFromYear z <= 146097 * (z - 1970) + 800.
Proof. unfold DayFromYear. Z.to_euclidean_division_equations. lia. Qed.

Lemma digit_val_range (c : ascii) : is_digit c = true -> 0 <= digit_val c <= 9.
Proof.
  unfold is_digit, digit_val. intros H. apply andb_true_iff in H.
  destruct H as [H1 H2]. apply N.leb_le in H1, H2. lia.
Qed.

Lemma digits_val_range (l : list ascii) (acc v : Z) :
  digits_val acc l = Some v ->
  0 <= acc ->
  acc * 10 ^ Z.of_nat (List.length l) <= v
  < (acc + 1) * 10 ^ Z.of_nat (List.length l).
Proof.
  revert acc; induction l as [|c l IH]; intros acc H Hacc.
  - simpl in *. injection H as <-. lia.
  - cbn [digits_val] in H. destruct (is_digit c) eqn:Ec; [|discriminate].
    pose proof (digit_val_range c Ec) as Hc.
    specialize (IH _ H ltac:(lia)).
    replace (Z.of_nat (List.length (c :: l))) with (Z.succ (Z.of_nat (List.length l)))
      by (simpl List.length; lia).
    rewrite Z.pow_succ_r by lia.
    assert (0 < 10 ^ Z.of_nat (List.length l)) by (apply Z.pow_pos_nonneg; lia).
    nia.
Qed.

(** The year of a date-only string has four digits. *)
Lemma parse_iso_date_year (s : string) (y m d : Z) :
  parse_iso_date s = Some (y, m, d) -> 0 <= y <= 9999.
Proof.
  unfold parse_iso_date.
  destruct (list_ascii_of_string s) as [|y1 [|y2 [|y3 [|y4 [|s1 [|m1 [|m2 [|s2 [|d1 [|d2 [|]]]]]]]]]]];
    try discriminate.
  destruct (Ascii.eqb s1 "-" && Ascii.eqb s2 "-"); [|discriminate].
  destruct (digits_val 0 [y1; y2; y3; y4]) as [yv|] eqn:Ey; [|discriminate].
  destruct (digits_val 0 [m1; m2]); [|discriminate].
  destruct (digits_val 0 [d1; d2]); [|discriminate].
  intros H. injection H as <- _ _.
  pose proof (digits_val_range _ _ _ Ey ltac:(lia)) as R.
  simpl in R. lia.
Qed.

(** A legal date-only string is midnight UTC of its day. *)
Lemma new_Date_iso (h : Host) (s : string) (y m d : Z) :
  parse_iso_date s = Some (y, m, d) -> legal_date y m d = true ->
  new_Date h s = Num (MakeDate (MakeDay y (m - 1) d) 0).
Proof.
  intros Hp Hl. unfold new_Date, Date_parse. rewrite Hp, Hl.
  pose proof (parse_iso_date_year s y m d Hp) as Hy.
  unfold TimeClip.
  destruct (Z.leb_spec (Z.abs (MakeDate (MakeDay y (m - 1) d) 0)) 8640000000000000)
    as [_|Hbig]; [reflexivity|exfalso].
  unfold legal_date in Hl.
  apply andb_true_iff in Hl. destruct Hl as [Hl H4].
  apply andb_true_iff in Hl. destruct Hl as [Hl H3].
  apply andb_true_iff in Hl. destruct Hl as [H1 H2].
  apply Z.leb_le in H1, H2, H3, H4.
  unfold DaysInMonth in H4. unfold MakeDate, msPerDay in Hbig.
  rewrite (MakeDay_month y m d (conj H1 H2)) in Hbig.
  set (leap := if DaysInYear y =? 366 then 1 else 0) in *.
  assert (Bl : 0 <= leap <= 1) by (subst leap; destruct (DaysInYear y =? 366); lia).
  destruct (month_start_cases leap m (conj H1 H2)) as [a [b [Ea [Eb Cases]]]].
  rewrite Ea in Hbig. rewrite Ea, Eb in H4.
  pose proof (DayFromYear_estimate y). lia.
Qed.

Close Scope Z_scope.

(** ** Numerals *)

Lemma string_of_uint_chars (d : Decimal.uint) :
  string_forallb is_num_char (NilEmpty.string_of_uint d) = true.
Proof. induction d; simpl; auto. Qed.

(** The decimal numeral of an integer is made of digits and a sign. *)
Lemma Z_to_string_chars (z : Z) : string_forallb is_num_char (Z_to_string z) = true.
Proof.
  unfold Z_to_string. destruct (Z.to_int z) as [d|d]; simpl.
  - destruct d; try apply (string_of_uint_chars (_ _)); reflexivity.
  - destruct d; try apply (string_of_uint_chars (_ _)); reflexivity.
Qed.

Lemma string_forallb_app (f : ascii -> bool) (a b : string) :
  string_forallb f (a ++ b) = string_forallb f a && string_forallb f b.
Proof.
  induction a as [|c a IH]; simpl; [reflexivity|].
  rewrite IH, andb_assoc. reflexivity.
Qed.

Lemma string_forallb_substring (f : ascii -> bool) (s : string) (n m : nat) :
  string_forallb f s = true -> string_forallb f (substring n m s) = true.
Proof.
  revert n m; induction s as [|c r IH]; intros n m H.
  - destruct n, m; reflexivity.
  - simpl in H. apply andb_true_iff in H. destruct H as [Hc Hr].
    destruct n as [|n]; simpl.
    + destruct m as [|m]; [reflexivity|]. simpl. rewrite Hc. apply IH, Hr.
    + apply IH, Hr.
Qed.

Lemma string_forallb_repeat (f : ascii -> bool) (c : ascii) (n : nat) :
  f c = true -> string_forallb f (repeat_char c n) = true.
Proof. intros H; induction n; simpl; [reflexivity | rewrite H; exact IHn]. Qed.

Lemma Z_to_string_first (z : Z) :
  exists c r, Z_to_string z = String c r /\ is_num_char c = true.
Proof.
  pose proof (Z_to_string_chars z) as H.
  assert (Hne : Z_to_string z <> "").
  { unfold Z_to_string. destruct (Z.to_int z) as [d|d]; simpl; [|discriminate].
    destruct d; discriminate. }
  destruct (Z_to_string z) as [|c r]; [contradiction|].
  simpl in H. apply andb_true_iff in H. destruct H as [Hc _]. eauto.
Qed.

(** The date part of [toISOString] is never empty. *)
Lemma iso_date_not_empty (t : Z) : split_T_first (iso_string t) <> "".
Proof.
  unfold iso_string.
  assert (H : exists c r, iso_year (YearFromTime t) = String c r
                          /\ Ascii.eqb c "T" = false).
  { unfold iso_year.
    destruct ((0 <=? YearFromTime t) && (YearFromTime t <=? 9999))%Z.
    - unfold pad, padStart0.
      destruct (4 - String.length (Z_to_string (YearFromTime t)))%nat as [|k].
      + destruct (Z_to_string_first (YearFromTime t)) as [c [r [E Hc]]].
        exists c, r. split; [exact E|].
        destruct (Ascii.eqb_spec c "T") as [->|]; [discriminate Hc | reflexivity].
      + simpl. eauto.
    - destruct (YearFromTime t <? 0)%Z; simpl; eauto. }
  destruct H as [c [r [E Hc]]]. rewrite E. simpl. rewrite Hc. discriminate.
Qed.

(** ** Paths and [closest] *)

Lemma is_prefix_refl (p : path) : is_prefix p p.
Proof. exists []; symmetry; apply app_nil_r. Qed.

Lemma is_prefix_nil (p : path) : is_prefix [] p.
Proof. exists p; reflexivity. Qed.

Lemma is_prefix_length (q p : path) :
  is_prefix q p -> (List.length q <= List.length p)%nat.
Proof. intros [r ->]; rewrite length_app; lia. Qed.

(** A prefix of [p ++ [a]] is the whole of it or a prefix of [p]. *)
Lemma is_prefix_snoc (q p : path) (a : nat) :
  is_prefix q (p ++ [a])%list -> q = (p ++ [a])%list \/ is_prefix q p.
Proof.
  intros [r E].
  destruct r as [|x r0].
  - left; rewrite app_nil_r in E; symmetry; exact E.
  - assert (Hne : x :: r0 <> []) by discriminate.
    destruct (exists_last Hne) as [r' [b Eb]].
    rewrite Eb, app_assoc in E. apply app_inj_tail in E.
    right; exists r'; apply E.
Qed.

Section ClosestFacts.
Variables (s : selector) (doc : node).

Lemma closest_rev_spec (rp : list nat) :
  match closest_rev s doc rp with
  | Some q =>
      is_prefix q (rev rp) /\ matches s doc q = true
      /\ forall q', is_prefix q' (rev rp) ->
                    (List.length q < List.length q')%nat ->
                    matches s doc q' = false
  | None => forall q', is_prefix q' (rev rp) -> matches s doc q' = false
  end.
Proof.
  induction rp as [|a up IH].
  - simpl. destruct (matches s doc []) eqn:E.
    + split; [apply is_prefix_refl|]. split; [exact E|].
      intros q' Hq Hl. apply is_prefix_length in Hq. simpl in *; lia.
    + intros q' [r Hr]. symmetry in Hr. apply app_eq_nil in Hr.
      destruct Hr as [-> _]. exact E.
  - cbn [closest_rev]. destruct (matches s doc (rev (a :: up))) eqn:E.
    + split; [apply is_prefix_refl|]. split; [exact E|].
      intros q' Hq Hl. apply is_prefix_length in Hq. lia.
    + simpl rev in *.
      destruct (closest_rev s doc up) as [q|].
      * destruct IH as [Hp [Hm Hn]].
        split; [|split; [exact Hm|]].
        { destruct Hp as [r ->]. exists (r ++ [a])%list. symmetry; apply app_assoc. }
        intros q' Hq Hl. apply is_prefix_snoc in Hq.
        destruct Hq as [-> | Hq]; [exact E | apply Hn; assumption].
      * intros q' Hq. apply is_prefix_snoc in Hq.
        destruct Hq as [-> | Hq]; [exact E | apply IH; assumption].
Qed.

(** [closest] returns the nearest of the element and its ancestors that
    matches ... *)
Lemma closest_Some (p q : path) :
  closest s doc p = Some q -> nearest_match s doc p q.
Proof.
  unfold closest; intros E.
  generalize (closest_rev_spec (rev p)); rewrite E, rev_involutive; auto.
Qed.

(** ... and nothing when none of them does. *)
Lemma closest_None (p : path) :
  closest s doc p = None -> no_match s doc p.
Proof.
  unfold closest; intros E.
  generalize (closest_rev_spec (rev p)); rewrite E, rev_involutive; auto.
Qed.

(** The element itself is the first candidate. *)
Lemma closest_self (p : path) :
  matches s doc p = true -> closest s doc p = Some p.
Proof.
  unfold closest; intros E.
  destruct (rev p) as [|a up] eqn:Er; cbn [closest_rev];
    rewrite <- Er, rev_involutive, E; reflexivity.
Qed.

End ClosestFacts.

(** ** Reading a tree after an update *)

Lemma nth_error_alter_nth_same {A : Type} (g : A -> A) (i : nat) (l : list A) :
  nth_error (alter_nth g i l) i = option_map g (nth_error l i).
Proof.
  revert i; induction l as [|x l IH]; intros [|i]; simpl; auto.
Qed.

Lemma nth_error_alter_nth_other {A : Type} (g : A -> A) (i j : nat) (l : list A) :
  i <> j -> nth_error (alter_nth g i l) j = nth_error l j.
Proof.
  revert i j; induction l as [|x l IH]; intros [|i] [|j] H; simpl; auto.
  contradiction.
Qed.

Lemma length_alter_nth {A : Type} (g : A -> A) (i : nat) (l : list A) :
  List.length (alter_nth g i l) = List.length l.
Proof.
  revert i; induction l as [|x l IH]; intros [|i]; simpl; auto.
Qed.

Lemma is_prefix_cons (i : nat) (p q : path) :
  is_prefix (i :: p) (i :: q) <-> is_prefix p q.
Proof.
  split; intros [r E]; exists r.
  - simpl in E; congruence.
  - simpl; congruence.
Qed.

Lemma is_prefix_cons_inv (i j : nat) (p q : path) :
  is_prefix (i :: p) (j :: q) -> i = j.
Proof. intros [r E]; simpl in E; congruence. Qed.

(** The node at the updated path. *)
Lemma lookup_update_same (f : node -> node) (n : node) (p : path) (el : node) :
  lookup n p = Some el -> lookup (update f n p) p = Some (f el).
Proof.
  revert n; induction p as [|i p IH]; intros n H; simpl in *.
  - congruence.
  - destruct n as [s|t a cs]; simpl in *.
    + destruct i; discriminate.
    + rewrite nth_error_alter_nth_same.
      destruct (nth_error cs i) as [c|]; [simpl; apply IH, H | discriminate].
Qed.

(** An update at [p] leaves the nodes beside [p] as they are ... *)
Lemma lookup_update_beside (f : node -> node) (n : node) (p q : path) :
  ~ is_prefix p q -> ~ is_prefix q p ->
  lookup (update f n p) q = lookup n q.
Proof.
  revert n q; induction p as [|i p IH]; intros n q Hpq Hqp.
  - exfalso; apply Hpq, is_prefix_nil.
  - destruct q as [|j q]; [exfalso; apply Hqp, is_prefix_nil|].
    destruct n as [s|t a cs]; [reflexivity|]. simpl.
    destruct (Nat.eq_dec i j) as [->|Hij].
    + rewrite nth_error_alter_nth_same.
      destruct (nth_error cs j) as [c|]; [simpl|reflexivity].
      apply IH; rewrite <- (is_prefix_cons j); assumption.
    + rewrite nth_error_alter_nth_other by assumption. reflexivity.
Qed.

(** ... and every node that is not at or below [p], the ancestors of [p]
    among them, with its own name and attributes. *)
Lemma lookup_update_outside (f : node -> node) (n : node) (p q : path) :
  ~ is_prefix p q ->
  option_map own_data (lookup (update f n p) q) = option_map own_data (lookup n q).
Proof.
  revert n q; induction p as [|i p IH]; intros n q Hpq.
  - exfalso; apply Hpq, is_prefix_nil.
  - destruct n as [s|t a cs]; [reflexivity|].
    destruct q as [|j q]; [reflexivity|]. simpl.
    destruct (Nat.eq_dec i j) as [->|Hij].
    + rewrite nth_error_alter_nth_same.
      destruct (nth_error cs j) as [c|]; [simpl|reflexivity].
      apply IH; rewrite <- (is_prefix_cons j); assumption.
    + rewrite nth_error_alter_nth_other by assumption. reflexivity.
Qed.

Lemma assoc_set_assoc_other (k name value : string) (l : list (string * string)) :
  k <> name -> assoc k (set_assoc name value l) = assoc k l.
Proof.
  intros Hk; induction l as [|[k' v'] l IH]; simpl.
  - destruct (String.eqb_spec name k); [congruence|reflexivity].
  - destruct (String.eqb_spec k' name) as [->|Hn]; simpl.
    + destruct (String.eqb_spec name k); [congruence|reflexivity].
    + destruct (String.eqb_spec k' k); [reflexivity|exact IH].
Qed.

Lemma assoc_set_assoc_same (name value : string) (l : list (string * string)) :
  assoc name (set_assoc name value l) = Some value.
Proof.
  induction l as [|[k' v'] l IH]; simpl.
  - rewrite String.eqb_refl; reflexivity.
  - destruct (String.eqb_spec k' name) as [->|Hn]; simpl.
    + rewrite String.eqb_refl; reflexivity.
    + destruct (String.eqb_spec k' name); [contradiction|exact IH].
Qed.

(** ** Updates *)

Lemma alter_nth_ext {A : Type} (f g : A -> A) (i : nat) (l : list A) :
  (forall x, f x = g x) -> alter_nth f i l = alter_nth g i l.
Proof.
  intros H; revert i; induction l as [|x l IH]; intros [|i]; simpl; auto.
  - rewrite H; reflexivity.
  - rewrite IH; reflexivity.
Qed.

Lemma alter_nth_compose {A : Type} (f g : A -> A) (i : nat) (l : list A) :
  alter_nth f i (alter_nth g i l) = alter_nth (fun x => f (g x)) i l.
Proof.
  revert i; induction l as [|x l IH]; intros [|i]; simpl; auto.
  rewrite IH; reflexivity.
Qed.

Lemma alter_nth_commute {A : Type} (f g : A -> A) (i j : nat) (l : list A) :
  i <> j -> alter_nth f i (alter_nth g j l) = alter_nth g j (alter_nth f i l).
Proof.
  revert i j; induction l as [|x l IH]; intros [|i] [|j] H; simpl; auto.
  - contradiction.
  - rewrite IH by congruence. reflexivity.
Qed.

Lemma update_ext (f g : node -> node) (n : node) (p : path) :
  (forall x, f x = g x) -> update f n p = update g n p.
Proof.
  intros H; revert n; induction p as [|i p IH]; intros n; simpl; [apply H|].
  destruct n as [s|t a cs]; [reflexivity|]. f_equal.
  apply alter_nth_ext. intros c. apply IH.
Qed.

(** Two updates of the same element are one. *)
Lemma update_update_same (f g : node -> node) (n : node) (p : path) :
  update f (update g n p) p = update (fun x => f (g x)) n p.
Proof.
  revert n; induction p as [|i p IH]; intros n; simpl; [reflexivity|].
  destruct n as [s|t a cs]; [reflexivity|]. f_equal.
  rewrite alter_nth_compose. apply alter_nth_ext. intros c. apply IH.
Qed.

(** Changes of the attributes of two different elements commute. *)
Lemma update_attrs_commute (F G : list (string * string) -> list (string * string))
      (n : node) (p q : path) :
  p <> q ->
  update (map_attrs F) (update (map_attrs G) n q) p
  = update (map_attrs G) (update (map_attrs F) n p) q.
Proof.
  revert n q; induction p as [|i p IH]; intros n [|j q] H.
  - contradiction.
  - destruct n as [s|t a cs]; reflexivity.
  - destruct n as [s|t a cs]; reflexivity.
  - destruct n as [s|t a cs]; [reflexivity|]. simpl. f_equal.
    destruct (Nat.eq_dec i j) as [->|Hij].
    + rewrite !alter_nth_compose. apply alter_nth_ext. intros c.
      apply IH. congruence.
    + apply alter_nth_commute. exact Hij.
Qed.

(** ** Setting attributes *)

Lemma sets_cons_out (kvs : list (string * string)) (k v : string)
      (r : list (string * string)) :
  assoc k kvs = None -> sets kvs ((k, v) :: r) = (k, v) :: sets kvs r.
Proof.
  revert r; induction kvs as [|[k1 v1] kvs IH]; intros r H; [reflexivity|].
  simpl in H. destruct (String.eqb_spec k1 k) as [E|E]; [discriminate|].
  unfold sets in *. cbn [fold_left fst snd set_assoc].
  destruct (String.eqb_spec k k1) as [E'|_]; [congruence|].
  apply IH, H.
Qed.

Lemma assoc_None_remove_key (k : string) (kvs : list (string * string)) :
  assoc k kvs = None -> remove_key k kvs = kvs.
Proof.
  induction kvs as [|[k1 v1] kvs IH]; [reflexivity|]. simpl.
  destruct (String.eqb_spec k1 k); [discriminate|]. intros H. simpl.
  rewrite (IH H). reflexivity.
Qed.

Lemma assoc_In (k : string) (kvs : list (string * string)) :
  assoc k kvs = None <-> ~ In k (map fst kvs).
Proof.
  induction kvs as [|[k1 v1] kvs IH]; simpl; [tauto|].
  destruct (String.eqb_spec k1 k); [split; [discriminate|tauto]|].
  rewrite IH. tauto.
Qed.

Lemma sets_cons_in (kvs : list (string * string)) (k v v' : string)
      (r : list (string * string)) :
  NoDup (map fst kvs) -> assoc k kvs = Some v' ->
  sets kvs ((k, v) :: r) = (k, v') :: sets (remove_key k kvs) r.
Proof.
  revert v r; induction kvs as [|[k1 v1] kvs IH]; intros v r Hnd H; [discriminate|].
  simpl in H, Hnd. inversion Hnd as [|? ? Hnotin Hnd']; subst.
  unfold sets in *. cbn [fold_left fst snd set_assoc remove_key filter].
  destruct (String.eqb_spec k1 k) as [->|E].
  - injection H as <-. rewrite String.eqb_refl. cbn [negb].
    fold (remove_key k kvs). apply assoc_In in Hnotin.
    rewrite (assoc_None_remove_key _ _ Hnotin).
    apply (sets_cons_out kvs k v1 r Hnotin).
  - destruct (String.eqb_spec k k1) as [E'|_]; [congruence|]. cbn [negb fold_left fst snd].
    apply IH; assumption.
Qed.

Lemma sets_nil_same_keys (kvs1 kvs2 : list (string * string)) :
  map fst kvs1 = map fst kvs2 -> NoDup (map fst kvs2) -> sets kvs2 kvs1 = kvs2.
Proof.
  revert kvs2; induction kvs1 as [|[k v1] kvs1 IH]; intros [|[k2 v2] kvs2] E Hnd;
    try discriminate; [reflexivity|].
  simpl in E. injection E as -> E. simpl in Hnd.
  inversion Hnd as [|? ? Hnotin Hnd']; subst.
  unfold sets. cbn [fold_left fst snd set_assoc]. rewrite String.eqb_refl.
  fold (sets kvs2 ((k2, v2) :: kvs1)).
  rewrite sets_cons_out by (apply assoc_In; exact Hnotin).
  rewrite (IH kvs2 E Hnd'). reflexivity.
Qed.

Lemma sets_nil (kvs : list (string * string)) :
  NoDup (map fst kvs) -> sets kvs [] = kvs.
Proof.
  induction kvs as [|[k v] kvs IH]; intros Hnd; [reflexivity|].
  simpl in Hnd. inversion Hnd as [|? ? Hnotin Hnd']; subst.
  unfold sets. cbn [fold_left fst snd set_assoc].
  fold (sets kvs [(k, v)]).
  rewrite sets_cons_out by (apply assoc_In; exact Hnotin).
  rewrite (IH Hnd'). reflexivity.
Qed.

Lemma map_fst_remove_key (k : string) (kvs1 kvs2 : list (string * string)) :
  map fst kvs1 = map fst kvs2 ->
  map fst (remove_key k kvs1) = map fst (remove_key k kvs2).
Proof.
  revert kvs2; induction kvs1 as [|[k1 v1] kvs1 IH]; intros [|[k2 v2] kvs2] E;
    try discriminate; [reflexivity|].
  simpl in E. injection E as -> E. simpl.
  destruct (String.eqb k2 k); simpl; [|f_equal]; apply IH, E.
Qed.

Lemma NoDup_remove_key (k : string) (kvs : list (string * string)) :
  NoDup (map fst kvs) -> NoDup (map fst (remove_key k kvs)).
Proof.
  induction kvs as [|[k1 v1] kvs IH]; intros Hnd; [constructor|].
  simpl in Hnd. inversion Hnd as [|? ? Hnotin Hnd']; subst. simpl.
  destruct (String.eqb k1 k); simpl; [apply IH, Hnd'|].
  constructor; [|apply IH, Hnd'].
  intros Hin. apply Hnotin. unfold remove_key in Hin.
  apply in_map_iff in Hin. destruct Hin as [[k' v'] [E Hin]].
  apply filter_In in Hin. apply in_map_iff. exists (k', v'). tauto.
Qed.

Lemma assoc_same_keys (k : string) (kvs1 kvs2 : list (string * string)) :
  map fst kvs1 = map fst kvs2 ->
  match assoc k kvs1, assoc k kvs2 with
  | Some _, Some _ | None, None => True
  | _, _ => False
  end.
Proof.
  revert kvs2; induction kvs1 as [|[k1 v1] kvs1 IH]; intros [|[k2 v2] kvs2] E;
    try discriminate; [exact I|].
  simpl in E. injection E as -> E. simpl.
  destruct (String.eqb k2 k); [exact I | apply IH, E].
Qed.

(** Writing the same attributes a second time, with other values, leaves
    what writing them once with those values leaves. *)
Lemma sets_absorb (a kvs1 kvs2 : list (string * string)) :
  map fst kvs1 = map fst kvs2 -> NoDup (map fst kvs1) ->
  sets kvs2 (sets kvs1 a) = sets kvs2 a.
Proof.
  revert kvs1 kvs2; induction a as [|[k v] a IH]; intros kvs1 kvs2 E Hnd.
  - rewrite (sets_nil kvs1 Hnd), sets_nil by (rewrite <- E; exact Hnd).
    apply sets_nil_same_keys; [exact E | rewrite <- E; exact Hnd].
  - assert (Hnd2 : NoDup (map fst kvs2)) by (rewrite <- E; exact Hnd).
    generalize (assoc_same_keys k kvs1 kvs2 E).
    destruct (assoc k kvs1) as [v1|] eqn:E1; destruct (assoc k kvs2) as [v2|] eqn:E2;
      try contradiction; intros _.
    + rewrite (sets_cons_in kvs1 k v v1 a Hnd E1).
      rewrite (sets_cons_in kvs2 k v1 v2 _ Hnd2 E2).
      rewrite (sets_cons_in kvs2 k v v2 a Hnd2 E2). f_equal.
      apply IH; [apply map_fst_remove_key, E | apply NoDup_remove_key, Hnd].
    + rewrite (sets_cons_out kvs1 k v a E1).
      rewrite !(sets_cons_out kvs2 k v _ E2). f_equal. apply IH; assumption.
Qed.

Lemma assoc_sets (k : string) (kvs a : list (string * string)) :
  NoDup (map fst kvs) ->
  assoc k (sets kvs a) = match assoc k kvs with
                         | Some v => Some v
                         | None => assoc k a
                         end.
Proof.
  revert a; induction kvs as [|[k1 v1] kvs IH]; intros a Hnd; [reflexivity|].
  simpl in Hnd. inversion Hnd as [|? ? Hnotin Hnd']; subst.
  unfold sets in *. cbn [fold_left fst snd assoc]. rewrite (IH _ Hnd').
  destruct (String.eqb_spec k1 k) as [->|Hne].
  - apply assoc_In in Hnotin. rewrite Hnotin. apply assoc_set_assoc_same.
  - destruct (assoc k kvs); [reflexivity|].
    apply assoc_set_assoc_other. congruence.
Qed.

(* ================================================================== *)
(** * Properties of the annotator *)
(* ================================================================== *)

(** ** The date value of a time element *)

Section ResolveFacts.
Variable h : Host.

(** Without a usable [datetime] attribute, the value comes from the text. *)
Lemma resolve_from_text (el : node) :
  truthy (getAttribute el "datetime") = false ->
  Annotator.resolve_dateValue h el =
  match new_Date h (trim (textContent el)) with
  | NaN => Ok None
  | Num t => Ok (Some (split_T_first (iso_string t)))
  end.
Proof.
  intros Hf; unfold Annotator.resolve_dateValue; rewrite Hf; simpl.
  destruct (new_Date h (trim (textContent el))); reflexivity.
Qed.

(** With one, the value is the attribute as it stands. *)
Lemma resolve_from_attribute (el : node) (v : string) :
  getAttribute el "datetime" = Some v -> v <> "" ->
  Annotator.resolve_dateValue h el = Ok (Some v).
Proof.
  intros Hg Hv; unfold Annotator.resolve_dateValue; rewrite Hg; simpl.
  destruct (String.eqb_spec v ""); [contradiction|reflexivity].
Qed.

(** Resolving never throws: [toISOString] runs on valid dates only. *)
Lemma resolve_total (el : node) :
  exists r, Annotator.resolve_dateValue h el = Ok r.
Proof.
  unfold Annotator.resolve_dateValue.
  destruct (truthy (getAttribute el "datetime")); simpl; [eauto|].
  destruct (new_Date h (trim (textContent el))); simpl; eauto.
Qed.

Lemma annotate_total (parentSelector : option selector) (doc : node) (timeEl : path) :
  Annotator.annotate h parentSelector doc timeEl
  = Ok (annotate_pure h parentSelector doc timeEl).
Proof.
  unfold annotate_pure, Annotator.annotate.
  destruct (lookup doc timeEl) as [el|]; [|reflexivity].
  destruct (resolve_total el) as [r ->]; simpl.
  destruct r as [dv|]; [|reflexivity].
  destruct (Annotator.resolve_parent parentSelector doc timeEl); reflexivity.
Qed.

Lemma addDateDataAttributes_total (parentSelector : option selector) (doc : node) :
  Annotator.addDateDataAttributes h parentSelector doc
  = Ok (fold_left (annotate_pure h parentSelector)
                  (querySelectorAll Annotator.time_selector doc) doc).
Proof.
  unfold Annotator.addDateDataAttributes.
  apply forEach_total; intros; apply annotate_total.
Qed.

End ResolveFacts.

(** ** Claims on the date value *)

(** C10.  A time element whose [datetime] attribute is present but empty
    is treated as one without the attribute: its date value is the one
    resolved for the same element with the attribute removed, that is,
    the ISO date of its trimmed text when the text parses and none when
    it does not; when the text parses the element is not skipped, and
    what the callback writes on the target is that date, which is not the
    empty string. *)
Theorem C10_empty_datetime_falls_back_to_text (h : Host) (el : node) :
  getAttribute el "datetime" = Some "" ->
  Annotator.resolve_dateValue h el
  = Annotator.resolve_dateValue h (removeAttribute "datetime" el)
  /\ Annotator.resolve_dateValue h el
     = match new_Date h (trim (textContent el)) with
       | NaN => Ok None
       | Num t => Ok (Some (split_T_first (iso_string t)))
       end
  /\ forall t, new_Date h (trim (textContent el)) = Num t ->
               split_T_first (iso_string t) <> ""
               /\ forall parentSelector doc timeEl parentEl,
                    lookup doc timeEl = Some el ->
                    Annotator.resolve_parent parentSelector doc timeEl
                    = Some parentEl ->
                    Annotator.annotate h parentSelector doc timeEl
                    = Ok (update (Annotator.write_attributes
                                    h (split_T_first (iso_string t)))
                                 doc parentEl).
Proof.
  intros Hg.
  assert (H1 : truthy (getAttribute el "datetime") = false) by (rewrite Hg; reflexivity).
  assert (H2 : truthy (getAttribute (removeAttribute "datetime" el) "datetime") = false).
  { destruct el as [s|t a cs]; [reflexivity|].
    unfold getAttribute; simpl. clear.
    induction a as [|[k v] a IH]; [reflexivity|]. simpl.
    destruct (String.eqb k "datetime") eqn:E; simpl; [exact IH|].
    rewrite E; exact IH. }
  split; [|split].
  - rewrite (resolve_from_text h _ H1), (resolve_from_text h _ H2).
    destruct el; reflexivity.
  - apply resolve_from_text, H1.
  - intros t Ht. split; [apply iso_date_not_empty|].
    intros parentSelector doc timeEl parentEl Hl Hp.
    unfold Annotator.annotate. rewrite Hl, (resolve_from_text h el H1), Ht.
    simpl. rewrite Hp. reflexivity.
Qed.

Lemma C10_empty_datetime_falls_back_to_text_witness :
  let h := Examples.new_york in
  let el := Element "time" [("datetime", "")] [Text " December 9, 2025 "] in
  getAttribute el "datetime" = Some ""
  /\ Annotator.resolve_dateValue h el
     = Annotator.resolve_dateValue h (removeAttribute "datetime" el)
  /\ Annotator.resolve_dateValue h el
     = match new_Date h (trim (textContent el)) with
       | NaN => Ok None
       | Num t => Ok (Some (split_T_first (iso_string t)))
       end
  /\ forall t, new_Date h (trim (textContent el)) = Num t ->
               split_T_first (iso_string t) <> ""
               /\ forall parentSelector doc timeEl parentEl,
                    lookup doc timeEl = Some el ->
                    Annotator.resolve_parent parentSelector doc timeEl
                    = Some parentEl ->
                    Annotator.annotate h parentSelector doc timeEl
                    = Ok (update (Annotator.write_attributes
                                    h (split_T_first (iso_string t)))
                                 doc parentEl).
Proof.
  intros h el; split; [reflexivity|].
  apply (C10_empty_datetime_falls_back_to_text h el); reflexivity.
Defined.

(** The same element in the example: the value is the date of the text, in
    UTC as [toISOString] gives it. *)
Example empty_datetime_example :
  Annotator.resolve_dateValue Examples.new_york
    (Element "time" [("datetime", "")] [Text " December 9, 2025 "])
  = Ok (Some "2025-12-09")
  /\ Annotator.addDateDataAttributes Examples.utc (Some Examples.post_date)
       (Examples.post [("datetime", "")] " December 9, 2025 ")
     = Ok (Element "div"
             [("class", "post-date"); ("data-date", "2025-12-09");
              ("data-year", "2025"); ("data-month", "12"); ("data-day", "9")]
             [Element "time" [("datetime", "")] [Text " December 9, 2025 "]]).
Proof. split; vm_compute; reflexivity. Qed.

(** The text path of the annotator: a time element without a usable
    [datetime] attribute whose trimmed text is not a date is skipped, the
    document stays as it is and nothing is thrown. *)
Lemma annotate_skips_unparseable_text (h : Host) (sel : option selector)
      (doc : node) (p : path) (el : node) :
  lookup doc p = Some el ->
  truthy (getAttribute el "datetime") = false ->
  new_Date h (trim (textContent el)) = NaN ->
  Annotator.annotate h sel doc p = Ok doc.
Proof.
  intros Hl Hf Hn; unfold Annotator.annotate; rewrite Hl.
  rewrite (resolve_from_text h el Hf), Hn; reflexivity.
Qed.

(** C2.  The code at [<div class="post-date"><time datetime="TBD">TBD</time></div>]:
    the [datetime] value is not a date, yet the element is not skipped:
    the value is copied to [data-date] and the three components are
    written as [NaN]. *)
Theorem C2_unparseable_datetime_is_written :
  Annotator.addDateDataAttributes Examples.utc (Some Examples.post_date)
    (Examples.post [("datetime", "TBD")] "TBD")
  = Ok (Element "div"
          [("class", "post-date"); ("data-date", "TBD"); ("data-year", "NaN");
           ("data-month", "NaN"); ("data-day", "NaN")]
          [Element "time" [("datetime", "TBD")] [Text "TBD"]]).
Proof. vm_compute; reflexivity. Qed.

(** C5.  For a time element with a date value: with a selector, the
    target is what [closest] finds, the nearest matching one among the
    element itself and its ancestors, and the attributes are written
    there, or nowhere when none matches; without a selector, the target
    is the immediate parent, and the root element, which has none, is
    skipped. *)
Theorem C5_ancestor_resolution (h : Host) (parentSelector : option selector)
        (doc : node) (timeEl : path) (el : node) (dateValue : string) :
  lookup doc timeEl = Some el ->
  Annotator.resolve_dateValue h el = Ok (Some dateValue) ->
  match parentSelector with
  | Some s =>
      (matches s doc timeEl = true -> closest s doc timeEl = Some timeEl)
      /\ match closest s doc timeEl with
         | Some q =>
             nearest_match s doc timeEl q
             /\ Annotator.annotate h parentSelector doc timeEl
                = Ok (update (Annotator.write_attributes h dateValue) doc q)
         | None =>
             no_match s doc timeEl
             /\ Annotator.annotate h parentSelector doc timeEl = Ok doc
         end
  | None =>
      match timeEl with
      | [] => Annotator.annotate h parentSelector doc timeEl = Ok doc
      | _ :: _ =>
          timeEl = (removelast timeEl ++ [last timeEl O])%list
          /\ Annotator.annotate h parentSelector doc timeEl
             = Ok (update (Annotator.write_attributes h dateValue) doc
                          (removelast timeEl))
      end
  end.
Proof.
  intros Hl Hr.
  assert (Ha : Annotator.annotate h parentSelector doc timeEl
               = match Annotator.resolve_parent parentSelector doc timeEl with
                 | Some q => Ok (update (Annotator.write_attributes h dateValue) doc q)
                 | None => Ok doc
                 end).
  { unfold Annotator.annotate; rewrite Hl, Hr; reflexivity. }
  destruct parentSelector as [s|]; simpl in Ha.
  - split; [apply closest_self|].
    destruct (closest s doc timeEl) as [q|] eqn:E.
    + split; [apply closest_Some; exact E | exact Ha].
    + split; [apply closest_None; exact E | exact Ha].
  - destruct timeEl as [|i r]; [exact Ha|].
    split; [apply app_removelast_last; discriminate | exact Ha].
Qed.

Lemma C5_ancestor_resolution_witness :
  let doc := Element "section" []
               [Examples.post [("datetime", "2025-12-09")] "December 9, 2025"] in
  let el := Element "time" [("datetime", "2025-12-09")] [Text "December 9, 2025"] in
  let s := Examples.post_date in
  lookup doc [O; O] = Some el
  /\ Annotator.resolve_dateValue Examples.utc el = Ok (Some "2025-12-09")
  /\ (matches s doc [O; O] = true -> closest s doc [O; O] = Some [O; O])
  /\ match closest s doc [O; O] with
     | Some q =>
         nearest_match s doc [O; O] q
         /\ Annotator.annotate Examples.utc (Some s) doc [O; O]
            = Ok (update (Annotator.write_attributes Examples.utc "2025-12-09") doc q)
     | None =>
         no_match s doc [O; O]
         /\ Annotator.annotate Examples.utc (Some s) doc [O; O] = Ok doc
     end.
Proof.
  intros doc el s. split; [reflexivity|]. split; [reflexivity|].
  apply (C5_ancestor_resolution Examples.utc (Some s) doc [O; O] el "2025-12-09");
    reflexivity.
Defined.

(** The three cases of C5 on the example document. *)
Example ancestor_resolution_examples :
  let doc := Element "section" []
               [Examples.post [("datetime", "2025-12-09")] "December 9, 2025"] in
  closest Examples.post_date doc [O; O] = Some [O]
  /\ closest [Compound [Tag "time"]] doc [O; O] = Some [O; O]
  /\ closest [Compound [Class "missing"]] doc [O; O] = None
  /\ Annotator.addDateDataAttributes Examples.utc (Some [Compound [Class "missing"]]) doc
     = Ok doc
  /\ Annotator.addDateDataAttributes Examples.utc None
       (Element "time" [("datetime", "2025-12-09")] [])
     = Ok (Element "time" [("datetime", "2025-12-09")] []).
Proof. vm_compute; repeat split; reflexivity. Qed.

(** ** The annotation as a change of attributes *)

Lemma write_attributes_sets (h : Host) (dateValue : string) (n : node) :
  Annotator.write_attributes h dateValue n
  = map_attrs (sets (annotation h dateValue)) n.
Proof. destruct n; reflexivity. Qed.

Lemma annotation_keys_NoDup : NoDup annotation_keys.
Proof.
  unfold annotation_keys.
  repeat (constructor; [simpl; intuition discriminate|]). constructor.
Qed.

Section Scripts.
Variable h : Host.

(** The callback performs its plan. *)
Lemma annotate_plan (parentSelector : option selector) (doc : node) (p : path) :
  annotate_pure h parentSelector doc p = perform h doc (plan h parentSelector doc p).
Proof.
  unfold annotate_pure, Annotator.annotate, plan, perform.
  destruct (lookup doc p) as [el|]; [|reflexivity].
  destruct (resolve_total h el) as [r ->]. simpl.
  destruct r as [dv|]; [|reflexivity].
  destruct (Annotator.resolve_parent parentSelector doc p) as [q|]; [|reflexivity].
  apply update_ext. intros x. apply write_attributes_sets.
Qed.

(** A step is absorbed by a script that writes on the same element
    later. *)
Lemma perform_absorbed (script : list (option (string * path))) (doc : node)
      (dateValue : string) (q : path) :
  In q (targets script) ->
  fold_left (perform h) script (perform h doc (Some (dateValue, q)))
  = fold_left (perform h) script doc.
Proof.
  revert doc; induction script as [|e script IH]; intros doc Hin; [contradiction|].
  cbn [fold_left]. destruct e as [[dv1 q1]|].
  - destruct (list_eq_dec Nat.eq_dec q1 q) as [->|Hne].
    + f_equal. cbn [perform]. rewrite update_update_same. apply update_ext.
      intros [s|t a cs]; [reflexivity|]. cbn [map_attrs]. f_equal.
      apply sets_absorb; [reflexivity | apply annotation_keys_NoDup].
    + cbn [perform] in *. rewrite update_attrs_commute by exact Hne.
      apply IH. simpl in Hin. destruct Hin as [E|Hin]; [congruence|exact Hin].
  - change (fold_left (perform h) script (perform h doc (Some (dateValue, q)))
            = fold_left (perform h) script doc).
    apply IH. exact Hin.
Qed.

(** Performing a script twice is performing it once. *)
Lemma script_idempotent (script : list (option (string * path))) (doc : node) :
  fold_left (perform h) script (fold_left (perform h) script doc)
  = fold_left (perform h) script doc.
Proof.
  assert (H : forall done,
             incl (targets done) (targets script) ->
             forall d, fold_left (perform h) script (fold_left (perform h) done d)
                       = fold_left (perform h) script d).
  { induction done as [|e done IH]; intros Hi d; [reflexivity|].
    cbn [fold_left]. rewrite IH.
    - destruct e as [[dv q]|]; [|reflexivity].
      apply perform_absorbed. apply Hi. left. reflexivity.
    - intros x Hx. apply Hi. destruct e as [[dv q]|]; [right|]; exact Hx. }
  apply H. apply incl_refl.
Qed.

End Scripts.

Open Scope Z_scope.

Section EastOfUTC.
Variable h : Host.
Hypothesis east : forall t, 0 <= LocalTZA h t < msPerDay.

(** In a zone at or east of UTC, less than a day ahead, the annotation
    of a legal date-only value is that value and its year, month and
    day. *)
Lemma annotation_east_of_UTC (s : string) (y m d : Z) :
  parse_iso_date s = Some (y, m, d) -> legal_date y m d = true ->
  annotation h s
  = [ ("data-date", s); ("data-year", Z_to_string y);
      ("data-month", Z_to_string m); ("data-day", Z_to_string d) ].
Proof.
  intros Hp Hl. unfold annotation. rewrite (new_Date_iso h s y m d Hp Hl).
  unfold getFullYear, getMonth, getDate, LocalTime.
  set (t := MakeDate (MakeDay y (m - 1) d) 0).
  assert (Ht : t + LocalTZA h t = MakeDate (MakeDay y (m - 1) d) (LocalTZA h t))
    by (unfold t, MakeDate; lia).
  rewrite Ht.
  destruct (fields_of_MakeDay y m d (LocalTZA h t) Hl (east t)) as [E1 [E2 E3]].
  rewrite E1, E2, E3. cbn [add1 ToString].
  replace (m - 1 + 1) with m by lia. reflexivity.
Qed.

End EastOfUTC.

(** X1.  The attribute path where it is right: in a zone at or east of
    UTC, less than a day ahead, the callback, on a time element whose
    [datetime] is a legal date-only string, writes on the target that
    string and its year, month and day, and changes no other attribute. *)
Lemma annotate_east_of_UTC (h : Host) (parentSelector : option selector)
      (doc : node) (timeEl parentEl : path) (el : node) (s : string) (y m d : Z)
      (t : string) (a : list (string * string)) (cs : list node) :
  (forall t, 0 <= LocalTZA h t < msPerDay) ->
  lookup doc timeEl = Some el ->
  getAttribute el "datetime" = Some s ->
  parse_iso_date s = Some (y, m, d) -> legal_date y m d = true ->
  Annotator.resolve_parent parentSelector doc timeEl = Some parentEl ->
  lookup doc parentEl = Some (Element t a cs) ->
  exists doc' a',
    Annotator.annotate h parentSelector doc timeEl = Ok doc'
    /\ lookup doc' parentEl = Some (Element t a' cs)
    /\ assoc "data-date" a' = Some s
    /\ assoc "data-year" a' = Some (Z_to_string y)
    /\ assoc "data-month" a' = Some (Z_to_string m)
    /\ assoc "data-day" a' = Some (Z_to_string d)
    /\ forall k, is_annotation_key k = false -> assoc k a' = assoc k a.
Proof.
  intros Heast Hl Hg Hp Hlegal Hparent Hq.
  assert (Hs : s <> "") by (intros ->; discriminate Hp).
  exists (update (map_attrs (sets (annotation h s))) doc parentEl),
         (sets (annotation h s) a).
  split.
  { rewrite annotate_total, annotate_plan. unfold plan.
    rewrite Hl, (resolve_from_attribute h el s Hg Hs), Hparent. reflexivity. }
  split; [exact (lookup_update_same (map_attrs (sets (annotation h s)))
                                    doc parentEl _ Hq)|].
  rewrite (annotation_east_of_UTC h Heast s y m d Hp Hlegal).
  repeat split; try (rewrite assoc_sets by (repeat (constructor;
    [simpl; intuition discriminate|]); constructor); reflexivity).
  intros k Hk. rewrite assoc_sets
    by (repeat (constructor; [simpl; intuition discriminate|]); constructor).
  unfold is_annotation_key in Hk. simpl in Hk.
  repeat (apply orb_false_iff in Hk; destruct Hk as [? Hk]).
  cbn [assoc].
  repeat match goal with
         | H : String.eqb k ?x = false |- _ =>
             rewrite String.eqb_sym in H; rewrite H; clear H
         end.
  reflexivity.
Qed.

Lemma annotate_east_of_UTC_witness :
  let h := Examples.berlin in
  let doc := Examples.post [("datetime", "2025-12-09")] "December 9, 2025" in
  (forall t, (0 <= LocalTZA h t < msPerDay)%Z)
  /\ parse_iso_date "2025-12-09" = Some (2025, 12, 9)%Z
  /\ legal_date 2025 12 9 = true
  /\ Annotator.resolve_parent (Some Examples.post_date) doc [O] = Some []
  /\ exists doc' a',
       Annotator.annotate h (Some Examples.post_date) doc [O] = Ok doc'
       /\ lookup doc' []
          = Some (Element "div" a'
                    [Element "time" [("datetime", "2025-12-09")]
                       [Text "December 9, 2025"]])
       /\ assoc "data-date" a' = Some "2025-12-09"
       /\ assoc "data-year" a' = Some (Z_to_string 2025)
       /\ assoc "data-month" a' = Some (Z_to_string 12)
       /\ assoc "data-day" a' = Some (Z_to_string 9)
       /\ forall k, is_annotation_key k = false ->
                    assoc k a' = assoc k [("class", "post-date")].
Proof.
  intros h doc.
  assert (Heast : forall t, (0 <= LocalTZA h t < msPerDay)%Z)
    by (intros t; vm_compute; split; [discriminate | reflexivity]).
  split; [exact Heast|]. split; [reflexivity|]. split; [reflexivity|].
  split; [reflexivity|].
  apply (annotate_east_of_UTC h (Some Examples.post_date) doc [O] []
           (Element "time" [("datetime", "2025-12-09")] [Text "December 9, 2025"])
           "2025-12-09" 2025 12 9 "div" [("class", "post-date")]
           [Element "time" [("datetime", "2025-12-09")] [Text "December 9, 2025"]]
           Heast); reflexivity.
Defined.

Close Scope Z_scope.

(** C1.  The code at [<div class="post-date"><time datetime="2025-12-09">...]
    and at [datetime="2025-01-01"], in a browser five hours west of
    UTC: the date-only string is midnight UTC, its local fields are those
    of the evening before, and [data-day], [data-month] and [data-year]
    are those of the previous day. *)
Theorem C1_components_are_local_fields_of_a_utc_date :
  Annotator.addDateDataAttributes Examples.new_york (Some Examples.post_date)
    (Examples.post [("datetime", "2025-12-09")] "December 9, 2025")
  = Ok (Element "div"
          [("class", "post-date"); ("data-date", "2025-12-09");
           ("data-year", "2025"); ("data-month", "12"); ("data-day", "8")]
          [Element "time" [("datetime", "2025-12-09")] [Text "December 9, 2025"]])
  /\ Annotator.addDateDataAttributes Examples.new_york (Some Examples.post_date)
       (Examples.post [("datetime", "2025-01-01")] "January 1, 2025")
     = Ok (Element "div"
             [("class", "post-date"); ("data-date", "2025-01-01");
              ("data-year", "2024"); ("data-month", "12"); ("data-day", "31")]
             [Element "time" [("datetime", "2025-01-01")] [Text "January 1, 2025"]]).
Proof. split; vm_compute; reflexivity. Qed.

(** ** Trees that differ in the annotation only *)

Lemma sim_Element (t t' : string) (a a' : list (string * string))
      (cs cs' : list node) :
  sim (Element t a cs) (Element t' a' cs')
  <-> t = t' /\ attrs_agree a a' /\ Forall2 sim cs cs'.
Proof.
  simpl. split; intros [H1 [H2 H3]]; (split; [exact H1|]; split; [exact H2|]).
  - revert cs' H3. induction cs as [|c cs IH]; intros [|c' cs'] H3;
      try contradiction; constructor; [tauto | apply IH; tauto].
  - induction H3; [exact I | split; assumption].
Qed.

Lemma attrs_agree_refl (a : list (string * string)) : attrs_agree a a.
Proof. intros k _. reflexivity. Qed.

Lemma sim_refl (n : node) : sim n n.
Proof.
  induction n as [s|t a cs IH] using node_induction; [reflexivity|].
  apply sim_Element. split; [reflexivity|]. split; [apply attrs_agree_refl|].
  induction IH; constructor; assumption.
Qed.

Lemma sim_own (n n' : node) : sim n n' -> own_agree n n'.
Proof.
  destruct n as [s|t a cs], n' as [s'|t' a' cs']; simpl; tauto.
Qed.

Lemma Forall2_nth_error {A : Type} (R : A -> A -> Prop) (l l' : list A) (i : nat) :
  Forall2 R l l' -> option_rel R (nth_error l i) (nth_error l' i).
Proof.
  intros H; revert i; induction H; intros [|i]; simpl; auto.
Qed.

Lemma sim_children (n n' : node) : sim n n' -> Forall2 sim (children n) (children n').
Proof.
  destruct n as [s|t a cs], n' as [s'|t' a' cs']; simpl; try tauto.
  - constructor.
  - intros H. apply (sim_Element t t' a a' cs cs') in H. tauto.
Qed.

Lemma sim_lookup (p : path) (n n' : node) :
  sim n n' -> option_rel sim (lookup n p) (lookup n' p).
Proof.
  revert n n'; induction p as [|i p IH]; intros n n' H; simpl; [exact H|].
  generalize (Forall2_nth_error sim _ _ i (sim_children n n' H)).
  destruct (nth_error (children n) i), (nth_error (children n') i); simpl;
    try tauto. apply IH.
Qed.

Lemma sim_chain_aux (p : path) (n n' : node) (above above' : list node) :
  sim n n' -> Forall2 own_agree above above' ->
  option_rel (Forall2 own_agree) (chain_aux n p above) (chain_aux n' p above').
Proof.
  revert n n' above above'; induction p as [|i p IH]; intros n n' above above' H Ha;
    simpl.
  - constructor; [apply sim_own, H | exact Ha].
  - generalize (Forall2_nth_error sim _ _ i (sim_children n n' H)).
    destruct (nth_error (children n) i), (nth_error (children n') i); simpl;
      try tauto.
    intros Hc. apply IH; [exact Hc|]. constructor; [apply sim_own, H | exact Ha].
Qed.

Lemma sim_textContent (n n' : node) : sim n n' -> textContent n = textContent n'.
Proof.
  revert n'; induction n as [s|t a cs IH] using node_induction; intros n' H.
  - destruct n'; [simpl in *; congruence | contradiction].
  - destruct n' as [s'|t' a' cs']; [contradiction|].
    apply sim_Element in H. destruct H as [_ [_ H]]. simpl.
    induction H as [|c c' cs cs' Hc Hcs IHcs]; [reflexivity|].
    inversion IH as [|? ? Hc1 Hcs1]; subst.
    rewrite (Hc1 c' Hc), (IHcs Hcs1). reflexivity.
Qed.

Lemma sim_element_paths (n n' : node) : sim n n' -> element_paths n = element_paths n'.
Proof.
  revert n'; induction n as [s|t a cs IH] using node_induction; intros n' H.
  - destruct n'; [reflexivity | contradiction].
  - destruct n' as [s'|t' a' cs']; [contradiction|].
    apply sim_Element in H. destruct H as [_ [_ H]]. simpl. f_equal.
    generalize O.
    induction H as [|c c' cs cs' Hc Hcs IHcs]; intros i; [reflexivity|].
    inversion IH as [|? ? Hc1 Hcs1]; subst.
    rewrite (Hc1 c' Hc), (IHcs Hcs1). reflexivity.
Qed.

(** ** Selectors that do not look at the annotation *)

Lemma own_agree_getAttribute (n n' : node) (k : string) :
  own_agree n n' -> is_annotation_key k = false ->
  getAttribute n k = getAttribute n' k.
Proof.
  destruct n as [s|t a cs], n' as [s'|t' a' cs']; simpl; try tauto.
  intros [_ H] Hk. apply H, Hk.
Qed.

Lemma blind_matches_simple (s : simple) (n n' : node) :
  own_agree n n' -> blind_simple s = true ->
  matches_simple s n = matches_simple s n'.
Proof.
  intros H. induction s as [| t | c | i | a | a v | s IH]; intros Hb; simpl.
  - reflexivity.
  - destruct n as [s|t0 a cs], n' as [s'|t' a' cs']; simpl in H; try tauto.
    destruct H as [-> _]. reflexivity.
  - unfold classList. rewrite (own_agree_getAttribute n n' "class" H eq_refl).
    reflexivity.
  - rewrite (own_agree_getAttribute n n' "id" H eq_refl). reflexivity.
  - simpl in Hb. apply negb_true_iff in Hb.
    rewrite (own_agree_getAttribute n n' a H Hb). reflexivity.
  - simpl in Hb. apply negb_true_iff in Hb.
    rewrite (own_agree_getAttribute n n' a H Hb). reflexivity.
  - rewrite (IH Hb). reflexivity.
Qed.

Lemma blind_matches_compound (k : compound) (n n' : node) :
  own_agree n n' -> forallb blind_simple k = true ->
  matches_compound k n = matches_compound k n'.
Proof.
  intros H Hb. unfold matches_compound. f_equal.
  - destruct n, n'; simpl in H; tauto || reflexivity.
  - induction k as [|s k IH]; [reflexivity|]. simpl in *.
    apply andb_true_iff in Hb. destruct Hb as [Hs Hk].
    rewrite (blind_matches_simple s n n' H Hs), (IH Hk). reflexivity.
Qed.

Lemma exists_suffix_agree {A : Type} (R : A -> A -> Prop) (f : list A -> bool)
      (l l' : list A) :
  (forall m m', Forall2 R m m' -> f m = f m') ->
  Forall2 R l l' -> exists_suffix f l = exists_suffix f l'.
Proof.
  intros Hf H. induction H as [|x x' l l' Hx Hl IH]; [reflexivity|].
  simpl. rewrite IH. f_equal. apply Hf. constructor; assumption.
Qed.

Lemma blind_matches_complex (c : complex) (ch ch' : list node) :
  Forall2 own_agree ch ch' -> blind_complex c = true ->
  matches_complex c ch = matches_complex c ch'.
Proof.
  revert ch ch'; induction c as [k | anc IH k | par IH k]; intros ch ch' H Hb;
    destruct H as [|n n' above above' Hn Habove]; try reflexivity; simpl in *.
  - apply blind_matches_compound; assumption.
  - apply andb_true_iff in Hb. destruct Hb as [Ha Hk].
    rewrite (blind_matches_compound k n n' Hn Hk). f_equal.
    apply (exists_suffix_agree own_agree); [|exact Habove].
    intros m m' Hm. apply IH; assumption.
  - apply andb_true_iff in Hb. destruct Hb as [Ha Hk].
    rewrite (blind_matches_compound k n n' Hn Hk). f_equal.
    apply IH; assumption.
Qed.

Section Blind.
Variables (s : selector) (doc doc' : node).
Hypothesis s_blind : forallb blind_complex s = true.
Hypothesis doc_sim : sim doc doc'.

Lemma blind_matches (p : path) : matches s doc p = matches s doc' p.
Proof.
  unfold matches, chain.
  generalize (sim_chain_aux p doc doc' [] [] doc_sim (Forall2_nil _)).
  destruct (chain_aux doc p []) as [ch|], (chain_aux doc' p []) as [ch'|]; simpl;
    try tauto.
  intros H. unfold matches_chain. clear - H s_blind.
  induction s as [|c l IH]; [reflexivity|]. simpl in *.
  apply andb_true_iff in s_blind. destruct s_blind as [Hc Hl].
  rewrite (blind_matches_complex c ch ch' H Hc), (IH Hl). reflexivity.
Qed.

Lemma blind_querySelectorAll : querySelectorAll s doc = querySelectorAll s doc'.
Proof.
  unfold querySelectorAll. rewrite <- (sim_element_paths doc doc' doc_sim).
  apply filter_ext. intros p. apply blind_matches.
Qed.

Lemma blind_closest (p : path) : closest s doc p = closest s doc' p.
Proof.
  unfold closest. induction (rev p) as [|a up IH]; cbn [closest_rev];
    rewrite blind_matches; [reflexivity|].
  rewrite IH. reflexivity.
Qed.

End Blind.

(** ** The plan of a run does not depend on the annotation *)

Lemma sim_getAttribute (n n' : node) (k : string) :
  sim n n' -> is_annotation_key k = false -> getAttribute n k = getAttribute n' k.
Proof. intros H. apply own_agree_getAttribute, sim_own, H. Qed.

Lemma sim_resolve_dateValue (h : Host) (el el' : node) :
  sim el el' ->
  Annotator.resolve_dateValue h el = Annotator.resolve_dateValue h el'.
Proof.
  intros H. unfold Annotator.resolve_dateValue.
  rewrite (sim_getAttribute el el' "datetime" H eq_refl).
  rewrite (sim_textContent el el' H). reflexivity.
Qed.

Lemma sim_plan (h : Host) (parentSelector : option selector) (doc doc' : node)
      (p : path) :
  blind parentSelector = true -> sim doc doc' ->
  plan h parentSelector doc p = plan h parentSelector doc' p.
Proof.
  intros Hb H. unfold plan.
  generalize (sim_lookup p doc doc' H).
  destruct (lookup doc p) as [el|], (lookup doc' p) as [el'|]; simpl; try tauto.
  intros Hel. rewrite (sim_resolve_dateValue h el el' Hel).
  destruct (Annotator.resolve_dateValue h el') as [[dv|]|]; try reflexivity.
  destruct parentSelector as [s|]; simpl; [|reflexivity].
  rewrite (blind_closest s doc doc' Hb H p). reflexivity.
Qed.

Lemma attrs_agree_sets (kvs a0 a : list (string * string)) :
  forallb is_annotation_key (map fst kvs) = true ->
  attrs_agree a0 a -> attrs_agree a0 (sets kvs a).
Proof.
  revert a; induction kvs as [|[k v] kvs IH]; intros a Hk H; [exact H|].
  simpl in Hk. apply andb_true_iff in Hk. destruct Hk as [Hk Hks].
  unfold sets. cbn [fold_left fst snd]. apply IH; [exact Hks|].
  intros k' Hk'. rewrite assoc_set_assoc_other; [apply H, Hk'|].
  intros ->. congruence.
Qed.

Lemma Forall2_alter_nth {A : Type} (R : A -> A -> Prop) (g : A -> A) (i : nat)
      (l0 l : list A) :
  Forall2 R l0 l -> (forall x0 x, R x0 x -> R x0 (g x)) ->
  Forall2 R l0 (alter_nth g i l).
Proof.
  intros H Hg; revert i; induction H; intros [|i]; simpl; constructor; auto.
Qed.

(** Annotating an element keeps the tree the same outside the
    annotation. *)
Lemma sim_perform (h : Host) (doc0 doc : node) (e : option (string * path)) :
  sim doc0 doc -> sim doc0 (perform h doc e).
Proof.
  destruct e as [[dv q]|]; [|tauto]. cbn [perform].
  revert doc0 doc; induction q as [|i q IH]; intros doc0 doc H.
  - destruct doc0 as [s0|t0 a0 cs0], doc as [s|t a cs]; try contradiction;
      [exact H|].
    apply sim_Element in H. destruct H as [Ht [Ha Hcs]].
    apply sim_Element. split; [exact Ht|]. split; [|exact Hcs].
    apply attrs_agree_sets; [reflexivity | exact Ha].
  - destruct doc0 as [s0|t0 a0 cs0], doc as [s|t a cs]; try contradiction;
      [exact H|].
    apply sim_Element in H. destruct H as [Ht [Ha Hcs]].
    cbn [update]. apply sim_Element. split; [exact Ht|]. split; [exact Ha|].
    apply Forall2_alter_nth; [exact Hcs|]. intros x0 x Hx. apply IH, Hx.
Qed.

Section Run.
Variables (h : Host) (parentSelector : option selector).
Hypothesis selector_blind : blind parentSelector = true.

(** A run performs the plans made on the tree it starts from. *)
Lemma run_performs_plans (doc0 : node) (ps : list path) (doc : node) :
  sim doc0 doc ->
  fold_left (annotate_pure h parentSelector) ps doc
  = fold_left (perform h) (map (plan h parentSelector doc0) ps) doc
  /\ sim doc0 (fold_left (annotate_pure h parentSelector) ps doc).
Proof.
  revert doc; induction ps as [|p ps IH]; intros doc H; [split; [reflexivity|exact H]|].
  cbn [fold_left map].
  rewrite annotate_plan, <- (sim_plan h parentSelector doc0 doc p selector_blind H).
  apply IH, sim_perform, H.
Qed.

End Run.

(** C6 (amended).  Under a selector that does not test the attributes
    [data-date], [data-year], [data-month] and [data-day], or without a
    selector, a second run of the annotator on the document left by the
    first leaves that document as it is: every attribute of every
    element has the value it had after the first run. *)
Theorem C6_idempotent_when_selector_ignores_annotation (h : Host)
        (parentSelector : option selector) (doc : node) :
  blind parentSelector = true ->
  exists doc1,
    Annotator.addDateDataAttributes h parentSelector doc = Ok doc1
    /\ Annotator.addDateDataAttributes h parentSelector doc1 = Ok doc1.
Proof.
  intros selector_blind.
  rewrite addDateDataAttributes_total. eexists. split; [reflexivity|].
  rewrite addDateDataAttributes_total. f_equal.
  set (ps := querySelectorAll Annotator.time_selector doc).
  destruct (run_performs_plans h parentSelector selector_blind doc ps doc
              (sim_refl doc)) as [E1 S1].
  rewrite <- (blind_querySelectorAll Annotator.time_selector doc _ eq_refl S1).
  fold ps.
  destruct (run_performs_plans h parentSelector selector_blind doc ps _ S1)
    as [E2 _].
  rewrite E2, E1. apply script_idempotent.
Qed.

Lemma C6_idempotent_when_selector_ignores_annotation_witness :
  blind (Some Examples.post_date) = true
  /\ exists doc1,
       Annotator.addDateDataAttributes Examples.new_york (Some Examples.post_date)
         Examples.two_posts = Ok doc1
       /\ Annotator.addDateDataAttributes Examples.new_york (Some Examples.post_date)
            doc1 = Ok doc1.
Proof.
  split; [reflexivity|].
  apply (C6_idempotent_when_selector_ignores_annotation Examples.new_york
           (Some Examples.post_date) Examples.two_posts).
  reflexivity.
Defined.

(** C6 as stated fails: under the selector [[data-date] p, div] the first
    run annotates the [div]; the [p] then has an annotated ancestor,
    matches, and is annotated by the second run. *)
Lemma C6_selector_reading_annotation_counterexample :
  exists doc1 doc2,
    Annotator.addDateDataAttributes Examples.utc (Some Examples.annotated_p_or_div)
      Examples.time_in_p = Ok doc1
    /\ Annotator.addDateDataAttributes Examples.utc (Some Examples.annotated_p_or_div)
         doc1 = Ok doc2
    /\ doc2 <> doc1
    /\ option_map attrs (lookup doc1 [O]) = Some []
    /\ option_map attrs (lookup doc2 [O])
       = Some [("data-date", "2025-12-09"); ("data-year", "2025");
               ("data-month", "12"); ("data-day", "9")].
Proof.
  eexists. eexists.
  split; [vm_compute; reflexivity|].
  split; [vm_compute; reflexivity|].
  split; [discriminate|].
  split; reflexivity.
Qed.

(** Two time elements under one ancestor: the last one wins, in the first
    run and in the second. *)
Example shared_ancestor_example :
  Annotator.addDateDataAttributes Examples.utc (Some Examples.post_date)
    Examples.two_posts
  = Ok (Element "div" [("class", "post-date"); ("data-date", "2026-01-02");
                       ("data-year", "2026"); ("data-month", "1"); ("data-day", "2")]
          [Element "time" [("datetime", "2025-12-09")] [];
           Element "p" [] [Element "time" [] [Text "2026-01-02"]]]).
Proof. vm_compute; reflexivity. Qed.

(* ================================================================== *)
(** * Properties of the formatter *)
(* ================================================================== *)

(** ** Words of a string *)

Lemma segs_sep (c : ascii) (r : string) :
  is_word c = false -> segs (String c r) = Sep c :: segs r.
Proof. intros Hc; simpl; rewrite Hc; reflexivity. Qed.

Lemma segs_cons_word (c : ascii) (r : string) :
  is_word c = true ->
  segs (String c r) = match segs r with
                      | Word w :: t => Word (String c w) :: t
                      | t => Word (String c EmptyString) :: t
                      end.
Proof. intros Hc; simpl; rewrite Hc; reflexivity. Qed.

Lemma segs_word (c : ascii) (r : string) :
  is_word c = true ->
  segs (String c r) = Word (String c (word_prefix r)) :: segs (word_rest r).
Proof.
  revert c; induction r as [|c2 r IH]; intros c Hc.
  - simpl; rewrite Hc; reflexivity.
  - rewrite (segs_cons_word c _ Hc). cbn [word_prefix word_rest].
    destruct (is_word c2) eqn:E2.
    + rewrite (IH c2 E2). reflexivity.
    + rewrite (segs_sep c2 r E2). reflexivity.
Qed.

Lemma flatten_segs (s : string) : flatten (map seg_string (segs s)) = s.
Proof.
  induction s as [|c r IH]; [reflexivity|]. simpl.
  destruct (is_word c).
  - destruct (segs r) as [|[w|c2] t]; simpl in *; rewrite <- IH; reflexivity.
  - simpl. rewrite IH. reflexivity.
Qed.

(** ** The replacement of one token, word by word *)

Lemma last_char_word (lit : string) (prev : option ascii) :
  string_forallb is_word lit = true ->
  is_word_opt prev = true \/ lit <> "" ->
  is_word_opt (last_char prev lit) = true.
Proof.
  revert prev; induction lit as [|c r IH]; intros prev Hw Hp; simpl in *.
  - destruct Hp as [Hp|Hp]; [exact Hp | contradiction].
  - apply andb_true_iff in Hw. destruct Hw as [Hc Hr].
    apply IH; [exact Hr | left; exact Hc].
Qed.

(** A code is found at the head of [s] and ends at a boundary exactly when
    the word at the head of [s] is the code. *)
Lemma word_match (lit s : string) :
  string_forallb is_word lit = true ->
  prefix lit s && negb (is_word_opt (first_char (drop (String.length lit) s)))
  = String.eqb lit (word_prefix s).
Proof.
  revert s; induction lit as [|a lit IH]; intros s Hw.
  - simpl. destruct s as [|c r]; simpl; [reflexivity|].
    destruct (is_word c); reflexivity.
  - simpl in Hw. apply andb_true_iff in Hw. destruct Hw as [Ha Hl].
    destruct s as [|c r]; [reflexivity|]. simpl.
    destruct (ascii_dec a c) as [->|Hac].
    + rewrite Ha, (IH r Hl). simpl. rewrite Ascii.eqb_refl. reflexivity.
    + simpl. destruct (is_word c); [|reflexivity]. simpl.
      destruct (Ascii.eqb_spec a c); [contradiction|reflexivity].
Qed.

Lemma matches_word_at_spec (lit : string) (prev : option ascii) (s : string) :
  is_code lit = true ->
  matches_word_at lit prev s
  = word_boundary prev (first_char s) && String.eqb lit (word_prefix s).
Proof.
  unfold is_code; intros Hc. apply andb_true_iff in Hc. destruct Hc as [Hne Hw].
  unfold matches_word_at. rewrite <- (word_match lit s Hw).
  rewrite <- andb_assoc. f_equal. f_equal.
  unfold word_boundary. rewrite last_char_word; [reflexivity | exact Hw |].
  right. intros ->. discriminate.
Qed.

Section ReplaceWords.
Variables lit repl : string.
Hypothesis lit_code : is_code lit = true.

Lemma replace_word_aux_spec (s : string) :
  (forall prev, is_word_opt prev = false \/ is_word_opt (first_char s) = false ->
                replace_word_aux lit repl O prev s = render_all lit repl s)
  /\ (forall prev, is_word_opt prev = true ->
                   replace_word_aux lit repl O prev s
                   = word_prefix s ++ render_all lit repl (word_rest s))
  /\ (forall prev, replace_word_aux lit repl (String.length (word_prefix s)) prev s
                   = render_all lit repl (word_rest s)).
Proof.
  induction s as [|c r [IH1 [IH2 IH3]]].
  - repeat split; reflexivity.
  - destruct (is_word c) eqn:Ec.
    + (* inside or at the start of a word *)
      assert (HR : render_all lit repl (String c r)
                   = render_one lit repl (Word (String c (word_prefix r)))
                     ++ render_all lit repl (word_rest r)).
      { unfold render_all. rewrite (segs_word c r Ec). reflexivity. }
      split; [|split].
      * intros prev Hp.
        assert (Hprev : is_word_opt prev = false).
        { destruct Hp as [Hp|Hp]; [exact Hp|]. simpl in Hp. congruence. }
        cbn [replace_word_aux].
        rewrite (matches_word_at_spec lit prev _ lit_code).
        unfold word_boundary. rewrite Hprev. cbn [first_char is_word_opt].
        rewrite Ec. cbn [xorb andb word_prefix]. rewrite Ec.
        rewrite HR. cbn [render_one]. rewrite (String.eqb_sym lit).
        destruct (String.eqb_spec (String c (word_prefix r)) lit) as [E|E].
        -- f_equal. rewrite <- (IH3 (Some c)). f_equal.
           rewrite <- E. simpl. lia.
        -- simpl. f_equal. apply IH2. exact Ec.
      * intros prev Hprev.
        cbn [replace_word_aux].
        rewrite (matches_word_at_spec lit prev _ lit_code).
        unfold word_boundary. rewrite Hprev. cbn [first_char is_word_opt].
        rewrite Ec. cbn [xorb andb word_prefix word_rest]. rewrite Ec.
        simpl. f_equal. apply IH2. exact Ec.
      * intros prev. cbn [word_prefix word_rest]. rewrite Ec. simpl. apply IH3.
    + (* outside a word *)
      assert (H1 : forall prev, replace_word_aux lit repl O prev (String c r)
                                = render_all lit repl (String c r)).
      { intros prev. cbn [replace_word_aux].
        rewrite (matches_word_at_spec lit prev _ lit_code).
        cbn [word_prefix]. rewrite Ec.
        replace (String.eqb lit "") with false.
        2:{ symmetry. destruct lit; [discriminate lit_code | reflexivity]. }
        rewrite andb_false_r. unfold render_all. rewrite (segs_sep c r Ec). simpl.
        f_equal. apply IH1. left. simpl. exact Ec. }
      split; [|split].
      * intros prev _. apply H1.
      * intros prev _. cbn [word_prefix word_rest]. rewrite Ec. apply H1.
      * intros prev. cbn [word_prefix word_rest]. rewrite Ec. apply H1.
Qed.

(** The replacement of a code throughout a string replaces the words that
    are the code and nothing else. *)
Lemma replace_word_all_spec (s : string) :
  replace_word_all lit repl s = flatten (map (render_one lit repl) (segs s)).
Proof.
  unfold replace_word_all.
  destruct (replace_word_aux_spec s) as [H _]. apply H. left. reflexivity.
Qed.

End ReplaceWords.

(** ** Words of a concatenation *)

Lemma segs_nonempty (s : string) : s <> "" -> segs s <> [].
Proof.
  destruct s as [|c r]; [contradiction|]. intros _. simpl.
  destruct (is_word c); [|discriminate].
  destruct (segs r) as [|[w|c2] t]; discriminate.
Qed.

Lemma segs_head_sep (s : string) :
  is_word_opt (first_char s) = false ->
  match segs s with Word _ :: _ => False | _ => True end.
Proof.
  destruct s as [|c r]; simpl; [auto|]. intros ->. exact I.
Qed.

(** The words of [a ++ b] are those of [a] and those of [b] when no word
    runs across the cut. *)
Lemma segs_app (a b : string) :
  is_word_opt (last_char None a) && is_word_opt (first_char b) = false ->
  segs (a ++ b) = (segs a ++ segs b)%list.
Proof.
  induction a as [|c a IH]; intros H; [reflexivity|].
  assert (IHa : segs (a ++ b) = (segs a ++ segs b)%list).
  { destruct a as [|c2 a']; [reflexivity|]. apply IH. exact H. }
  destruct (is_word c) eqn:Ec.
  - change (String c a ++ b) with (String c (a ++ b)).
    rewrite !(segs_cons_word c _ Ec), IHa.
    destruct a as [|c2 a'].
    + simpl in H. rewrite Ec in H. simpl in H.
      generalize (segs_head_sep b H). simpl.
      destruct (segs b) as [|[w|c3] t]; [reflexivity|contradiction|reflexivity].
    + generalize (segs_nonempty (String c2 a')).
      destruct (segs (String c2 a')) as [|[w|c3] t]; intros Hn.
      * exfalso; apply Hn; [discriminate|reflexivity].
      * reflexivity.
      * reflexivity.
  - change (String c a ++ b) with (String c (a ++ b)).
    rewrite !(segs_sep c _ Ec), IHa. reflexivity.
Qed.

Lemma last_char_app (a b : string) (d : option ascii) :
  last_char d (a ++ b) = last_char (last_char d a) b.
Proof. revert d; induction a as [|c a IH]; intros d; simpl; auto. Qed.

Lemma append_assoc (a b c : string) : (a ++ b) ++ c = a ++ (b ++ c).
Proof. induction a as [|x a IH]; simpl; [reflexivity | rewrite IH; reflexivity]. Qed.

Lemma append_nil_r (a : string) : a ++ "" = a.
Proof. induction a as [|x a IH]; simpl; [reflexivity | rewrite IH; reflexivity]. Qed.

Lemma flatten_app (l1 l2 : list string) :
  flatten (l1 ++ l2) = flatten l1 ++ flatten l2.
Proof.
  induction l1 as [|x l1 IH]; simpl; [reflexivity|].
  rewrite IH, append_assoc. reflexivity.
Qed.

Lemma is_code_cons (c : ascii) (w : string) :
  is_code (String c w) = is_word c && string_forallb is_word w.
Proof. reflexivity. Qed.

Lemma well_formed_segs (s : string) : well_formed (segs s) = true.
Proof.
  induction s as [|c r IH]; [reflexivity|].
  destruct (is_word c) eqn:Ec.
  - rewrite (segs_cons_word c r Ec).
    destruct (segs r) as [|[w|c2] t]; cbn [well_formed] in *;
      rewrite is_code_cons, Ec.
    + reflexivity.
    + apply andb_true_iff in IH. destruct IH as [IH1 IH2].
      apply andb_true_iff in IH1. destruct IH1 as [Hw Ht].
      unfold is_code in Hw. apply andb_true_iff in Hw. destruct Hw as [_ Hw].
      rewrite Hw, Ht, IH2. reflexivity.
    + simpl. rewrite andb_true_r. exact IH.
  - rewrite (segs_sep c r Ec). simpl. rewrite Ec. exact IH.
Qed.

Lemma segs_code (w : string) : is_code w = true -> segs w = [Word w].
Proof.
  unfold is_code. intros H. apply andb_true_iff in H. destruct H as [Hne Hw].
  induction w as [|c r IH]; [discriminate|].
  simpl in Hw. apply andb_true_iff in Hw. destruct Hw as [Hc Hr].
  rewrite (segs_cons_word c r Hc).
  destruct r as [|c2 r']; [reflexivity|].
  rewrite IH; [reflexivity | reflexivity | exact Hr].
Qed.

Lemma code_first_last (w : string) :
  is_code w = true ->
  is_word_opt (first_char w) = true /\ is_word_opt (last_char None w) = true.
Proof.
  unfold is_code. intros H. apply andb_true_iff in H. destruct H as [Hne Hw].
  split.
  - destruct w; [discriminate|]. simpl in *. apply andb_true_iff in Hw. tauto.
  - apply last_char_word; [exact Hw|]. right. intros ->. discriminate.
Qed.

Section OnePass.
Variables lit repl : string.
Hypothesis repl_closed : closed repl = true.

(** After one pass the words are the old ones, with the words of the
    replacement in place of each occurrence of the code. *)
Lemma segs_render_one (l : list seg) :
  well_formed l = true ->
  segs (flatten (map (render_one lit repl) l)) = flat_map (expand_one lit repl) l.
Proof.
  unfold closed in repl_closed. apply andb_true_iff in repl_closed.
  destruct repl_closed as [Hf Hl]. apply negb_true_iff in Hf, Hl.
  induction l as [|g l IH]; intros Hwf; [reflexivity|].
  cbn [map flatten flat_map].
  destruct g as [w|c].
  - cbn [well_formed] in Hwf. apply andb_true_iff in Hwf.
    destruct Hwf as [Hwf Hadj]. apply andb_true_iff in Hwf.
    destruct Hwf as [Hcode Hwf]. specialize (IH Hwf).
    cbn [render_one expand_one].
    destruct (String.eqb w lit) eqn:E.
    + rewrite segs_app, IH; [reflexivity|]. rewrite Hl. reflexivity.
    + rewrite segs_app, IH, (segs_code w Hcode); [reflexivity|].
      destruct l as [|[w2|c2] l']; [apply andb_false_r | discriminate |].
      cbn [well_formed] in Hwf. apply andb_true_iff in Hwf.
      destruct Hwf as [Hc2 _]. apply negb_true_iff in Hc2.
      simpl. rewrite Hc2. apply andb_false_r.
  - cbn [well_formed] in Hwf. apply andb_true_iff in Hwf.
    destruct Hwf as [Hc Hwf]. apply negb_true_iff in Hc.
    cbn [render_one expand_one].
    change (String c "" ++ flatten (map (render_one lit repl) l))
      with (String c (flatten (map (render_one lit repl) l))).
    rewrite (segs_sep c _ Hc), (IH Hwf). reflexivity.
Qed.

End OnePass.

(** ** The escaped pattern *)

(** The pattern built from the escaped code matches the code itself. *)
Lemma pattern_literal_escapeRegExp (s : string) :
  pattern_literal (escapeRegExp s) = Some s.
Proof.
  induction s as [|c r IH]; [reflexivity|]. cbn [escapeRegExp].
  destruct (is_regex_special c) eqn:E.
  - cbn [pattern_literal Ascii.eqb Bool.eqb]. rewrite E, IH. reflexivity.
  - cbn [pattern_literal]. destruct (Ascii.eqb_spec c "\"%char) as [->|Hc].
    + discriminate E.
    + rewrite E, IH. reflexivity.
Qed.

(** ** All the passes *)

Lemma inert_expand_all (toks : list (string * Formatter.Token))
      (codes order : list string) (s : string) :
  incl order codes -> inert codes s = true ->
  flat_map (expand_all toks order) (segs s) = segs s.
Proof.
  intros Hi. unfold inert. induction (segs s) as [|g l IH]; intros H; [reflexivity|].
  simpl in H. apply andb_true_iff in H. destruct H as [Hg Hl].
  cbn [flat_map]. rewrite (IH Hl).
  destruct g as [w|c]; [|reflexivity]. cbn [expand_all].
  destruct (existsb (String.eqb w) order) eqn:E; [|reflexivity].
  apply existsb_exists in E. destruct E as [x [Hx Ex]].
  apply negb_true_iff in Hg.
  assert (existsb (String.eqb w) codes = true); [|congruence].
  apply existsb_exists. exists x. split; [apply Hi, Hx | exact Ex].
Qed.

Lemma span_closed (cls content : string) :
  closed (Formatter.span cls content) = true.
Proof.
  unfold closed, Formatter.span. simpl.
  rewrite last_char_app. simpl. rewrite last_char_app. reflexivity.
Qed.

Section AllPasses.
Variable toks : list (string * Formatter.Token).
Variable codes : list string.
Hypothesis codes_are_codes : forall lit, In lit codes -> is_code lit = true.
Hypothesis spans_inert :
  forall lit t, In lit codes -> Formatter.get lit toks = Some t ->
                inert codes (token_span t) = true.

Lemma segs_replace_token (lit s : string) :
  In lit codes ->
  segs (Formatter.replace_token toks s lit)
  = match Formatter.get lit toks with
    | Some t => flat_map (expand_one lit (token_span t)) (segs s)
    | None => segs s
    end.
Proof.
  intros Hin. unfold Formatter.replace_token.
  destruct (Formatter.get lit toks) as [t|]; [|reflexivity].
  rewrite pattern_literal_escapeRegExp.
  rewrite (replace_word_all_spec lit _ (codes_are_codes lit Hin)).
  apply segs_render_one; [apply span_closed | apply well_formed_segs].
Qed.

Lemma segs_fold_replace (order : list string) (s : string) :
  incl order codes ->
  segs (fold_left (Formatter.replace_token toks) order s)
  = flat_map (expand_all toks order) (segs s).
Proof.
  revert s; induction order as [|lit order IH]; intros s Hi.
  - simpl. induction (segs s) as [|g l IHl]; [reflexivity|].
    simpl. rewrite <- IHl. destruct g; reflexivity.
  - assert (Hlit : In lit codes) by (apply Hi; left; reflexivity).
    assert (Hi' : incl order codes) by (intros x Hx; apply Hi; right; exact Hx).
    cbn [fold_left]. rewrite (IH _ Hi'), (segs_replace_token lit s Hlit).
    destruct (Formatter.get lit toks) as [t|] eqn:Eg.
    + induction (segs s) as [|g l IHl]; [reflexivity|].
      cbn [flat_map]. rewrite flat_map_app, IHl. f_equal.
      destruct g as [w|c]; [|reflexivity].
      cbn [expand_one expand_all existsb].
      destruct (String.eqb_spec w lit) as [->|Hne].
      * cbn [orb]. rewrite Eg.
        apply (inert_expand_all toks codes order _ Hi'), (spans_inert lit t Hlit Eg).
      * cbn [orb flat_map]. rewrite app_nil_r. reflexivity.
    + induction (segs s) as [|g l IHl]; [reflexivity|].
      cbn [flat_map]. rewrite IHl. f_equal.
      destruct g as [w|c]; [|reflexivity].
      cbn [expand_all existsb].
      destruct (String.eqb_spec w lit) as [->|Hne]; [|reflexivity].
      cbn [orb]. rewrite Eg. destruct (existsb (String.eqb lit) order); reflexivity.
Qed.

End AllPasses.

Lemma In_insert_sorted {A : Type} (cmp : A -> A -> Z) (x y : A) (l : list A) :
  In y (Formatter.insert_sorted cmp x l) <-> y = x \/ In y l.
Proof.
  induction l as [|z l IH]; simpl.
  - intuition congruence.
  - destruct (cmp x z <=? 0)%Z; simpl; [intuition congruence|].
    rewrite IH. intuition congruence.
Qed.

(** Sorting keeps the members of the list. *)
Lemma In_sort {A : Type} (cmp : A -> A -> Z) (y : A) (l : list A) :
  In y (Formatter.sort cmp l) <-> In y l.
Proof.
  induction l as [|x l IH]; simpl; [tauto|].
  rewrite In_insert_sorted, IH. intuition congruence.
Qed.

Lemma get_In {A : Type} (k : string) (o : list (string * A)) (v : A) :
  Formatter.get k o = Some v -> In k (map fst o).
Proof.
  induction o as [|[k' v'] o IH]; simpl; [discriminate|].
  destruct (String.eqb_spec k' k); [left; assumption | right; auto].
Qed.

(** The passes of the code give what one pass over the words gives, for a
    table whose keys are codes and whose spans hold no key as a word. *)
Lemma substitute_single_pass_table (toks : list (string * Formatter.Token)) :
  (forall lit, In lit (map fst toks) -> is_code lit = true) ->
  (forall lit t, In lit (map fst toks) -> Formatter.get lit toks = Some t ->
                 inert (map fst toks) (token_span t) = true) ->
  forall format, Formatter.substitute toks format = single_pass toks format.
Proof.
  intros Hc Hi format. unfold Formatter.substitute, single_pass.
  assert (Hincl : incl (Formatter.sortedTokens toks) (map fst toks)).
  { intros x Hx. apply In_sort in Hx. exact Hx. }
  rewrite <- (flatten_segs (fold_left _ _ _)).
  rewrite (segs_fold_replace toks (map fst toks) Hc Hi _ _ Hincl).
  induction (segs format) as [|g l IH]; [reflexivity|].
  cbn [flat_map map]. rewrite map_app, flatten_app, IH. cbn [flatten]. f_equal.
  destruct g as [w|c]; [|reflexivity]. cbn [expand_all render_seg].
  destruct (existsb (String.eqb w) (Formatter.sortedTokens toks)) eqn:E.
  - destruct (Formatter.get w toks) as [t|].
    + apply flatten_segs.
    + simpl. apply append_nil_r.
  - destruct (Formatter.get w toks) as [t|] eqn:Eg; [|simpl; apply append_nil_r].
    exfalso. apply get_In in Eg.
    assert (existsb (String.eqb w) (Formatter.sortedTokens toks) = true); [|congruence].
    apply existsb_exists. exists w. split; [apply In_sort; exact Eg|].
    apply String.eqb_refl.
Qed.

(** ** The spans of the token table hold no code *)

(** The words of a string are made of its characters. *)
Lemma segs_words_forallb (f : ascii -> bool) (s : string) :
  string_forallb f s = true ->
  forallb (fun g => match g with Word w => string_forallb f w | Sep _ => true end)
          (segs s) = true.
Proof.
  induction s as [|c r IH]; intros H; [reflexivity|].
  simpl in H. apply andb_true_iff in H. destruct H as [Hc Hr].
  specialize (IH Hr). simpl. destruct (is_word c).
  - destruct (segs r) as [|[w|c2] t]; simpl in *; rewrite Hc; simpl; exact IH.
  - simpl. exact IH.
Qed.

(** A string of characters that no code is made of holds no code. *)
Lemma inert_of_chars (f : ascii -> bool) (codes : list string) (s : string) :
  forallb (fun code => negb (string_forallb f code)) codes = true ->
  string_forallb f s = true -> inert codes s = true.
Proof.
  intros Hcodes Hs. unfold inert.
  generalize (segs_words_forallb f s Hs).
  induction (segs s) as [|g l IH]; intros H; [reflexivity|].
  simpl in H. apply andb_true_iff in H. destruct H as [Hg Hl].
  simpl. rewrite (IH Hl), andb_true_r.
  destruct g as [w|c]; [|reflexivity].
  apply negb_true_iff. destruct (existsb (String.eqb w) codes) eqn:E; [|reflexivity].
  apply existsb_exists in E. destruct E as [x [Hx Ex]].
  apply String.eqb_eq in Ex. subst x.
  rewrite forallb_forall in Hcodes. specialize (Hcodes w Hx).
  rewrite Hg in Hcodes. discriminate.
Qed.

Lemma span_split (cls content : string) :
  Formatter.span cls content = span_open cls ++ (content ++ "</span>").
Proof.
  unfold Formatter.span, span_open. rewrite !append_assoc. reflexivity.
Qed.

Lemma inert_span (codes : list string) (cls content : string) :
  inert codes (span_open cls) = true ->
  inert codes content = true ->
  inert codes "</span>" = true ->
  inert codes (Formatter.span cls content) = true.
Proof.
  intros H1 H2 H3. unfold inert in *. rewrite span_split.
  rewrite segs_app.
  2:{ unfold span_open. rewrite !last_char_app. reflexivity. }
  rewrite segs_app.
  2:{ apply andb_false_r. }
  rewrite !forallb_app, H1, H2, H3. reflexivity.
Qed.

Lemma inert_numeral (z : Z) : inert token_codes (Z_to_string z) = true.
Proof. apply (inert_of_chars is_num_char); [reflexivity | apply Z_to_string_chars]. Qed.

Lemma inert_ToString (n : Number) : inert token_codes (ToString n) = true.
Proof. destruct n as [|z]; [reflexivity | apply inert_numeral]. Qed.

Lemma inert_slice_last2 (n : Number) :
  inert token_codes (slice_last2 (ToString n)) = true.
Proof.
  destruct n as [|z]; [reflexivity|].
  apply (inert_of_chars is_num_char); [reflexivity|].
  apply string_forallb_substring, Z_to_string_chars.
Qed.

Lemma inert_padStart0 (k : nat) (n : Number) :
  inert token_codes (padStart0 k (ToString n)) = true.
Proof.
  destruct n as [|z].
  - apply (inert_of_chars (fun c => is_num_char c || Ascii.eqb c "N" || Ascii.eqb c "a"));
      [reflexivity|].
    unfold padStart0. rewrite string_forallb_app.
    rewrite string_forallb_repeat; reflexivity.
  - apply (inert_of_chars is_num_char); [reflexivity|].
    unfold padStart0. rewrite string_forallb_app.
    rewrite string_forallb_repeat; [|reflexivity]. apply Z_to_string_chars.
Qed.

Lemma inert_month (h : Host) (long : bool) (date : Number) :
  inert token_codes (toLocale_month h long date) = true.
Proof.
  destruct date as [|t]; [reflexivity|]. unfold toLocale_month, MonthFromTime.
  generalize (DayWithinYear (LocalTime h t)) (InLeapYear (LocalTime h t)).
  intros d leap.
  repeat match goal with
         | |- context [if (d <? ?x)%Z then _ else _] => destruct (d <? x)%Z
         end; destruct long; reflexivity.
Qed.

Lemma inert_weekday (h : Host) (long : bool) (date : Number) :
  inert token_codes (toLocale_weekday h long date) = true.
Proof.
  destruct date as [|t]; [reflexivity|]. unfold toLocale_weekday, WeekDay.
  generalize (Day (LocalTime h t) + 4)%Z. intros x.
  assert (H : (0 <= x mod 7 < 7)%Z) by (apply Z.mod_pos_bound; lia).
  assert (E : (x mod 7 = 0 \/ x mod 7 = 1 \/ x mod 7 = 2 \/ x mod 7 = 3
               \/ x mod 7 = 4 \/ x mod 7 = 5 \/ x mod 7 = 6)%Z) by lia.
  destruct E as [E|[E|[E|[E|[E|[E|E]]]]]]; rewrite E; destruct long; reflexivity.
Qed.

Lemma token_codes_keys (h : Host) (date : Number) :
  map fst (Formatter.tokens h date) = token_codes.
Proof. reflexivity. Qed.

Lemma tokens_inert (h : Host) (date : Number) (lit : string) (t : Formatter.Token) :
  In lit token_codes -> Formatter.get lit (Formatter.tokens h date) = Some t ->
  inert token_codes (token_span t) = true.
Proof.
  intros Hin.
  repeat (destruct Hin as [<-|Hin]; [try (intros Hg; injection Hg as <-)|]);
    try contradiction;
    unfold token_span; cbn [Formatter.class Formatter.value Value_to_string];
    (apply inert_span; [reflexivity | | reflexivity]).
  all: first [ apply inert_ToString | apply inert_slice_last2 | apply inert_padStart0
             | apply inert_month | apply inert_weekday ].
Qed.

(** The passes of [formatDate] are one pass over the words of the template,
    whatever the template and the date. *)
Lemma substitute_single_pass (h : Host) (date : Number) (format : string) :
  Formatter.substitute (Formatter.tokens h date) format
  = single_pass (Formatter.tokens h date) format.
Proof.
  apply substitute_single_pass_table.
  - intros lit Hin. rewrite token_codes_keys in Hin.
    repeat (destruct Hin as [<-|Hin]; [reflexivity|]). contradiction.
  - intros lit t Hin. rewrite token_codes_keys in *. apply tokens_inert. exact Hin.
Qed.

(** ** The replacement texts hold no replacement pattern *)

Lemma string_forallb_impl (f g : ascii -> bool) (s : string) :
  (forall c, f c = true -> g c = true) ->
  string_forallb f s = true -> string_forallb g s = true.
Proof.
  intros H. induction s as [|c r IH]; simpl; [reflexivity|].
  intros E. apply andb_true_iff in E. destruct E as [Ec Er].
  rewrite (H c Ec), (IH Er). reflexivity.
Qed.

Lemma no_dollar_numeral (z : Z) : no_dollar (Z_to_string z) = true.
Proof.
  apply (string_forallb_impl is_num_char); [|apply Z_to_string_chars].
  intros c Hc. unfold is_num_char, is_digit in Hc.
  destruct (Ascii.eqb_spec c "$") as [->|]; [discriminate Hc | reflexivity].
Qed.

Lemma no_dollar_ToString (n : Number) : no_dollar (ToString n) = true.
Proof. destruct n; [reflexivity | apply no_dollar_numeral]. Qed.

Lemma no_dollar_span (cls content : string) :
  no_dollar (Formatter.span cls content) = no_dollar cls && no_dollar content.
Proof.
  unfold no_dollar, Formatter.span. rewrite !string_forallb_app. simpl.
  rewrite !andb_true_r. reflexivity.
Qed.

Lemma get_Some_In {A : Type} (k : string) (o : list (string * A)) (v : A) :
  Formatter.get k o = Some v -> In (k, v) o.
Proof.
  induction o as [|[k' v'] o IH]; simpl; [discriminate|].
  destruct (String.eqb_spec k' k) as [->|_]; [intros [= ->]; left; reflexivity|].
  intros H. right. apply IH, H.
Qed.

(** The markup of every token is free of [$]: [replace] inserts it as it
    stands. *)
Lemma token_spans_no_dollar (h : Host) (date : Number) (lit : string)
      (t : Formatter.Token) :
  Formatter.get lit (Formatter.tokens h date) = Some t ->
  no_dollar (token_span t) = true.
Proof.
  intros H. apply get_Some_In in H. unfold Formatter.tokens in H.
  repeat (destruct H as [H|H]; [injection H as _ <-|]); try contradiction;
    unfold token_span; cbn [Formatter.class Formatter.value Value_to_string];
    rewrite no_dollar_span; apply andb_true_iff; (split; [reflexivity|]).
  - apply no_dollar_ToString.
  - apply string_forallb_substring, no_dollar_ToString.
  - destruct date as [|tv]; [reflexivity|]. unfold toLocale_month, MonthFromTime.
    generalize (DayWithinYear (LocalTime h tv)) (InLeapYear (LocalTime h tv)).
    intros d leap.
    repeat match goal with
           | |- context [if (d <? ?x)%Z then _ else _] => destruct (d <? x)%Z
           end; reflexivity.
  - destruct date as [|tv]; [reflexivity|]. unfold toLocale_month, MonthFromTime.
    generalize (DayWithinYear (LocalTime h tv)) (InLeapYear (LocalTime h tv)).
    intros d leap.
    repeat match goal with
           | |- context [if (d <? ?x)%Z then _ else _] => destruct (d <? x)%Z
           end; reflexivity.
  - unfold no_dollar, padStart0. rewrite string_forallb_app.
    rewrite string_forallb_repeat by reflexivity. apply no_dollar_ToString.
  - apply no_dollar_ToString.
  - destruct date as [|tv]; [reflexivity|]. unfold toLocale_weekday, WeekDay.
    generalize (Day (LocalTime h tv) + 4)%Z. intros x.
    assert (B : (0 <= x mod 7 < 7)%Z) by (apply Z.mod_pos_bound; lia).
    assert (E : (x mod 7 = 0 \/ x mod 7 = 1 \/ x mod 7 = 2 \/ x mod 7 = 3
                 \/ x mod 7 = 4 \/ x mod 7 = 5 \/ x mod 7 = 6)%Z) by lia.
    destruct E as [E|[E|[E|[E|[E|[E|E]]]]]]; rewrite E; reflexivity.
  - destruct date as [|tv]; [reflexivity|]. unfold toLocale_weekday, WeekDay.
    generalize (Day (LocalTime h tv) + 4)%Z. intros x.
    assert (B : (0 <= x mod 7 < 7)%Z) by (apply Z.mod_pos_bound; lia).
    assert (E : (x mod 7 = 0 \/ x mod 7 = 1 \/ x mod 7 = 2 \/ x mod 7 = 3
                 \/ x mod 7 = 4 \/ x mod 7 = 5 \/ x mod 7 = 6)%Z) by lia.
    destruct E as [E|[E|[E|[E|[E|[E|E]]]]]]; rewrite E; reflexivity.
  - unfold no_dollar, padStart0. rewrite string_forallb_app.
    rewrite string_forallb_repeat by reflexivity. apply no_dollar_ToString.
  - apply no_dollar_ToString.
Qed.

(** ** Claims on the substitution *)

Lemma insert_sorted_longest_first (x : string) (l : list string) :
  StronglySorted not_shorter l ->
  StronglySorted not_shorter
    (Formatter.insert_sorted (fun a b => Formatter.len b - Formatter.len a)%Z x l).
Proof.
  intros H. induction H as [|y l Hl IH Hy]; simpl.
  - constructor; constructor.
  - unfold Formatter.len.
    destruct (Z.leb_spec (Z.of_nat (String.length y) - Z.of_nat (String.length x)) 0)
      as [Hle|Hgt].
    + constructor; [constructor; assumption|].
      constructor; [unfold not_shorter; lia|].
      rewrite Forall_forall in *. intros z Hz. specialize (Hy z Hz).
      unfold not_shorter in *. lia.
    + constructor; [exact IH|].
      rewrite Forall_forall in *. intros z Hz.
      apply In_insert_sorted in Hz. destruct Hz as [->|Hz].
      * unfold not_shorter. lia.
      * apply Hy, Hz.
Qed.

(** Whatever the table, its keys are taken longest first. *)
Lemma sortedTokens_longest_first (toks : list (string * Formatter.Token)) :
  StronglySorted not_shorter (Formatter.sortedTokens toks).
Proof.
  unfold Formatter.sortedTokens. induction (map fst toks) as [|x l IH]; simpl.
  - constructor.
  - apply insert_sorted_longest_first, IH.
Qed.


(** The fields of a date depend on its day only. *)
Lemma fields_of_day (t1 t2 : Z) :
  Day t1 = Day t2 ->
  YearFromTime t1 = YearFromTime t2 /\ MonthFromTime t1 = MonthFromTime t2
  /\ DateFromTime t1 = DateFromTime t2 /\ WeekDay t1 = WeekDay t2.
Proof.
  intros E.
  unfold DateFromTime, MonthFromTime, WeekDay, DayWithinYear, InLeapYear, YearFromTime.
  rewrite E. repeat split; reflexivity.
Qed.

(** Two dates that fall on the same local day have the same token table. *)
Lemma tokens_of_local_day (h h' : Host) (tv tv' : Z) :
  Day (LocalTime h tv) = Day (LocalTime h' tv') ->
  Formatter.tokens h (Num tv) = Formatter.tokens h' (Num tv').
Proof.
  intros E. destruct (fields_of_day _ _ E) as [Hy [Hm [Hd Hw]]].
  unfold Formatter.tokens, getFullYear, getMonth, getDate, toLocale_month,
    toLocale_weekday.
  rewrite Hy, Hm, Hd, Hw. reflexivity.
Qed.

(** C3.  The codes are taken longest first, in the order listed; the
    passes replace the words
    of the template that are codes, whole, and leave everything else, as
    one pass over the words does, whatever the template; and for a date
    whose local day is 2025-12-09 the template [YYYY-MM-DD] becomes the
    spans of 2025, 12 and 09 with the hyphens between them. *)
Theorem C3_tokens_whole_and_longest_first (h : Host) (date : Number)
        (format : string) :
  Formatter.sortedTokens (Formatter.tokens h date)
  = ["YYYY"; "MMMM"; "dddd"; "MMM"; "ddd"; "YY"; "MM"; "DD"; "M"; "D"]
  /\ StronglySorted not_shorter (Formatter.sortedTokens (Formatter.tokens h date))
  /\ Formatter.substitute (Formatter.tokens h date) format
     = single_pass (Formatter.tokens h date) format
  /\ (forall tv, date = Num tv -> Day (LocalTime h tv) = MakeDay 2025 11 9 ->
                 Formatter.substitute (Formatter.tokens h date) "YYYY-MM-DD"
                 = Formatter.span "year-full" "2025" ++ "-"
                   ++ Formatter.span "month-numeric" "12" ++ "-"
                   ++ Formatter.span "day-numeric" "09").
Proof.
  split; [reflexivity|]. split; [apply sortedTokens_longest_first|].
  split; [apply substitute_single_pass|].
  intros tv -> Hday.
  rewrite (tokens_of_local_day h Examples.utc tv 1765238400000%Z);
    [vm_compute; reflexivity | rewrite Hday; vm_compute; reflexivity].
Qed.

Lemma C3_tokens_whole_and_longest_first_witness :
  let h := Examples.new_york in
  let date := new_Date h "December 9, 2025" in
  date = Num 1765256400000
  /\ Day (LocalTime h 1765256400000) = MakeDay 2025 11 9
  /\ Formatter.substitute (Formatter.tokens h date) "YYYY-MM-DD"
     = Formatter.span "year-full" "2025" ++ "-"
       ++ Formatter.span "month-numeric" "12" ++ "-"
       ++ Formatter.span "day-numeric" "09".
Proof.
  intros h date.
  assert (E : date = Num 1765256400000) by (vm_compute; reflexivity).
  assert (D : Day (LocalTime h 1765256400000) = MakeDay 2025 11 9)
    by (vm_compute; reflexivity).
  split; [exact E|]. split; [exact D|].
  destruct (C3_tokens_whole_and_longest_first h date "YYYY-MM-DD") as [_ [_ [_ H]]].
  exact (H 1765256400000%Z E D).
Defined.

(** Words that only contain a code, or touch a word character, are not
    replaced; a code between other characters is. *)
Example whole_words_only :
  Formatter.substitute (Formatter.tokens Examples.utc (Num 1765238400000))
                       "YYYYMMDD D_M Dec D.M.YY"
  = "YYYYMMDD D_M Dec " ++ Formatter.span "day-numeric" "9" ++ "."
    ++ Formatter.span "month-numeric" "12" ++ "."
    ++ Formatter.span "year-short" "25".
Proof. vm_compute; reflexivity. Qed.

(** ** The formatter's callback *)

Section FormatFacts.
Variables (h : Host) (name format : string).

(** On text that is not a date the callback returns at once. *)
Lemma format_element_unparseable (el : node) :
  new_Date h (trim (textContent el)) = NaN ->
  Formatter.format_element h name format el = Ok None.
Proof. intros E; unfold Formatter.format_element; rewrite E; reflexivity. Qed.

(** On a date it rewrites the element: the [datetime] attribute of a
    TIME element, then the content. *)
Lemma format_element_parseable (t : string) (a : list (string * string))
      (cs : list node) (tv : Z) :
  new_Date h (trim (textContent (Element t a cs))) = Num tv ->
  Formatter.format_element h name format (Element t a cs)
  = Ok (Some (Element t
                (if String.eqb (toUpperCase t) "TIME"
                 then set_assoc "datetime" (split_T_first (iso_string tv)) a
                 else a)
                (parseFragment h
                   (Formatter.span name
                      (Formatter.substitute (Formatter.tokens h (Num tv)) format))))).
Proof.
  intros E; unfold Formatter.format_element; rewrite E; simpl.
  destruct (String.eqb (toUpperCase t) "TIME"); reflexivity.
Qed.

(** The callback never throws. *)
Lemma format_element_total (el : node) :
  exists r, Formatter.format_element h name format el = Ok r.
Proof.
  unfold Formatter.format_element.
  destruct (new_Date h (trim (textContent el))) as [|tv]; simpl; [eauto|].
  destruct (String.eqb (tagName el) "TIME"); simpl; eauto.
Qed.

Lemma visit_total (st : Formatter.Heap) (i : nat) :
  exists st', Formatter.visit h name format st i = Ok st'.
Proof.
  unfold Formatter.visit.
  destruct (nth_error (Formatter.locs st) i) as [[k p]|]; [|eauto].
  destruct (nth_error (Formatter.trees st) k) as [tree|]; [|eauto].
  destruct (lookup tree p) as [el|]; [|eauto].
  destruct (format_element_total el) as [[el'|] ->]; simpl; eauto.
Qed.

End FormatFacts.

Lemma formatDate_total (h : Host) (data : Formatter.Config) (doc : node) :
  exists doc', Formatter.formatDate h data doc = Ok doc'.
Proof.
  unfold Formatter.formatDate.
  destruct (forEach_invariant
              (Formatter.visit h (Formatter.name data) (Formatter.format data))
              (fun _ => True)) with
      (l := seq 0 (List.length (querySelectorAll (Formatter.selector data) doc)))
      (s := {| Formatter.trees := [doc];
               Formatter.locs := map (pair O)
                                   (querySelectorAll (Formatter.selector data) doc) |})
    as [st [E _]].
  - intros s x _. destruct (visit_total h (Formatter.name data) (Formatter.format data) s x)
      as [s' E]. eauto.
  - exact I.
  - rewrite E; simpl; eauto.
Qed.

(** ** The markup and its tree *)

Lemma span_is_span_markup (cls content : string) :
  Formatter.span cls content = span_markup cls content.
Proof. reflexivity. Qed.

(** The classes of the table are those of [semantic_classes]. *)
Lemma tokens_classes (h : Host) (date : Number) (w : string) :
  option_map Formatter.class (Formatter.get w (Formatter.tokens h date))
  = Formatter.get w semantic_classes.
Proof.
  unfold Formatter.tokens, semantic_classes. cbn [Formatter.get].
  repeat match goal with
         | |- context [if String.eqb ?k w then _ else _] => destruct (String.eqb k w)
         end; reflexivity.
Qed.

Lemma render_seg_markup (h : Host) (date : Number) (g : seg) :
  render_seg (Formatter.tokens h date) g = markup_of_seg (Formatter.tokens h date) g.
Proof.
  destruct g as [w|c]; [|reflexivity]. cbn [render_seg markup_of_seg].
  rewrite <- (tokens_classes h date w).
  destruct (Formatter.get w (Formatter.tokens h date)) as [t|]; reflexivity.
Qed.

Lemma single_pass_markup (h : Host) (date : Number) (format : string) :
  single_pass (Formatter.tokens h date) format
  = template_markup (Formatter.tokens h date) format.
Proof.
  unfold single_pass, template_markup. f_equal. apply map_ext.
  intros g. apply render_seg_markup.
Qed.

Lemma escape_plain (attribute : bool) (s : string) :
  plain s = true -> escape attribute s = s.
Proof.
  unfold plain. induction s as [|c r IH]; [reflexivity|].
  cbn [string_forallb escape]. intros H. apply andb_true_iff in H.
  destruct H as [Hc Hr]. rewrite (IH Hr).
  apply negb_true_iff in Hc. unfold is_markup_char in Hc.
  repeat (apply orb_false_iff in Hc; destruct Hc as [Hc ?]).
  repeat match goal with E : (_ =? _)%N = false |- _ => rewrite E; clear E end.
  rewrite andb_false_r. reflexivity.
Qed.

Lemma plain_app (a b : string) : plain (a ++ b) = plain a && plain b.
Proof. apply string_forallb_app. Qed.

(** The words and the characters of a plain string are plain. *)
Lemma plain_segs (s : string) :
  plain s = true -> forallb (fun g => plain (seg_string g)) (segs s) = true.
Proof.
  induction s as [|c r IH]; [reflexivity|]. unfold plain in *.
  cbn [string_forallb segs]. intros H. apply andb_true_iff in H.
  destruct H as [Hc Hr]. specialize (IH Hr).
  destruct (is_word c).
  - destruct (segs r) as [|[w|c'] l]; cbn [forallb seg_string string_forallb] in *;
      rewrite ?Hc; try exact IH; reflexivity.
  - cbn [forallb seg_string string_forallb]. rewrite Hc, IH. reflexivity.
Qed.

Lemma plain_numeral (z : Z) : plain (Z_to_string z) = true.
Proof.
  apply (string_forallb_impl is_num_char); [|apply Z_to_string_chars].
  intros c Hc. unfold is_num_char, is_digit in Hc.
  destruct c as [[] [] [] [] [] [] [] []]; try discriminate Hc; reflexivity.
Qed.

Lemma plain_ToString (n : Number) : plain (ToString n) = true.
Proof. destruct n; [reflexivity | apply plain_numeral]. Qed.

(** The value of every token is plain. *)
Lemma token_values_plain (h : Host) (date : Number) (w : string)
      (t : Formatter.Token) :
  Formatter.get w (Formatter.tokens h date) = Some t ->
  plain (Value_to_string (Formatter.value t)) = true.
Proof.
  intros H. apply get_Some_In in H. unfold Formatter.tokens in H.
  repeat (destruct H as [H|H]; [injection H as _ <-|]); try contradiction;
    cbn [Formatter.value Value_to_string].
  - apply plain_ToString.
  - apply string_forallb_substring, plain_ToString.
  - destruct date as [|tv]; [reflexivity|]. unfold toLocale_month, MonthFromTime.
    generalize (DayWithinYear (LocalTime h tv)) (InLeapYear (LocalTime h tv)).
    intros d leap.
    repeat match goal with
           | |- context [if (d <? ?x)%Z then _ else _] => destruct (d <? x)%Z
           end; reflexivity.
  - destruct date as [|tv]; [reflexivity|]. unfold toLocale_month, MonthFromTime.
    generalize (DayWithinYear (LocalTime h tv)) (InLeapYear (LocalTime h tv)).
    intros d leap.
    repeat match goal with
           | |- context [if (d <? ?x)%Z then _ else _] => destruct (d <? x)%Z
           end; reflexivity.
  - unfold plain, padStart0. rewrite string_forallb_app.
    rewrite string_forallb_repeat by reflexivity. apply plain_ToString.
  - apply plain_ToString.
  - destruct date as [|tv]; [reflexivity|]. unfold toLocale_weekday, WeekDay.
    generalize (Day (LocalTime h tv) + 4)%Z. intros x.
    assert (B : (0 <= x mod 7 < 7)%Z) by (apply Z.mod_pos_bound; lia).
    assert (E : (x mod 7 = 0 \/ x mod 7 = 1 \/ x mod 7 = 2 \/ x mod 7 = 3
                 \/ x mod 7 = 4 \/ x mod 7 = 5 \/ x mod 7 = 6)%Z) by lia.
    destruct E as [E|[E|[E|[E|[E|[E|E]]]]]]; rewrite E; reflexivity.
  - destruct date as [|tv]; [reflexivity|]. unfold toLocale_weekday, WeekDay.
    generalize (Day (LocalTime h tv) + 4)%Z. intros x.
    assert (B : (0 <= x mod 7 < 7)%Z) by (apply Z.mod_pos_bound; lia).
    assert (E : (x mod 7 = 0 \/ x mod 7 = 1 \/ x mod 7 = 2 \/ x mod 7 = 3
                 \/ x mod 7 = 4 \/ x mod 7 = 5 \/ x mod 7 = 6)%Z) by lia.
    destruct E as [E|[E|[E|[E|[E|[E|E]]]]]]; rewrite E; reflexivity.
  - unfold plain, padStart0. rewrite string_forallb_app.
    rewrite string_forallb_repeat by reflexivity. apply plain_ToString.
  - apply plain_ToString.
Qed.

Lemma semantic_classes_plain (w cls : string) :
  Formatter.get w semantic_classes = Some cls -> plain cls = true.
Proof.
  intros H. apply get_Some_In in H. unfold semantic_classes in H.
  repeat (destruct H as [H|H]; [injection H as _ <-; reflexivity|]). contradiction.
Qed.

Lemma innerHTML_app (l1 l2 : list node) :
  innerHTML (l1 ++ l2) = innerHTML l1 ++ innerHTML l2.
Proof.
  induction l1 as [|c l1 IH]; [reflexivity|]. cbn [app innerHTML].
  rewrite IH, append_assoc. reflexivity.
Qed.

Lemma outerHTML_Element (t : string) (a : list (string * string)) (cs : list node) :
  outerHTML (Element t a cs)
  = "<" ++ t ++ flatten (map attribute_markup a) ++ ">" ++ innerHTML cs
    ++ "</" ++ t ++ ">".
Proof.
  assert (E : (fix go (l : list node) : string :=
                 match l with
                 | [] => EmptyString
                 | c :: r => outerHTML c ++ go r
                 end) cs = innerHTML cs).
  { induction cs as [|c r IH]; [reflexivity|]. cbn [innerHTML]. rewrite IH. reflexivity. }
  cbn [outerHTML]. rewrite E. reflexivity.
Qed.

(** The serialization of a span with a plain class is its markup. *)
Lemma outerHTML_span (cls : string) (cs : list node) :
  plain cls = true ->
  outerHTML (Element "span" [("class", cls)] cs) = span_markup cls (innerHTML cs).
Proof.
  intros H. rewrite outerHTML_Element. unfold span_markup, attribute_markup.
  cbn [map flatten fst snd]. rewrite (escape_plain true cls H).
  cbn [append]. rewrite !append_assoc. cbn [append]. reflexivity.
Qed.

Lemma innerHTML_text_node (s : string) :
  plain s = true -> innerHTML (text_node s) = s.
Proof.
  intros H. unfold text_node. destruct (String.eqb_spec s "") as [->|_]; [reflexivity|].
  cbn [innerHTML outerHTML]. rewrite (escape_plain false s H). apply append_nil_r.
Qed.

(** The serialization of the nodes of a template is its markup. *)
Lemma innerHTML_template_nodes (h : Host) (date : Number) (l : list seg) :
  forallb (fun g => plain (seg_string g)) l = true ->
  forall pending,
    plain pending = true ->
    innerHTML (template_nodes (Formatter.tokens h date) pending l)
    = pending ++ flatten (map (markup_of_seg (Formatter.tokens h date)) l).
Proof.
  induction l as [|g l IH]; intros Hl pending Hp.
  - cbn [template_nodes map flatten]. rewrite append_nil_r.
    apply innerHTML_text_node, Hp.
  - cbn [forallb] in Hl. apply andb_true_iff in Hl. destruct Hl as [Hg Hl].
    destruct g as [w|c]; cbn [template_nodes map flatten markup_of_seg seg_string] in *.
    + destruct (Formatter.get w semantic_classes) as [cls|] eqn:Ec.
      * destruct (Formatter.get w (Formatter.tokens h date)) as [t|] eqn:Et.
        -- rewrite innerHTML_app. cbn [innerHTML].
           rewrite (innerHTML_text_node pending Hp).
           rewrite (outerHTML_span cls _ (semantic_classes_plain w cls Ec)).
           rewrite (innerHTML_text_node _ (token_values_plain h date w t Et)).
           rewrite (IH Hl "" eq_refl). reflexivity.
        -- rewrite (IH Hl (pending ++ w)) by (rewrite plain_app, Hp, Hg; reflexivity).
           apply append_assoc.
      * rewrite (IH Hl (pending ++ w)) by (rewrite plain_app, Hp, Hg; reflexivity).
        apply append_assoc.
    + rewrite (IH Hl (pending ++ String c "")) by (rewrite plain_app, Hp, Hg; reflexivity).
      apply append_assoc.
Qed.

Lemma wrapper_markup_outerHTML (h : Host) (date : Number) (name format : string) :
  plain name = true -> plain format = true ->
  wrapper_markup (Formatter.tokens h date) name format
  = outerHTML (wrapper_span (Formatter.tokens h date) name format).
Proof.
  intros Hn Hf. unfold wrapper_markup, wrapper_span, template_markup.
  rewrite (outerHTML_span name _ Hn).
  rewrite (innerHTML_template_nodes h date (segs format) (plain_segs format Hf) "" eq_refl).
  reflexivity.
Qed.

Lemma normal_Element (t : string) (a : list (string * string)) (cs : list node) :
  normal (Element t a cs) = separated false cs && all_normal cs.
Proof. reflexivity. Qed.

Lemma text_node_normal (s : string) :
  separated false (text_node s) = true /\ all_normal (text_node s) = true.
Proof.
  unfold text_node. destruct (String.eqb s "") eqn:E; [split; reflexivity|].
  split; [reflexivity|]. cbn. rewrite E. reflexivity.
Qed.

(** The nodes of a template are as a parser builds them. *)
Lemma template_nodes_normal (toks : list (string * Formatter.Token)) (l : list seg) :
  forall pending,
    separated false (template_nodes toks pending l) = true
    /\ all_normal (template_nodes toks pending l) = true.
Proof.
  induction l as [|g l IH]; intros pending; cbn [template_nodes].
  - apply text_node_normal.
  - destruct g as [w|c]; [|apply IH].
    destruct (Formatter.get w semantic_classes) as [cls|]; [|apply IH].
    destruct (Formatter.get w toks) as [t|]; [|apply IH].
    destruct (IH "") as [S A].
    destruct (text_node_normal (Value_to_string (Formatter.value t))) as [S1 A1].
    assert (N : normal (Element "span" [("class", cls)]
                          (text_node (Value_to_string (Formatter.value t)))) = true)
      by (rewrite normal_Element, S1, A1; reflexivity).
    unfold text_node at 1 3. destruct (String.eqb pending "") eqn:E.
    + split.
      * cbn [app separated is_text andb negb]. exact S.
      * change (normal (Element "span" [("class", cls)]
                          (text_node (Value_to_string (Formatter.value t))))
                && all_normal (template_nodes toks "" l) = true).
        rewrite N. exact A.
    + split.
      * cbn [app separated is_text andb negb]. exact S.
      * change (negb (String.eqb pending "")
                && (normal (Element "span" [("class", cls)]
                              (text_node (Value_to_string (Formatter.value t))))
                    && all_normal (template_nodes toks "" l)) = true).
        rewrite E, N. exact A.
Qed.

Lemma wrapper_span_normal (toks : list (string * Formatter.Token))
      (name format : string) :
  normal (wrapper_span toks name format) = true.
Proof.
  unfold wrapper_span. rewrite normal_Element.
  destruct (template_nodes_normal toks (segs format) "") as [-> ->]. reflexivity.
Qed.

(** C4.  The callback on an element whose text is a date replaces the
    whole content of the element by what the parser builds from one
    string: the markup of a span of the wrapper class around the
    template, in which every word that is a token code has become the
    markup of a span with the class of that code and the value of the
    token, and every other character is kept.  When neither the template
    nor the wrapper class holds a markup character, that string is the
    serialization of one tree, the span of the wrapper class with the
    token spans and the text between them for children, a tree as a
    parser builds it; so for a parser that reads this serialization back
    the content is that one span.  For a date whose local day is
    2025-12-09 the template [dddd, MMMM D, YYYY] gives the spans of
    Tuesday, December, 9 and 2025 in the wrapper. *)
Theorem C4_content_is_the_markup_of_one_wrapper (h : Host) (name format : string)
        (t : string) (a : list (string * string)) (cs : list node) (tv : Z) :
  new_Date h (trim (textContent (Element t a cs))) = Num tv ->
  (exists a',
      Formatter.format_element h name format (Element t a cs)
      = Ok (Some (Element t a'
                    (parseFragment h
                       (wrapper_markup (Formatter.tokens h (Num tv)) name format))))
      /\ (plain name = true -> plain format = true ->
          parseFragment h
            (outerHTML (wrapper_span (Formatter.tokens h (Num tv)) name format))
          = [wrapper_span (Formatter.tokens h (Num tv)) name format] ->
          Formatter.format_element h name format (Element t a cs)
          = Ok (Some (Element t a'
                        [wrapper_span (Formatter.tokens h (Num tv)) name format]))))
  /\ (plain name = true -> plain format = true ->
      wrapper_markup (Formatter.tokens h (Num tv)) name format
      = outerHTML (wrapper_span (Formatter.tokens h (Num tv)) name format)
      /\ normal (wrapper_span (Formatter.tokens h (Num tv)) name format) = true)
  /\ (Day (LocalTime h tv) = MakeDay 2025 11 9 ->
      wrapper_markup (Formatter.tokens h (Num tv)) name "dddd, MMMM D, YYYY"
      = span_markup name
          (span_markup "weekday-long" "Tuesday" ++ ", "
           ++ span_markup "month-long" "December" ++ " "
           ++ span_markup "day-numeric" "9" ++ ", "
           ++ span_markup "year-full" "2025")
      /\ wrapper_span (Formatter.tokens h (Num tv)) name "dddd, MMMM D, YYYY"
         = Element "span" [("class", name)]
             [Element "span" [("class", "weekday-long")] [Text "Tuesday"]; Text ", ";
              Element "span" [("class", "month-long")] [Text "December"]; Text " ";
              Element "span" [("class", "day-numeric")] [Text "9"]; Text ", ";
              Element "span" [("class", "year-full")] [Text "2025"]]).
Proof.
  intros E.
  assert (F : Formatter.format_element h name format (Element t a cs)
              = Ok (Some (Element t
                            (if String.eqb (toUpperCase t) "TIME"
                             then set_assoc "datetime" (split_T_first (iso_string tv)) a
                             else a)
                            (parseFragment h
                               (wrapper_markup (Formatter.tokens h (Num tv))
                                               name format))))).
  { rewrite (format_element_parseable h name format t a cs tv E).
    rewrite substitute_single_pass, single_pass_markup. reflexivity. }
  split; [|split].
  - eexists. split; [exact F|].
    intros Hn Hf Hp. rewrite F.
    rewrite (wrapper_markup_outerHTML h (Num tv) name format Hn Hf), Hp. reflexivity.
  - intros Hn Hf. split; [apply wrapper_markup_outerHTML; assumption|].
    apply wrapper_span_normal.
  - intros Hday. unfold wrapper_markup, wrapper_span.
    rewrite (tokens_of_local_day h Examples.utc tv 1765238400000%Z)
      by (rewrite Hday; vm_compute; reflexivity).
    split; [f_equal; vm_compute; reflexivity | f_equal; vm_compute; reflexivity].
Qed.

Lemma C4_content_is_the_markup_of_one_wrapper_witness :
  let h := Examples.new_york in
  let name := "pretty-date" in
  let format := "dddd, MMMM D, YYYY" in
  let cs := [Text " December 9, 2025 "] in
  let tv := 1765256400000%Z in
  let wrapper :=
    Element "span" [("class", "pretty-date")]
      [Element "span" [("class", "weekday-long")] [Text "Tuesday"]; Text ", ";
       Element "span" [("class", "month-long")] [Text "December"]; Text " ";
       Element "span" [("class", "day-numeric")] [Text "9"]; Text ", ";
       Element "span" [("class", "year-full")] [Text "2025"]] in
  new_Date h (trim (textContent (Element "time" [] cs))) = Num tv
  /\ Day (LocalTime h tv) = MakeDay 2025 11 9
  /\ plain name = true /\ plain format = true
  /\ wrapper_span (Formatter.tokens h (Num tv)) name format = wrapper
  /\ parseFragment h (outerHTML wrapper) = [wrapper]
  /\ wrapper_markup (Formatter.tokens h (Num tv)) name format = outerHTML wrapper
  /\ normal wrapper = true
  /\ exists a',
       Formatter.format_element h name format (Element "time" [] cs)
       = Ok (Some (Element "time" a' [wrapper])).
Proof.
  intros h name format cs tv wrapper.
  assert (E : new_Date h (trim (textContent (Element "time" [] cs))) = Num tv)
    by (vm_compute; reflexivity).
  assert (D : Day (LocalTime h tv) = MakeDay 2025 11 9) by (vm_compute; reflexivity).
  assert (Hn : plain name = true) by reflexivity.
  assert (Hf : plain format = true) by reflexivity.
  destruct (C4_content_is_the_markup_of_one_wrapper h name format "time" [] cs tv E)
    as [[a' [_ H1]] [H2 H3]].
  destruct (H3 D) as [_ W]. fold wrapper in W.
  destruct (H2 Hn Hf) as [M N]. change format with "dddd, MMMM D, YYYY" in M, N, H1.
  rewrite W in M, N, H1.
  assert (P : parseFragment h (outerHTML wrapper) = [wrapper])
    by (vm_compute; reflexivity).
  split; [exact E|]. split; [exact D|]. split; [exact Hn|]. split; [exact Hf|].
  split; [exact W|]. split; [exact P|]. split; [exact M|]. split; [exact N|].
  exists a'. exact (H1 Hn Hf P).
Defined.

(** C4, a template with markup of its own: the end tag of the template
    closes the wrapper, and the span of the token stands beside the
    wrapper, not in it. *)
Lemma C4_markup_in_the_template_counterexample :
  Formatter.formatDate Examples.utc
    {| Formatter.selector := Examples.post_date_time;
       Formatter.name := "pretty-date"; Formatter.format := "</span>D" |}
    (Examples.post [] "December 9, 2025")
  = Ok (Element "div" [("class", "post-date")]
          [Element "time" [("datetime", "2025-12-09")]
             [Element "span" [("class", "pretty-date")] [];
              Element "span" [("class", "day-numeric")] [Text "9"]]]).
Proof. vm_compute; reflexivity. Qed.

(** The example of the specification from end to end, in three zones: the
    content is the same; the [datetime] written east of UTC is the day
    before. *)
Example pretty_date_example :
  let result (datetime : string) :=
    Element "div" [("class", "post-date")]
      [Element "time" [("datetime", datetime)]
         [Element "span" [("class", "pretty-date")]
            [Element "span" [("class", "weekday-long")] [Text "Tuesday"]; Text ", ";
             Element "span" [("class", "month-long")] [Text "December"]; Text " ";
             Element "span" [("class", "day-numeric")] [Text "9"]; Text ", ";
             Element "span" [("class", "year-full")] [Text "2025"]]]] in
  Formatter.formatDate Examples.utc Examples.pretty_date
    (Examples.post [] "December 9, 2025") = Ok (result "2025-12-09")
  /\ Formatter.formatDate Examples.new_york Examples.pretty_date
       (Examples.post [] "December 9, 2025") = Ok (result "2025-12-09")
  /\ Formatter.formatDate Examples.berlin Examples.pretty_date
       (Examples.post [] "December 9, 2025") = Ok (result "2025-12-08").
Proof. vm_compute; repeat split; reflexivity. Qed.

(** C7.  An element whose trimmed text is not a date is left as it is:
    the callback returns before any write, the state of the loop (the
    document, the removed subtrees, every element) is unchanged, and the
    loop goes on with the next element. *)
Theorem C7_unparseable_text_is_left_untouched (h : Host) (name format : string)
        (el : node) :
  new_Date h (trim (textContent el)) = NaN ->
  Formatter.format_element h name format el = Ok None
  /\ forall (st : Formatter.Heap) (i k : nat) (p : path) (tree : node)
            (rest : list nat),
       nth_error (Formatter.locs st) i = Some (k, p) ->
       nth_error (Formatter.trees st) k = Some tree ->
       lookup tree p = Some el ->
       Formatter.visit h name format st i = Ok st
       /\ forEach (Formatter.visit h name format) (i :: rest) st
          = forEach (Formatter.visit h name format) rest st.
Proof.
  intros E. split; [apply format_element_unparseable, E|].
  intros st i k p tree rest Hi Hk Hl.
  assert (Hv : Formatter.visit h name format st i = Ok st).
  { unfold Formatter.visit. rewrite Hi, Hk, Hl.
    rewrite (format_element_unparseable h name format el E). reflexivity. }
  split; [exact Hv|]. simpl. rewrite Hv. reflexivity.
Qed.

Lemma C7_unparseable_text_is_left_untouched_witness :
  let el := Element "time" [] [Text " TBD "] in
  new_Date Examples.utc (trim (textContent el)) = NaN
  /\ (Formatter.format_element Examples.utc "pretty-date" "YYYY" el = Ok None
      /\ forall (st : Formatter.Heap) (i k : nat) (p : path) (tree : node)
                (rest : list nat),
           nth_error (Formatter.locs st) i = Some (k, p) ->
           nth_error (Formatter.trees st) k = Some tree ->
           lookup tree p = Some el ->
           Formatter.visit Examples.utc "pretty-date" "YYYY" st i = Ok st
           /\ forEach (Formatter.visit Examples.utc "pretty-date" "YYYY") (i :: rest) st
              = forEach (Formatter.visit Examples.utc "pretty-date" "YYYY") rest st).
Proof.
  intros el. split; [reflexivity|].
  apply (C7_unparseable_text_is_left_untouched Examples.utc "pretty-date" "YYYY" el).
  reflexivity.
Defined.

(** The whole run on a document whose only match reads "TBD". *)
Example unparseable_text_example :
  Formatter.formatDate Examples.utc Examples.pretty_date (Examples.post [] "TBD")
  = Ok (Examples.post [] "TBD").
Proof. vm_compute; reflexivity. Qed.

(** When the callback rewrites the element [el] at path [p] of the tree
    [k], the element keeps its name; its content becomes the parsed
    markup; its attributes are unchanged unless its tag name is TIME, in
    which case [datetime] is set to the date part of [toISOString] and
    every other attribute is unchanged; every node of the tree that is
    not [el] or below it keeps its name and attributes, and the nodes
    beside [p] are unchanged altogether; every other tree is unchanged. *)
Lemma visit_changes_only_the_element (h : Host) (name format : string)
        (st : Formatter.Heap) (i k : nat) (p : path) (tree : node)
        (t : string) (a : list (string * string)) (cs : list node) (tv : Z) :
  nth_error (Formatter.locs st) i = Some (k, p) ->
  nth_error (Formatter.trees st) k = Some tree ->
  lookup tree p = Some (Element t a cs) ->
  new_Date h (trim (textContent (Element t a cs))) = Num tv ->
  exists (st' : Formatter.Heap) (tree' : node) (a' : list (string * string)),
    Formatter.visit h name format st i = Ok st'
    /\ nth_error (Formatter.trees st') k = Some tree'
    /\ lookup tree' p
       = Some (Element t a'
                 (parseFragment h
                    (Formatter.span name
                       (Formatter.substitute (Formatter.tokens h (Num tv)) format))))
    /\ a' = (if String.eqb (tagName (Element t a cs)) "TIME"
             then set_assoc "datetime" (split_T_first (iso_string tv)) a
             else a)
    /\ (forall key, key <> "datetime" -> assoc key a' = assoc key a)
    /\ (forall q, ~ is_prefix p q ->
                  option_map own_data (lookup tree' q)
                  = option_map own_data (lookup tree q))
    /\ (forall q, ~ is_prefix p q -> ~ is_prefix q p ->
                  lookup tree' q = lookup tree q)
    /\ (forall k', k' <> k -> (k' < List.length (Formatter.trees st))%nat ->
                   nth_error (Formatter.trees st') k'
                   = nth_error (Formatter.trees st) k').
Proof.
  intros Hi Hk Hl Hd.
  pose (a' := if String.eqb (toUpperCase t) "TIME"
              then set_assoc "datetime" (split_T_first (iso_string tv)) a else a).
  pose (el' := Element t a'
                 (parseFragment h
                    (Formatter.span name
                       (Formatter.substitute (Formatter.tokens h (Num tv)) format)))).
  assert (Hk' : (k < List.length (Formatter.trees st))%nat)
    by (apply nth_error_Some; congruence).
  exists {| Formatter.trees :=
              (alter_nth (fun t0 => update (fun _ => el') t0 p) k (Formatter.trees st)
               ++ cs)%list;
            Formatter.locs :=
              map (Formatter.retarget k p (List.length (Formatter.trees st)))
                  (Formatter.locs st) |},
         (update (fun _ => el') tree p), a'.
  split.
  { unfold Formatter.visit. rewrite Hi, Hk, Hl.
    rewrite (format_element_parseable h name format t a cs tv Hd). reflexivity. }
  split.
  { simpl. rewrite nth_error_app1 by (rewrite length_alter_nth; exact Hk').
    rewrite nth_error_alter_nth_same, Hk. reflexivity. }
  split; [apply (lookup_update_same (fun _ => el') tree p _ Hl)|].
  split; [reflexivity|].
  split.
  { intros key Hkey. subst a'.
    destruct (String.eqb (toUpperCase t) "TIME"); [|reflexivity].
    apply assoc_set_assoc_other; exact Hkey. }
  split; [intros q Hq; apply lookup_update_outside; exact Hq|].
  split; [intros q H1 H2; apply lookup_update_beside; assumption|].
  intros k' Hne Hlt. simpl.
  rewrite nth_error_app1 by (rewrite length_alter_nth; exact Hlt).
  apply nth_error_alter_nth_other; congruence.
Qed.

Example visit_changes_only_the_element_example :
  let h := Examples.berlin in
  let name := "pretty-date" in
  let format := "D MMM" in
  let a := [("class", "published")] in
  let cs := [Text "December 9, 2025"] in
  let tree := Element "div" [("class", "post-date")] [Element "time" a cs; Text "x"] in
  let st := {| Formatter.trees := [tree]; Formatter.locs := [(O, [O])] |} in
  let tv := 1765234800000%Z in
  nth_error (Formatter.locs st) O = Some (O, [O])
  /\ nth_error (Formatter.trees st) O = Some tree
  /\ lookup tree [O] = Some (Element "time" a cs)
  /\ new_Date h (trim (textContent (Element "time" a cs))) = Num tv
  /\ exists (st' : Formatter.Heap) (tree' : node) (a' : list (string * string)),
       Formatter.visit h name format st O = Ok st'
       /\ nth_error (Formatter.trees st') O = Some tree'
       /\ lookup tree' [O]
          = Some (Element "time" a'
                    (parseFragment h
                       (Formatter.span name
                          (Formatter.substitute (Formatter.tokens h (Num tv)) format))))
       /\ a' = (if String.eqb (tagName (Element "time" a cs)) "TIME"
                then set_assoc "datetime" (split_T_first (iso_string tv)) a
                else a)
       /\ (forall key, key <> "datetime" -> assoc key a' = assoc key a)
       /\ (forall q, ~ is_prefix [O] q ->
                     option_map own_data (lookup tree' q)
                     = option_map own_data (lookup tree q))
       /\ (forall q, ~ is_prefix [O] q -> ~ is_prefix q [O] ->
                     lookup tree' q = lookup tree q)
       /\ (forall k', k' <> O -> (k' < List.length (Formatter.trees st))%nat ->
                      nth_error (Formatter.trees st') k'
                      = nth_error (Formatter.trees st) k').
Proof.
  intros h name format a cs tree st tv.
  split; [reflexivity|]. split; [reflexivity|]. split; [reflexivity|].
  split; [vm_compute; reflexivity|].
  apply (visit_changes_only_the_element h name format st O O [O] tree
           "time" a cs tv); [reflexivity | reflexivity | reflexivity |].
  vm_compute; reflexivity.
Qed.

(** C8.  The code at [<div class="post-date"><time class="published">December
    9, 2025</time>x</div>] and at the text [January 1, 2025], in a browser
    one hour east of UTC: the text is read as local midnight, the tokens
    show the local date, and the [datetime] attribute is the UTC date of
    that instant, the day before the one shown, 2025-12-08 and 2024-12-31.
    Nothing else changes: the [class] attribute of the element and the
    nodes around it are as they were. *)
Theorem C8_datetime_is_the_day_before_the_date_shown :
  Formatter.formatDate Examples.berlin
    {| Formatter.selector := [Compound [Tag "time"]];
       Formatter.name := "pretty-date"; Formatter.format := "D MMM" |}
    (Element "div" [("class", "post-date")]
       [Element "time" [("class", "published")] [Text "December 9, 2025"]; Text "x"])
  = Ok (Element "div" [("class", "post-date")]
          [Element "time" [("class", "published"); ("datetime", "2025-12-08")]
             [Element "span" [("class", "pretty-date")]
                [Element "span" [("class", "day-numeric")] [Text "9"]; Text " ";
                 Element "span" [("class", "month-short")] [Text "Dec"]]];
           Text "x"])
  /\ Formatter.formatDate Examples.berlin
       {| Formatter.selector := [Compound [Tag "time"]];
          Formatter.name := "pretty-date"; Formatter.format := "D MMM YYYY" |}
       (Element "div" [("class", "post-date")]
          [Element "time" [("class", "published")] [Text "January 1, 2025"]; Text "x"])
     = Ok (Element "div" [("class", "post-date")]
             [Element "time" [("class", "published"); ("datetime", "2024-12-31")]
                [Element "span" [("class", "pretty-date")]
                   [Element "span" [("class", "day-numeric")] [Text "1"]; Text " ";
                    Element "span" [("class", "month-short")] [Text "Jan"]; Text " ";
                    Element "span" [("class", "year-full")] [Text "2025"]]];
              Text "x"]).
Proof. split; vm_compute; reflexivity. Qed.

(** At UTC the [datetime] written is the date shown, and an element that
    is not a TIME gets no attribute. *)
Example rewrite_examples :
  Formatter.formatDate Examples.utc
    {| Formatter.selector := [Compound [Tag "time"]];
       Formatter.name := "pretty-date"; Formatter.format := "D MMM" |}
    (Element "div" [("class", "post-date")]
       [Element "time" [("class", "published")] [Text "December 9, 2025"]; Text "x"])
  = Ok (Element "div" [("class", "post-date")]
          [Element "time" [("class", "published"); ("datetime", "2025-12-09")]
             [Element "span" [("class", "pretty-date")]
                [Element "span" [("class", "day-numeric")] [Text "9"]; Text " ";
                 Element "span" [("class", "month-short")] [Text "Dec"]]];
           Text "x"])
  /\ Formatter.formatDate Examples.berlin
       {| Formatter.selector := [Compound [Class "post-date"]];
          Formatter.name := "pretty-date"; Formatter.format := "D" |}
       (Element "div" [("class", "post-date")] [Text "December 9, 2025"])
     = Ok (Element "div" [("class", "post-date")]
             [Element "span" [("class", "pretty-date")]
                [Element "span" [("class", "day-numeric")] [Text "9"]]]).
Proof. split; vm_compute; reflexivity. Qed.

(** ** The order of a NodeList *)

Lemma ForallOrdPairs_app {A : Type} (R : A -> A -> Prop) (l1 l2 : list A) :
  ForallOrdPairs R l1 -> ForallOrdPairs R l2 ->
  (forall x y, In x l1 -> In y l2 -> R x y) ->
  ForallOrdPairs R (l1 ++ l2).
Proof.
  intros H1 H2 H. induction H1 as [|a l1 Ha H1 IH]; [exact H2|].
  simpl. constructor.
  - apply Forall_app. split; [exact Ha|].
    apply Forall_forall. intros y Hy. apply H; [left; reflexivity | exact Hy].
  - apply IH. intros x y Hx Hy. apply H; [right; exact Hx | exact Hy].
Qed.

Lemma ForallOrdPairs_filter {A : Type} (R : A -> A -> Prop) (f : A -> bool)
      (l : list A) :
  ForallOrdPairs R l -> ForallOrdPairs R (filter f l).
Proof.
  intros H. induction H as [|a l Ha H IH]; [constructor|].
  simpl. destruct (f a); [|exact IH]. constructor; [|exact IH].
  apply Forall_forall. intros y Hy. apply filter_In in Hy.
  rewrite Forall_forall in Ha. apply Ha. tauto.
Qed.

Lemma ForallOrdPairs_nth_error {A : Type} (R : A -> A -> Prop) (l : list A)
      (i j : nat) (x y : A) :
  ForallOrdPairs R l -> (i < j)%nat ->
  nth_error l i = Some x -> nth_error l j = Some y -> R x y.
Proof.
  intros H. revert i j. induction H as [|a l Ha H IH]; intros i j Hij Hi Hj.
  - destruct i; discriminate.
  - destruct j as [|j]; [lia|]. simpl in Hj. destruct i as [|i].
    + simpl in Hi. injection Hi as <-. rewrite Forall_forall in Ha.
      apply Ha. apply nth_error_In with j. exact Hj.
    + simpl in Hi. apply (IH i j); [lia | assumption | assumption].
Qed.

Lemma tree_order_map_cons (i : nat) (l : list path) :
  tree_order l -> tree_order (map (cons i) l).
Proof.
  intros H. induction H as [|a l Ha H IH]; [constructor|].
  simpl. constructor; [|exact IH].
  rewrite Forall_forall in *. intros y Hy. apply in_map_iff in Hy.
  destruct Hy as [y' [<- Hy']]. rewrite is_prefix_cons. apply Ha, Hy'.
Qed.

Lemma element_paths_tree_order (n : node) : tree_order (element_paths n).
Proof.
  induction n as [s|t a cs IH] using node_induction; [constructor|].
  simpl. constructor.
  - apply Forall_forall. intros y Hy [r Hr].
    assert (E : y = []) by (destruct y; [reflexivity | discriminate]). subst y.
    clear - Hy. revert Hy. generalize O.
    induction cs as [|c cs IHcs]; intros i Hy; [contradiction|].
    apply in_app_or in Hy. destruct Hy as [Hy|Hy]; [|apply (IHcs _ Hy)].
    apply in_map_iff in Hy. destruct Hy as [y' [E _]]. discriminate.
  - assert (Hge : forall (l : list node) (i : nat) (y : path),
               In y ((fix go (i : nat) (l : list node) : list path :=
                        match l with
                        | [] => []
                        | c :: r => (map (cons i) (element_paths c) ++ go (S i) r)%list
                        end) i l) ->
               exists j r, y = j :: r /\ (i <= j)%nat).
    { induction l as [|c l IHl]; intros i y Hy; [contradiction|].
      apply in_app_or in Hy. destruct Hy as [Hy|Hy].
      - apply in_map_iff in Hy. destruct Hy as [y' [<- _]]. eauto.
      - destruct (IHl _ _ Hy) as [j [r [-> Hj]]]. exists j, r. split; [reflexivity|lia]. }
    generalize O. induction IH as [|c cs Hc Hcs IHcs]; intros i; [constructor|].
    apply ForallOrdPairs_app.
    + apply tree_order_map_cons, Hc.
    + apply IHcs.
    + intros x y Hx Hy Hp. apply in_map_iff in Hx. destruct Hx as [x' [<- _]].
      destruct (Hge _ _ _ Hy) as [j [r [-> Hj]]].
      apply is_prefix_cons_inv in Hp. lia.
Qed.

(** The NodeList of [querySelectorAll] is in tree order. *)
Lemma querySelectorAll_tree_order (s : selector) (doc : node) :
  tree_order (querySelectorAll s doc).
Proof. apply ForallOrdPairs_filter, element_paths_tree_order. Qed.

(** ** The loop of [formatDate] on the document *)

Lemma strip_spec (p q r : path) : Formatter.strip p q = Some r <-> q = (p ++ r)%list.
Proof.
  revert q; induction p as [|i p IH]; intros q; simpl.
  - split; [intros [= ->]; reflexivity | intros ->; reflexivity].
  - destruct q as [|j q]; [split; discriminate|].
    destruct (Nat.eqb_spec i j) as [->|Hne].
    + rewrite IH. split; [intros ->; reflexivity | intros [= ->]; reflexivity].
    + split; [discriminate | intros H; injection H as E _; congruence].
Qed.

(** [retarget] moves no element into the document, and leaves the elements
    of the document that are not strictly below [p] where they are. *)
Lemma retarget_document (k : nat) (p : path) (base : nat) (loc : nat * path) (q : path) :
  (1 <= base)%nat ->
  Formatter.retarget k p base loc = (O, q) ->
  loc = (O, q) /\ (k = O -> is_prefix p q -> q = p).
Proof.
  intros Hb. unfold Formatter.retarget. destruct loc as [k' q'].
  destruct (Nat.eqb_spec k' k) as [->|Hne].
  - destruct (Formatter.strip p q') as [[|i r]|] eqn:E.
    + intros [= -> ->]. split; [reflexivity|]. intros _ _.
      apply strip_spec in E. rewrite app_nil_r in E. exact E.
    + intros [= H _]. lia.
    + intros [= -> ->]. split; [reflexivity|]. intros _ [r Hr].
      apply strip_spec in Hr. congruence.
  - intros [= -> ->]. split; [reflexivity|]. intros ->. contradiction.
Qed.

Lemma retarget_other (k : nat) (p : path) (base : nat) (loc : nat * path) :
  (fst loc <> k \/ ~ is_prefix p (snd loc)) ->
  Formatter.retarget k p base loc = loc.
Proof.
  unfold Formatter.retarget. destruct loc as [k' q]. simpl.
  destruct (Nat.eqb_spec k' k) as [->|Hne]; [|reflexivity].
  intros [H|H]; [contradiction|].
  destruct (Formatter.strip p q) as [[|i r]|] eqn:E; try reflexivity.
  exfalso. apply H. exists (i :: r). apply strip_spec, E.
Qed.

Section DocumentLoop.
Variables (h : Host) (name format : string) (doc : node) (ps : list path).
Hypothesis ps_order : tree_order ps.

(** What a visit does to the state. *)
Lemma visit_cases (st : Formatter.Heap) (i : nat) :
  Formatter.visit h name format st i = Ok st
  \/ exists k p tree el el',
      nth_error (Formatter.locs st) i = Some (k, p)
      /\ nth_error (Formatter.trees st) k = Some tree
      /\ lookup tree p = Some el
      /\ Formatter.format_element h name format el = Ok (Some el')
      /\ Formatter.visit h name format st i
         = Ok {| Formatter.trees :=
                   (alter_nth (fun t => update (fun _ => el') t p) k (Formatter.trees st)
                    ++ children el)%list;
                 Formatter.locs :=
                   map (Formatter.retarget k p (List.length (Formatter.trees st)))
                       (Formatter.locs st) |}.
Proof.
  unfold Formatter.visit.
  destruct (nth_error (Formatter.locs st) i) as [[k p]|] eqn:Ei; [|left; reflexivity].
  destruct (nth_error (Formatter.trees st) k) as [tree|] eqn:Ek; [|left; reflexivity].
  destruct (lookup tree p) as [el|] eqn:El; [|left; reflexivity].
  destruct (format_element_total h name format el) as [[el'|] E]; rewrite E; simpl.
  - right. exists k, p, tree, el, el'. repeat split; assumption || reflexivity.
  - left. reflexivity.
Qed.

Lemma tree0_after (st : Formatter.Heap) (k : nat) (p : path) (el' : node)
      (extra : list node) (l : list (nat * path)) :
  Formatter.trees st <> [] ->
  Formatter.document doc
    {| Formatter.trees :=
         (alter_nth (fun t => update (fun _ => el') t p) k (Formatter.trees st)
          ++ extra)%list;
       Formatter.locs := l |}
  = match k with
    | O => update (fun _ => el') (Formatter.document doc st) p
    | S _ => Formatter.document doc st
    end.
Proof.
  unfold Formatter.document. simpl.
  destruct (Formatter.trees st) as [|t0 rest]; [contradiction|]. intros _.
  destruct k; reflexivity.
Qed.

Lemma located_after (st : Formatter.Heap) (k : nat) (p : path) (el' : node)
      (extra : list node) :
  located ps st ->
  located ps {| Formatter.trees :=
               (alter_nth (fun t => update (fun _ => el') t p) k (Formatter.trees st)
                ++ extra)%list;
             Formatter.locs :=
               map (Formatter.retarget k p (List.length (Formatter.trees st)))
                   (Formatter.locs st) |}.
Proof.
  intros [Hne Hloc]. split; simpl.
  - destruct (Formatter.trees st) as [|t0 rest]; [contradiction|].
    destruct k; discriminate.
  - intros j q Hj. rewrite nth_error_map in Hj.
    destruct (nth_error (Formatter.locs st) j) as [loc|] eqn:E; [|discriminate].
    simpl in Hj. injection Hj as Hj.
    apply retarget_document in Hj.
    + destruct Hj as [-> _]. apply Hloc, E.
    + destruct (Formatter.trees st); [contradiction | simpl; lia].
Qed.

(** A loop over consecutive indices keeps an invariant that depends on the
    index. *)
Lemma forEach_seq_invariant (P : nat -> Formatter.Heap -> Prop) (len a : nat)
      (st : Formatter.Heap) :
  (forall i s, (a <= i < a + len)%nat -> P i s ->
               exists s', Formatter.visit h name format s i = Ok s' /\ P (S i) s') ->
  P a st ->
  exists st', forEach (Formatter.visit h name format) (seq a len) st = Ok st'
              /\ P (a + len)%nat st'.
Proof.
  revert a st; induction len as [|len IH]; intros a st Hstep Hst.
  - exists st. rewrite Nat.add_0_r. split; [reflexivity | exact Hst].
  - destruct (Hstep a st ltac:(lia) Hst) as [s1 [E1 H1]].
    simpl. rewrite E1. simpl.
    destruct (IH (S a) s1) as [st' [E' H']].
    + intros i s Hi. apply Hstep. lia.
    + exact H1.
    + exists st'. split; [exact E'|]. replace (a + S len)%nat with (S a + len)%nat by lia.
      exact H'.
Qed.

Variables (j0 : nat) (p : path) (t : string) (a : list (string * string))
          (cs : list node) (tv : Z).
Hypothesis target_listed : nth_error ps j0 = Some p.
Hypothesis target_element : lookup doc p = Some (Element t a cs).
Hypothesis target_date : new_Date h (trim (textContent (Element t a cs))) = Num tv.
Hypothesis ancestors_skipped :
  forall q el, In q ps -> is_prefix q p -> q <> p -> lookup doc q = Some el ->
               new_Date h (trim (textContent el)) = NaN.

Lemma step_before (i : nat) (st : Formatter.Heap) :
  (i < j0)%nat -> before_target doc ps j0 p i st ->
  exists st', Formatter.visit h name format st i = Ok st' /\ before_target doc ps j0 p (S i) st'.
Proof.
  intros Hi [Hloc [Hj0 Hsame]].
  assert (Hweak : before_target doc ps j0 p (S i) st).
  { split; [exact Hloc|]. split; [exact Hj0|].
    intros j q Hj. apply Hsame. lia. }
  destruct (visit_cases st i) as [E | [k [pk [tree [el [el' [Ei [Ek [El [Ef E]]]]]]]]]];
    [exists st; split; assumption|].
  destruct k as [|k].
  - (* the element visited is in the document *)
    assert (Epk : nth_error ps i = Some pk) by (apply (proj2 Hloc), Ei).
    assert (Htree : tree = Formatter.document doc st).
    { unfold Formatter.document. destruct (Formatter.trees st); [discriminate|].
      simpl in *. congruence. }
    subst tree.
    assert (Horig : lookup doc pk = Some el).
    { rewrite <- (Hsame i pk (Nat.le_refl i) Ei). exact El. }
    assert (Hord : ~ is_prefix p pk)
      by (apply (ForallOrdPairs_nth_error _ ps i j0 pk p ps_order Hi Epk target_listed)).
    assert (Hnot : ~ is_prefix pk p).
    { intros Hpre.
      assert (Hne : pk <> p) by (intros ->; apply Hord, is_prefix_refl).
      pose proof (ancestors_skipped pk el (nth_error_In _ _ Epk) Hpre Hne Horig) as Hnan.
      rewrite (format_element_unparseable h name format el Hnan) in Ef. discriminate. }
    eexists. split; [exact E|].
    split; [apply located_after, Hloc|]. split.
    + cbn [Formatter.locs]. rewrite nth_error_map, Hj0. cbn [option_map]. f_equal.
      apply retarget_other. right. exact Hnot.
    + intros j q Hj Hq. cbn [Formatter.locs] in Hq. rewrite nth_error_map in Hq.
      destruct (nth_error (Formatter.locs st) j) as [loc|] eqn:Ej; [|discriminate].
      cbn [option_map] in Hq. injection Hq as Hq.
      apply retarget_document in Hq;
        [|destruct (Formatter.trees st); [discriminate | simpl; lia]].
      destruct Hq as [-> Hbelow].
      assert (Eq : nth_error ps j = Some q) by (apply (proj2 Hloc), Ej).
      assert (Hqk : ~ is_prefix q pk)
        by (apply (ForallOrdPairs_nth_error _ ps i j pk q ps_order ltac:(lia) Epk Eq)).
      assert (Hkq : ~ is_prefix pk q).
      { intros Hpre. apply Hqk. rewrite (Hbelow eq_refl Hpre). apply is_prefix_refl. }
      rewrite (tree0_after st O pk el' (children el) _ (proj1 Hloc)).
      rewrite lookup_update_beside by assumption.
      apply (Hsame j q); [lia | exact Ej].
  - (* it is in a removed subtree *)
    eexists. split; [exact E|].
    split; [apply located_after, Hloc|]. split.
    + cbn [Formatter.locs]. rewrite nth_error_map, Hj0. reflexivity.
    + intros j q Hj Hq. cbn [Formatter.locs] in Hq. rewrite nth_error_map in Hq.
      destruct (nth_error (Formatter.locs st) j) as [loc|] eqn:Ej; [|discriminate].
      cbn [option_map] in Hq. injection Hq as Hq.
      apply retarget_document in Hq;
        [|destruct (Formatter.trees st); [discriminate | simpl; lia]].
      destruct Hq as [-> _].
      rewrite (tree0_after st (S k) pk el' (children el) _ (proj1 Hloc)).
      apply (Hsame j q); [lia | exact Ej].
Qed.

Lemma located_length (st : Formatter.Heap) :
  located ps st -> (1 <= List.length (Formatter.trees st))%nat.
Proof.
  intros [Hne _]. destruct (Formatter.trees st); [contradiction | simpl; lia].
Qed.

Lemma step_at (st : Formatter.Heap) :
  before_target doc ps j0 p j0 st ->
  exists st', Formatter.visit h name format st j0 = Ok st'
              /\ after_target doc ps p (rewritten h name format t a tv) st'.
Proof.
  intros [Hloc [Hj0 Hsame]].
  assert (Hel : lookup (Formatter.document doc st) p = Some (Element t a cs)).
  { rewrite (Hsame j0 p (Nat.le_refl j0) Hj0). exact target_element. }
  assert (Ht0 : nth_error (Formatter.trees st) O = Some (Formatter.document doc st)).
  { unfold Formatter.document. destruct Hloc as [Hne _].
    destruct (Formatter.trees st); [contradiction | reflexivity]. }
  eexists. split.
  { unfold Formatter.visit. rewrite Hj0, Ht0, Hel.
    rewrite (format_element_parseable h name format t a cs tv target_date).
    reflexivity. }
  split; [apply located_after, Hloc|]. split.
  - rewrite (tree0_after st O p _ _ _ (proj1 Hloc)).
    apply (lookup_update_same (fun _ => rewritten h name format t a tv)
                              (Formatter.document doc st) p _ Hel).
  - intros j q Hq Hpre. cbn [Formatter.locs] in Hq. rewrite nth_error_map in Hq.
    destruct (nth_error (Formatter.locs st) j) as [loc|] eqn:Ej; [|discriminate].
    cbn [option_map] in Hq. injection Hq as Hq.
    apply retarget_document in Hq; [|apply located_length, Hloc].
    destruct Hq as [_ Hbelow]. apply Hbelow; [reflexivity | exact Hpre].
Qed.

Lemma step_after (i : nat) (st : Formatter.Heap) :
  (j0 < i)%nat -> after_target doc ps p (rewritten h name format t a tv) st ->
  exists st', Formatter.visit h name format st i = Ok st'
              /\ after_target doc ps p (rewritten h name format t a tv) st'.
Proof.
  intros Hi [Hloc [Hp Hbelow]].
  destruct (visit_cases st i) as [E | [k [pk [tree [el [el' [Ei [Ek [El [Ef E]]]]]]]]]];
    [exists st; split; [exact E | split; [exact Hloc | split; assumption]]|].
  eexists. split; [exact E|].
  split; [apply located_after, Hloc|]. split.
  - rewrite (tree0_after st k pk el' _ _ (proj1 Hloc)).
    destruct k as [|k]; [|exact Hp].
    assert (Epk : nth_error ps i = Some pk) by (apply (proj2 Hloc), Ei).
    assert (Hord : ~ is_prefix pk p)
      by (apply (ForallOrdPairs_nth_error _ ps j0 i p pk ps_order Hi target_listed Epk)).
    assert (Hnot : ~ is_prefix p pk).
    { intros Hpre. apply Hord. rewrite (Hbelow i pk Ei Hpre). apply is_prefix_refl. }
    rewrite lookup_update_beside by assumption. exact Hp.
  - intros j q Hq Hpre. cbn [Formatter.locs] in Hq. rewrite nth_error_map in Hq.
    destruct (nth_error (Formatter.locs st) j) as [loc|] eqn:Ej; [|discriminate].
    cbn [option_map] in Hq. injection Hq as Hq.
    apply retarget_document in Hq; [|apply located_length, Hloc].
    destruct Hq as [-> _]. apply (Hbelow j q Ej Hpre).
Qed.

(** The loop rewrites the target in the document. *)
Lemma loop_rewrites_target :
  exists st,
    forEach (Formatter.visit h name format) (seq 0 (List.length ps))
            {| Formatter.trees := [doc]; Formatter.locs := map (pair O) ps |}
    = Ok st
    /\ lookup (Formatter.document doc st) p = Some (rewritten h name format t a tv).
Proof.
  assert (Hlen : (j0 < List.length ps)%nat)
    by (apply nth_error_Some; rewrite target_listed; discriminate).
  replace (List.length ps) with (j0 + S (List.length ps - S j0))%nat by lia.
  rewrite seq_app, forEach_app. change (0 + j0)%nat with j0. cbn [seq].
  destruct (forEach_seq_invariant (before_target doc ps j0 p) j0 O
              {| Formatter.trees := [doc]; Formatter.locs := map (pair O) ps |})
    as [s1 [E1 H1]].
  - intros i s Hi. apply step_before. lia.
  - split; [split|split].
    + discriminate.
    + intros j q Hj. cbn [Formatter.locs] in Hj. rewrite nth_error_map in Hj.
      destruct (nth_error ps j); [|discriminate]. simpl in Hj. congruence.
    + cbn [Formatter.locs]. rewrite nth_error_map, target_listed. reflexivity.
    + intros j q _ _. reflexivity.
  - rewrite E1. cbn [bind forEach]. simpl Nat.add in H1.
    destruct (step_at s1 H1) as [s2 [E2 H2]]. rewrite E2. cbn [bind].
    destruct (forEach_seq_invariant
                (fun _ => after_target doc ps p (rewritten h name format t a tv))
                (List.length ps - S j0) (S j0) s2) as [s3 [E3 H3]].
    + intros i s Hi. apply step_after. lia.
    + exact H2.
    + simpl Nat.add. exists s3. split; [exact E3 | apply H3].
Qed.

End DocumentLoop.

(** X2.  A matched element whose text is a date, and none of whose
    matched ancestors has a date for text, is rewritten in the document
    that [formatDate] leaves, whatever else the selector matches: it keeps
    its name, a TIME element gets its [datetime], and its content is the
    parsed markup of the wrapped template; what it held, matched elements
    included, is gone. *)
Lemma formatDate_rewrites (h : Host) (data : Formatter.Config) (doc : node)
      (p : path) (t : string) (a : list (string * string)) (cs : list node) (tv : Z) :
  In p (querySelectorAll (Formatter.selector data) doc) ->
  lookup doc p = Some (Element t a cs) ->
  new_Date h (trim (textContent (Element t a cs))) = Num tv ->
  (forall q el, In q (querySelectorAll (Formatter.selector data) doc) ->
                is_prefix q p -> q <> p -> lookup doc q = Some el ->
                new_Date h (trim (textContent el)) = NaN) ->
  exists doc',
    Formatter.formatDate h data doc = Ok doc'
    /\ lookup doc' p
       = Some (Element t
                 (if String.eqb (toUpperCase t) "TIME"
                  then set_assoc "datetime" (split_T_first (iso_string tv)) a else a)
                 (parseFragment h
                    (Formatter.span (Formatter.name data)
                       (single_pass (Formatter.tokens h (Num tv))
                                    (Formatter.format data))))).
Proof.
  intros Hin Hel Hdate Hanc.
  apply In_nth_error in Hin. destruct Hin as [j0 Hj0].
  destruct (loop_rewrites_target h (Formatter.name data) (Formatter.format data) doc
              (querySelectorAll (Formatter.selector data) doc)
              (querySelectorAll_tree_order _ _) j0 p t a cs tv Hj0 Hel Hdate Hanc)
    as [st [E H]].
  unfold Formatter.formatDate. rewrite E. cbn [bind].
  eexists. split; [reflexivity|]. rewrite H. unfold rewritten.
  rewrite substitute_single_pass. reflexivity.
Qed.

Lemma formatDate_rewrites_witness :
  let h := Examples.utc in
  let doc := Examples.post [] "December 9, 2025" in
  let cs := [Text "December 9, 2025"] in
  let tv := 1765238400000%Z in
  In [O] (querySelectorAll (Formatter.selector Examples.pretty_date) doc)
  /\ lookup doc [O] = Some (Element "time" [] cs)
  /\ new_Date h (trim (textContent (Element "time" [] cs))) = Num tv
  /\ exists doc',
       Formatter.formatDate h Examples.pretty_date doc = Ok doc'
       /\ lookup doc' [O]
          = Some (Element "time"
                    (if String.eqb (toUpperCase "time") "TIME"
                     then set_assoc "datetime" (split_T_first (iso_string tv)) []
                     else [])
                    (parseFragment h
                       (Formatter.span (Formatter.name Examples.pretty_date)
                          (single_pass (Formatter.tokens h (Num tv))
                                       (Formatter.format Examples.pretty_date))))).
Proof.
  intros h doc cs tv.
  assert (H1 : In [O] (querySelectorAll (Formatter.selector Examples.pretty_date) doc))
    by (vm_compute; left; reflexivity).
  assert (H3 : new_Date h (trim (textContent (Element "time" [] cs))) = Num tv)
    by (vm_compute; reflexivity).
  split; [exact H1|]. split; [reflexivity|]. split; [exact H3|].
  apply (formatDate_rewrites h Examples.pretty_date doc [O] "time" [] cs tv H1 eq_refl H3).
  intros q el Hin _ Hne _. vm_compute in Hin. destruct Hin as [<-|[]].
  contradiction Hne. reflexivity.
Defined.

Section DocumentFrame.
Variables (h : Host) (name format : string) (doc : node) (ps : list path).

Lemma visit_framed (st : Formatter.Heap) (i : nat) :
  framed doc ps st ->
  exists st', Formatter.visit h name format st i = Ok st' /\ framed doc ps st'.
Proof.
  intros [Hloc [Hown Hbeside]].
  destruct (visit_cases h name format st i)
    as [E | [k [pk [tree [el [el' [Ei [Ek [El [Ef E]]]]]]]]]];
    [exists st; split; [exact E | split; [exact Hloc | split; assumption]]|].
  eexists. split; [exact E|].
  split; [apply located_after, Hloc|].
  rewrite (tree0_after doc st k pk el' _ _ (proj1 Hloc)).
  destruct k as [|k]; [|split; assumption].
  assert (Epk : In pk ps) by (apply nth_error_In with i, (proj2 Hloc), Ei).
  split.
  - intros q Hq. rewrite lookup_update_outside by (apply Hq, Epk). apply Hown, Hq.
  - intros q Hq. destruct (Hq pk Epk) as [H1 H2].
    rewrite lookup_update_beside by assumption. apply Hbeside, Hq.
Qed.

End DocumentFrame.

(** On a record of the expected shape [formatDate] returns, and changes
    the document at the matched elements only. *)
Lemma formatDate_frame (h : Host) (data : Formatter.Config) (doc : node) :
  exists doc',
    Formatter.formatDate h data doc = Ok doc'
    /\ (forall q,
           (forall p, In p (querySelectorAll (Formatter.selector data) doc) ->
                      ~ is_prefix p q) ->
           option_map own_data (lookup doc' q) = option_map own_data (lookup doc q))
    /\ (forall q,
           (forall p, In p (querySelectorAll (Formatter.selector data) doc) ->
                      ~ is_prefix p q /\ ~ is_prefix q p) ->
           lookup doc' q = lookup doc q).
Proof.
  set (ps := querySelectorAll (Formatter.selector data) doc).
  destruct (forEach_invariant
              (Formatter.visit h (Formatter.name data) (Formatter.format data))
              (framed doc ps)
              (fun s x H => visit_framed h _ _ doc ps s x H)
              (seq 0 (List.length ps))
              {| Formatter.trees := [doc]; Formatter.locs := map (pair O) ps |})
    as [st [E [_ [H1 H2]]]].
  - split; [split|split].
    + discriminate.
    + intros j q Hj. cbn [Formatter.locs] in Hj. rewrite nth_error_map in Hj.
      destruct (nth_error ps j); [|discriminate]. simpl in Hj. congruence.
    + intros q _. reflexivity.
    + intros q _. reflexivity.
  - unfold Formatter.formatDate. fold ps. rewrite E. cbn [bind].
    eexists. split; [reflexivity|]. split; assumption.
Qed.

(** Without a template the call passes over the elements whose text is no
    date and ends at the first one whose text is a date, a TIME element
    with its [datetime] attribute set. *)
Lemma format_missing_cases (h : Host) (ps : list path) (doc : node) :
  ((forall p el, In p ps -> lookup doc p = Some el ->
                 new_Date h (trim (textContent el)) = NaN)
   /\ Formatter.format_missing h ps doc = Normal doc)
  \/ (exists p el tv,
         In p ps /\ lookup doc p = Some el
         /\ new_Date h (trim (textContent el)) = Num tv
         /\ Formatter.format_missing h ps doc
            = Abrupt TypeError
                (if String.eqb (tagName el) "TIME"
                 then update (setAttribute "datetime" (split_T_first (iso_string tv)))
                             doc p
                 else doc)).
Proof.
  induction ps as [|p ps IH].
  - left. split; [intros p el []|reflexivity].
  - cbn [Formatter.format_missing].
    destruct (lookup doc p) as [el|] eqn:El.
    + destruct (new_Date h (trim (textContent el))) as [|tv] eqn:Ed.
      * cbn [getTime isNaN].
        destruct IH as [[Hall E]|[p' [el' [tv' [Hin [Hl [Hd E]]]]]]].
        -- left. split; [|exact E].
           intros q el' [<-|Hq] Hl; [|exact (Hall q el' Hq Hl)].
           rewrite El in Hl. injection Hl as <-. exact Ed.
        -- right. exists p', el', tv'. repeat split; try assumption.
           right. exact Hin.
      * right. exists p, el, tv. split; [left; reflexivity|].
        split; [exact El|]. split; [exact Ed|].
        cbn [getTime isNaN]. destruct (String.eqb (tagName el) "TIME"); reflexivity.
    + destruct IH as [[Hall E]|[p' [el' [tv' [Hin [Hl [Hd E]]]]]]].
      * left. split; [|exact E].
        intros q el' [<-|Hq] Hl; [congruence | exact (Hall q el' Hq Hl)].
      * right. exists p', el', tv'. repeat split; try assumption.
        right. exact Hin.
Qed.

(** X3.  [formatDate], whatever its argument, changes the document at the
    matched elements only, also when it throws: an element that is not
    matched, nor inside a matched element, keeps its name and attributes;
    a node that has no matched element above or below it is unchanged.
    It throws in three cases: a TypeError for an argument that is [null]
    or [undefined] and a SyntaxError for a selector that does not parse,
    both with the document untouched, and a TypeError for a format that
    is no string as soon as a matched element has a date for text.  With
    a selector that parses and a string for format it returns. *)
Theorem formatDate_changes_matched_elements_only (h : Host)
        (data : Formatter.Data) (doc : node) :
  let c := Formatter.formatDate_of h data doc in
  match data with
  | Formatter.Nullish => c = Abrupt TypeError doc
  | Formatter.Object selector name format =>
      match match selector with
            | Some v => v
            | None => Formatter.Parsed Formatter.undefined_selector
            end with
      | Formatter.Unparsable => c = Abrupt SyntaxError doc
      | Formatter.Parsed s =>
          (forall q,
              (forall p, In p (querySelectorAll s doc) -> ~ is_prefix p q) ->
              option_map own_data (lookup (state c) q)
              = option_map own_data (lookup doc q))
          /\ (forall q,
                 (forall p, In p (querySelectorAll s doc) ->
                            ~ is_prefix p q /\ ~ is_prefix q p) ->
                 lookup (state c) q = lookup doc q)
          /\ match format with
             | Some _ => thrown c = None
             | None =>
                 ((forall p el, In p (querySelectorAll s doc) ->
                                lookup doc p = Some el ->
                                new_Date h (trim (textContent el)) = NaN) ->
                  c = Normal doc)
                 /\ ((exists p el, In p (querySelectorAll s doc)
                                   /\ lookup doc p = Some el
                                   /\ new_Date h (trim (textContent el)) <> NaN) ->
                     thrown c = Some TypeError)
             end
      end
  end.
Proof.
  cbv zeta. destruct data as [|selector name format]; [reflexivity|].
  cbn [Formatter.formatDate_of].
  destruct (match selector with
            | Some v => v
            | None => Formatter.Parsed Formatter.undefined_selector
            end) as [s|]; [|reflexivity].
  destruct format as [f|].
  - destruct (formatDate_frame h
                {| Formatter.selector := s;
                   Formatter.name := match name with Some n => n | None => "undefined" end;
                   Formatter.format := f |} doc) as [doc' [E [H1 H2]]].
    cbn [Formatter.selector] in H1, H2. rewrite E. cbn [completion_of state thrown].
    split; [exact H1|]. split; [exact H2 | reflexivity].
  - destruct (format_missing_cases h (querySelectorAll s doc) doc)
      as [[Hall E]|[p [el [tv [Hin [Hl [Hd E]]]]]]]; rewrite E; cbn [state thrown].
    + split; [reflexivity|]. split; [reflexivity|]. split; [reflexivity|].
      intros [p [el [Hin [Hl Hd]]]]. contradiction Hd. exact (Hall p el Hin Hl).
    + split; [|split; [|split]].
      * intros q Hq. destruct (String.eqb (tagName el) "TIME"); [|reflexivity].
        apply lookup_update_outside, Hq, Hin.
      * intros q Hq. destruct (String.eqb (tagName el) "TIME"); [|reflexivity].
        destruct (Hq p Hin) as [Hpq Hqp]. apply lookup_update_beside; assumption.
      * intros Hall. rewrite (Hall p el Hin Hl) in Hd. discriminate.
      * reflexivity.
Qed.

(** Without a format: the TIME element of the example has its [datetime]
    attribute when the exception is thrown, and keeps its text. *)
Example format_missing_example :
  Formatter.formatDate_of Examples.utc
    (Formatter.Object (Some (Formatter.Parsed Examples.post_date_time))
                      (Some "pretty-date") None)
    (Examples.post [] "December 9, 2025")
  = Abrupt TypeError (Examples.post [("datetime", "2025-12-09")] "December 9, 2025")
  /\ Formatter.formatDate_of Examples.utc
       (Formatter.Object (Some (Formatter.Parsed Examples.post_date_time))
                         (Some "pretty-date") None)
       (Examples.post [] "TBD")
     = Normal (Examples.post [] "TBD")
  /\ Formatter.formatDate_of Examples.utc
       (Formatter.Object (Some Formatter.Unparsable) (Some "pretty-date")
                         (Some "D MMM"))
       (Examples.post [] "December 9, 2025")
     = Abrupt SyntaxError (Examples.post [] "December 9, 2025").
Proof. repeat split; vm_compute; reflexivity. Qed.

(** X4.  When no matched element has a date for text, [formatDate]
    leaves the document as it is. *)
Lemma formatDate_nothing_parses (h : Host) (data : Formatter.Config) (doc : node) :
  (forall p el, In p (querySelectorAll (Formatter.selector data) doc) ->
                lookup doc p = Some el ->
                new_Date h (trim (textContent el)) = NaN) ->
  Formatter.formatDate h data doc = Ok doc.
Proof.
  intros Hnone. unfold Formatter.formatDate.
  set (ps := querySelectorAll (Formatter.selector data) doc) in *.
  set (st0 := {| Formatter.trees := [doc]; Formatter.locs := map (pair O) ps |}).
  destruct (forEach_invariant
              (Formatter.visit h (Formatter.name data) (Formatter.format data))
              (fun st => st = st0)) with (l := seq 0 (List.length ps)) (s := st0)
    as [st [E ->]]; [|reflexivity|rewrite E; reflexivity].
  intros s i ->. exists st0. split; [|reflexivity].
  unfold Formatter.visit. cbn [st0 Formatter.locs Formatter.trees].
  rewrite nth_error_map.
  destruct (nth_error ps i) as [p|] eqn:Ei; [|reflexivity]. cbn [option_map nth_error].
  destruct (lookup doc p) as [el|] eqn:El; [|reflexivity].
  rewrite (format_element_unparseable h _ _ el
             (Hnone p el (nth_error_In _ _ Ei) El)).
  reflexivity.
Qed.

Lemma formatDate_nothing_parses_witness :
  let h := Examples.utc in
  let doc := Examples.post [] "TBD" in
  querySelectorAll (Formatter.selector Examples.pretty_date) doc = [[O]]
  /\ new_Date h (trim (textContent (Element "time" [] [Text "TBD"]))) = NaN
  /\ Formatter.formatDate h Examples.pretty_date doc = Ok doc.
Proof.
  intros h doc. split; [reflexivity|]. split; [vm_compute; reflexivity|].
  apply (formatDate_nothing_parses h Examples.pretty_date doc).
  intros p el Hin Hl. vm_compute in Hin. destruct Hin as [<-|[]].
  vm_compute in Hl. injection Hl as <-. vm_compute. reflexivity.
Defined.

(** ** The members of [dateFormats] *)

Lemma formatDate_of_record (h : Host) (c : Formatter.Config) (doc : node) :
  Formatter.formatDate_of h (Formatter.record c) doc
  = completion_of (Formatter.formatDate h c doc) doc.
Proof. destruct c; reflexivity. Qed.

(** The records of the expected shape are applied one after the other,
    and none of them throws. *)
Lemma forEach_formatDate_total (h : Host) (records : list Formatter.Config)
      (doc : node) :
  exists doc',
    forEach (fun d config => Formatter.formatDate h config d) records doc = Ok doc'.
Proof.
  revert doc; induction records as [|c l IH]; intros doc; cbn [forEach]; [eauto|].
  destruct (formatDate_total h c doc) as [d ->]. cbn [bind]. apply IH.
Qed.

Lemma applyAllDateFormats_records (h : Host) (records : list Formatter.Config)
      (rest : list Formatter.Data) (doc doc' : node) :
  forEach (fun d config => Formatter.formatDate h config d) records doc = Ok doc' ->
  Formatter.applyAllDateFormats h
    (Formatter.ArrayOf (map Formatter.record records ++ rest)) doc
  = Formatter.applyAllDateFormats h (Formatter.ArrayOf rest) doc'.
Proof.
  unfold Formatter.applyAllDateFormats.
  cbn [Formatter.ToBoolean Formatter.isArray andb Formatter.elements_of].
  revert doc; induction records as [|c l IH]; intros doc; cbn [forEach map app].
  - intros [= ->]. reflexivity.
  - cbn [forEach_state]. rewrite formatDate_of_record.
    destruct (Formatter.formatDate h c doc) as [d|e]; cbn [bind completion_of];
      [apply IH | discriminate].
Qed.

(** C9.  The automatic run does nothing and throws nothing when
    [dateFormats] is undefined or is not an array, whatever its truth
    value.  On an array it calls [formatDate] on each member in the order
    of the array, each on the document that the one before has left, and
    it does not check the members: records with a selector that parses
    and a template are all applied and nothing is thrown; a member that
    is [null] or [undefined] throws a TypeError and a selector that does
    not parse a SyntaxError, which ends the run with the members before
    it applied and the members after it not. *)
Theorem C9_absent_or_not_an_array_or_in_order (h : Host) (doc : node) :
  Formatter.applyAllDateFormats h Formatter.Undefined doc = Normal doc
  /\ (forall b, Formatter.applyAllDateFormats h (Formatter.Other b) doc = Normal doc)
  /\ Formatter.applyAllDateFormats h (Formatter.ArrayOf []) doc = Normal doc
  /\ (forall config rest,
         Formatter.applyAllDateFormats h (Formatter.ArrayOf (config :: rest)) doc
         = match Formatter.formatDate_of h config doc with
           | Normal d => Formatter.applyAllDateFormats h (Formatter.ArrayOf rest) d
           | Abrupt e d => Abrupt e d
           end)
  /\ (forall records : list Formatter.Config,
         exists doc',
           forEach (fun d config => Formatter.formatDate h config d) records doc
           = Ok doc'
           /\ Formatter.applyAllDateFormats h
                (Formatter.ArrayOf (map Formatter.record records)) doc
              = Normal doc'
           /\ (forall rest,
                  Formatter.applyAllDateFormats h
                    (Formatter.ArrayOf
                       (map Formatter.record records ++ Formatter.Nullish :: rest)) doc
                  = Abrupt TypeError doc')
           /\ (forall name format rest,
                  Formatter.applyAllDateFormats h
                    (Formatter.ArrayOf
                       (map Formatter.record records
                        ++ Formatter.Object (Some Formatter.Unparsable) name format
                        :: rest)) doc
                  = Abrupt SyntaxError doc')).
Proof.
  split; [reflexivity|].
  split; [intros b; unfold Formatter.applyAllDateFormats; simpl;
          rewrite andb_false_r; reflexivity|].
  split; [reflexivity|].
  split; [reflexivity|].
  intros records.
  destruct (forEach_formatDate_total h records doc) as [doc' E].
  exists doc'. split; [exact E|]. split.
  - rewrite <- (app_nil_r (map Formatter.record records)).
    rewrite (applyAllDateFormats_records h records [] doc doc' E). reflexivity.
  - split; intros; rewrite (applyAllDateFormats_records h records _ doc doc' E);
      reflexivity.
Qed.

(** C9, the array [[null]], a configuration of the wrong shape: the
    automatic run throws. *)
Lemma C9_null_member_counterexample :
  Formatter.applyAllDateFormats Examples.utc
    (Formatter.ArrayOf [Formatter.Nullish]) (Examples.post [] "December 9, 2025")
  = Abrupt TypeError (Examples.post [] "December 9, 2025").
Proof. reflexivity. Qed.

(** A record applied, then [null]: the first member is applied before the
    exception. *)
Example record_then_null :
  Formatter.applyAllDateFormats Examples.utc
    (Formatter.ArrayOf [Formatter.record Examples.pretty_date; Formatter.Nullish])
    (Examples.post [] "December 9, 2025")
  = match Formatter.formatDate Examples.utc Examples.pretty_date
            (Examples.post [] "December 9, 2025") with
    | Ok doc' => Abrupt TypeError doc'
    | Throw e => Abrupt e (Examples.post [] "December 9, 2025")
    end
  /\ thrown (Formatter.applyAllDateFormats Examples.utc
               (Formatter.ArrayOf
                  [Formatter.Object (Some (Formatter.Parsed Examples.post_date_time))
                                    (Some "pretty-date") None])
               (Examples.post [] "December 9, 2025"))
     = Some TypeError.
Proof. split; vm_compute; reflexivity. Qed.

(* ================================================================== *)
(** * Further properties of the annotator *)
(* ================================================================== *)

(** ** The annotator writes its four attributes and nothing else *)

(** Every step of a run keeps the tree the same outside the annotation,
    whatever the selector. *)
Lemma sim_run (h : Host) (parentSelector : option selector) (doc0 : node)
      (ps : list path) (doc : node) :
  sim doc0 doc -> sim doc0 (fold_left (annotate_pure h parentSelector) ps doc).
Proof.
  revert doc; induction ps as [|p ps IH]; intros doc H; [exact H|].
  cbn [fold_left]. apply IH. rewrite annotate_plan. apply sim_perform, H.
Qed.

Lemma sim_lookup_data (n n' : node) (p : path) :
  sim n n' ->
  option_map tagName (lookup n' p) = option_map tagName (lookup n p)
  /\ option_map textContent (lookup n' p) = option_map textContent (lookup n p)
  /\ option_map is_element (lookup n' p) = option_map is_element (lookup n p)
  /\ forall k, is_annotation_key k = false ->
               option_map (fun el => getAttribute el k) (lookup n' p)
               = option_map (fun el => getAttribute el k) (lookup n p).
Proof.
  intros H. generalize (sim_lookup p n n' H).
  destruct (lookup n p) as [el|], (lookup n' p) as [el'|]; simpl; try tauto.
  intros Hel. split; [|split; [|split]].
  - destruct el, el'; simpl in Hel; try tauto. destruct Hel as [-> _]. reflexivity.
  - rewrite (sim_textContent el el' Hel). reflexivity.
  - destruct el, el'; simpl in Hel; tauto || reflexivity.
  - intros k Hk. rewrite (sim_getAttribute el el' k Hel Hk). reflexivity.
Qed.

(** X5.  Whatever the document, the selector and the host,
    [addDateDataAttributes] returns without throwing, and the document it
    leaves differs from the one it found in the four attributes
    [data-date], [data-year], [data-month] and [data-day] only: the
    elements are the same, at the same places, with the same names, the
    same text and the same values of every other attribute. *)
Theorem annotator_changes_the_annotation_only (h : Host)
        (parentSelector : option selector) (doc : node) :
  exists doc',
    Annotator.addDateDataAttributes h parentSelector doc = Ok doc'
    /\ element_paths doc' = element_paths doc
    /\ forall p,
         option_map tagName (lookup doc' p) = option_map tagName (lookup doc p)
         /\ option_map textContent (lookup doc' p)
            = option_map textContent (lookup doc p)
         /\ option_map is_element (lookup doc' p)
            = option_map is_element (lookup doc p)
         /\ forall k, is_annotation_key k = false ->
                      option_map (fun el => getAttribute el k) (lookup doc' p)
                      = option_map (fun el => getAttribute el k) (lookup doc p).
Proof.
  rewrite addDateDataAttributes_total. eexists. split; [reflexivity|].
  pose proof (sim_run h parentSelector doc
                (querySelectorAll Annotator.time_selector doc) doc (sim_refl doc)) as H.
  split; [symmetry; apply sim_element_paths, H|].
  intros p. apply sim_lookup_data, H.
Qed.

(** ** Several time elements with one target *)

Lemma lookup_app (n : node) (q r : path) :
  lookup n (q ++ r)%list
  = match lookup n q with Some x => lookup x r | None => None end.
Proof.
  revert n; induction q as [|i q IH]; intros n; simpl; [reflexivity|].
  destruct (nth_error (children n) i); [apply IH | reflexivity].
Qed.

(** What has a child is an element. *)
Lemma lookup_parent_element (n : node) (q : path) (i : nat) (r : path) (el : node) :
  lookup n (q ++ i :: r)%list = Some el ->
  exists t a cs, lookup n q = Some (Element t a cs).
Proof.
  rewrite lookup_app. destruct (lookup n q) as [[s|t a cs]|]; [| |discriminate].
  - simpl. destruct i; discriminate.
  - eauto.
Qed.

Lemma chain_aux_head (n : node) (p : path) (above ch : list node) :
  chain_aux n p above = Some ch ->
  exists x rest, ch = x :: rest /\ lookup n p = Some x.
Proof.
  revert n above; induction p as [|i p IH]; intros n above; simpl.
  - intros [= <-]. eauto.
  - destruct (nth_error (children n) i) as [c|]; [apply IH | discriminate].
Qed.

(** What a selector matches is an element of the document. *)
Lemma matches_element (s : selector) (doc : node) (q : path) :
  matches s doc q = true -> exists t a cs, lookup doc q = Some (Element t a cs).
Proof.
  unfold matches, chain. destruct (chain_aux doc q []) as [ch|] eqn:E; [|discriminate].
  destruct (chain_aux_head doc q [] ch E) as [x [rest [-> Hx]]].
  unfold matches_chain. intros H. apply existsb_exists in H.
  destruct H as [c [_ Hc]].
  assert (Hel : is_element x = true).
  { destruct c as [k|anc k|par k]; simpl in Hc; unfold matches_compound in Hc;
      repeat (apply andb_true_iff in Hc; destruct Hc as [Hc ?]); assumption. }
  destruct x as [d|t a cs]; [discriminate|]. eauto.
Qed.

(** The element to annotate is an element of the document. *)
Lemma resolve_parent_element (parentSelector : option selector) (doc : node)
      (p q : path) (el : node) :
  lookup doc p = Some el ->
  Annotator.resolve_parent parentSelector doc p = Some q ->
  exists t a cs, lookup doc q = Some (Element t a cs).
Proof.
  intros Hl. destruct parentSelector as [s|]; simpl.
  - intros E. apply closest_Some in E. destruct E as [_ [Hm _]].
    apply (matches_element s doc q Hm).
  - destruct p as [|i r]; [discriminate|]. intros [= <-].
    rewrite (app_removelast_last O (l := i :: r)) in Hl by discriminate.
    apply lookup_parent_element in Hl. exact Hl.
Qed.

(** A change of the attributes of one element leaves the name and the
    attributes of every other node as they are. *)
Lemma lookup_update_attrs_other (F : list (string * string) -> list (string * string))
      (n : node) (q' q : path) :
  q' <> q ->
  option_map own_data (lookup (update (map_attrs F) n q') q)
  = option_map own_data (lookup n q).
Proof.
  revert n q; induction q' as [|i' r' IH]; intros n q Hne.
  - destruct q as [|i r]; [congruence|]. destruct n; reflexivity.
  - destruct n as [s|t a cs]; [reflexivity|]. destruct q as [|i r]; [reflexivity|].
    cbn [update lookup children].
    destruct (Nat.eq_dec i' i) as [->|Hi].
    + rewrite nth_error_alter_nth_same.
      destruct (nth_error cs i) as [c|]; [|reflexivity]. cbn [option_map].
      apply IH. congruence.
    + rewrite nth_error_alter_nth_other by congruence. reflexivity.
Qed.

(** A script that does not write on [q] keeps the attributes of [q]. *)
Lemma perform_others (h : Host) (script : list (option (string * path))) (q : path)
      (doc : node) :
  ~ In q (targets script) ->
  option_map own_data (lookup (fold_left (perform h) script doc) q)
  = option_map own_data (lookup doc q).
Proof.
  revert doc; induction script as [|e script IH]; intros doc Hn; [reflexivity|].
  cbn [fold_left]. destruct e as [[dv q']|].
  - rewrite IH by (intros Hin; apply Hn; simpl; right; exact Hin).
    cbn [perform]. apply lookup_update_attrs_other.
    intros ->. apply Hn. simpl. left. reflexivity.
  - apply IH. exact Hn.
Qed.

Lemma sim_fold_perform (h : Host) (script : list (option (string * path)))
      (doc0 doc : node) :
  sim doc0 doc -> sim doc0 (fold_left (perform h) script doc).
Proof.
  revert doc; induction script as [|e script IH]; intros doc H; [exact H|].
  cbn [fold_left]. apply IH, sim_perform, H.
Qed.

Lemma sim_lookup_Element (n n' : node) (p : path) (t : string)
      (a : list (string * string)) (cs : list node) :
  sim n n' -> lookup n p = Some (Element t a cs) ->
  exists a' cs', lookup n' p = Some (Element t a' cs').
Proof.
  intros H Hl. generalize (sim_lookup p n n' H). rewrite Hl.
  destruct (lookup n' p) as [[s|t' a' cs']|]; simpl; try tauto.
  intros [-> _]. eauto.
Qed.

(** X6.  Under a selector that does not test the annotation, when
    several time elements resolve to the same element the last of them in
    document order decides: after the run the four attributes of that
    element are the date value of the last time element that targets it
    and the components of that value. *)
Theorem annotator_last_writer_wins (h : Host) (parentSelector : option selector)
        (doc : node) (before after : list path) (timeEl parentEl : path)
        (el : node) (dateValue : string) :
  blind parentSelector = true ->
  querySelectorAll Annotator.time_selector doc = (before ++ timeEl :: after)%list ->
  lookup doc timeEl = Some el ->
  Annotator.resolve_dateValue h el = Ok (Some dateValue) ->
  Annotator.resolve_parent parentSelector doc timeEl = Some parentEl ->
  (forall later el' dateValue',
      In later after -> lookup doc later = Some el' ->
      Annotator.resolve_dateValue h el' = Ok (Some dateValue') ->
      Annotator.resolve_parent parentSelector doc later <> Some parentEl) ->
  exists doc' t a cs,
    Annotator.addDateDataAttributes h parentSelector doc = Ok doc'
    /\ lookup doc' parentEl = Some (Element t a cs)
    /\ assoc "data-date" a = Some dateValue
    /\ assoc "data-year" a
       = Some (ToString (getFullYear h (new_Date h dateValue)))
    /\ assoc "data-month" a
       = Some (ToString (add1 (getMonth h (new_Date h dateValue))))
    /\ assoc "data-day" a
       = Some (ToString (getDate h (new_Date h dateValue))).
Proof.
  intros Hblind Hps Hl Hv Hq Hafter.
  destruct (resolve_parent_element parentSelector doc timeEl parentEl el Hl Hq)
    as [t [a0 [cs0 Hq0]]].
  rewrite addDateDataAttributes_total, Hps.
  destruct (run_performs_plans h parentSelector Hblind doc
              (before ++ timeEl :: after)%list doc (sim_refl doc)) as [E _].
  rewrite E, map_app, fold_left_app. cbn [map fold_left].
  set (d1 := fold_left (perform h) (map (plan h parentSelector doc) before) doc).
  assert (S1 : sim doc d1) by (apply sim_fold_perform, sim_refl).
  destruct (sim_lookup_Element doc d1 parentEl t a0 cs0 S1 Hq0) as [a1 [cs1 Hq1]].
  assert (Hplan : plan h parentSelector doc timeEl = Some (dateValue, parentEl)).
  { unfold plan. rewrite Hl, Hv, Hq. reflexivity. }
  rewrite Hplan. cbn [perform].
  set (d2 := update (map_attrs (sets (annotation h dateValue))) d1 parentEl).
  assert (Hq2 : lookup d2 parentEl
                = Some (Element t (sets (annotation h dateValue) a1) cs1)).
  { unfold d2.
    rewrite (lookup_update_same (map_attrs (sets (annotation h dateValue)))
               d1 parentEl _ Hq1). reflexivity. }
  assert (Hnot : ~ In parentEl (targets (map (plan h parentSelector doc) after))).
  { unfold targets. rewrite in_flat_map. intros [e [He Hin]].
    apply in_map_iff in He. destruct He as [later [<- Hlater]].
    unfold plan in Hin.
    destruct (lookup doc later) as [el'|] eqn:El'; [|contradiction].
    destruct (Annotator.resolve_dateValue h el') as [[dv'|]|] eqn:Ev'; try contradiction.
    destruct (Annotator.resolve_parent parentSelector doc later) as [q'|] eqn:Eq';
      [|contradiction].
    destruct Hin as [->|[]].
    apply (Hafter later el' dv' Hlater El' Ev' Eq'). }
  pose proof (perform_others h _ parentEl d2 Hnot) as Hkeep.
  rewrite Hq2 in Hkeep. cbn [option_map own_data] in Hkeep.
  assert (S2 : sim doc d2)
    by (apply (sim_perform h doc d1 (Some (dateValue, parentEl))), S1).
  pose proof (sim_fold_perform h (map (plan h parentSelector doc) after) doc d2 S2)
    as S3.
  destruct (sim_lookup_Element doc _ parentEl t a0 cs0 S3 Hq0) as [a3 [cs3 Hq3]].
  rewrite Hq3 in Hkeep. cbn [option_map own_data] in Hkeep.
  injection Hkeep as Ha3.
  exists (fold_left (perform h) (map (plan h parentSelector doc) after) d2),
         t, a3, cs3.
  split; [reflexivity|]. split; [exact Hq3|].
  change (a3 = sets (annotation h dateValue) a1) in Ha3. rewrite Ha3.
  split; [|split; [|split]]; rewrite assoc_sets
    by (repeat (constructor; [simpl; intuition discriminate|]); constructor);
    reflexivity.
Qed.

Lemma annotator_last_writer_wins_witness :
  let h := Examples.utc in
  let doc := three_times in
  let el := Element "time" [] [Text "2026-01-02"] in
  blind (Some p_or_post_date) = true
  /\ querySelectorAll Annotator.time_selector doc = [[O]; [1]; [2; O]]%nat
  /\ lookup doc [1]%nat = Some el
  /\ Annotator.resolve_dateValue h el = Ok (Some "2026-01-02")
  /\ Annotator.resolve_parent (Some p_or_post_date) doc [O] = Some []
  /\ Annotator.resolve_parent (Some p_or_post_date) doc [1]%nat = Some []
  /\ Annotator.resolve_parent (Some p_or_post_date) doc [2; O]%nat = Some [2]%nat
  /\ exists doc' t a cs,
       Annotator.addDateDataAttributes h (Some p_or_post_date) doc = Ok doc'
       /\ lookup doc' [] = Some (Element t a cs)
       /\ assoc "data-date" a = Some "2026-01-02"
       /\ assoc "data-year" a
          = Some (ToString (getFullYear h (new_Date h "2026-01-02")))
       /\ assoc "data-month" a
          = Some (ToString (add1 (getMonth h (new_Date h "2026-01-02"))))
       /\ assoc "data-day" a
          = Some (ToString (getDate h (new_Date h "2026-01-02"))).
Proof.
  intros h doc el.
  split; [reflexivity|]. split; [reflexivity|]. split; [reflexivity|].
  split; [vm_compute; reflexivity|].
  split; [reflexivity|]. split; [reflexivity|]. split; [reflexivity|].
  apply (annotator_last_writer_wins h (Some p_or_post_date) doc [[O]] [[2; O]%nat]
           [1]%nat [] el "2026-01-02");
    [reflexivity | reflexivity | reflexivity | vm_compute; reflexivity | reflexivity |].
  intros later el' dateValue' [<-|[]] _ _. vm_compute. discriminate.
Defined.

(** The three time elements: the date of the second stands on the shared
    target, where the first had written its own. *)
Example three_times_example :
  Annotator.addDateDataAttributes Examples.utc (Some p_or_post_date) three_times
  = Ok (Element "div" [("class", "post-date"); ("data-date", "2026-01-02");
                       ("data-year", "2026"); ("data-month", "1"); ("data-day", "2")]
          [Element "time" [("datetime", "2025-12-09")] [];
           Element "time" [] [Text "2026-01-02"];
           Element "p" [("data-date", "2024-05-05"); ("data-year", "2024");
                        ("data-month", "5"); ("data-day", "5")]
                   [Element "time" [("datetime", "2024-05-05")] []]])
  /\ Annotator.annotate Examples.utc (Some p_or_post_date) three_times [O]
     = Ok (Element "div" [("class", "post-date"); ("data-date", "2025-12-09");
                          ("data-year", "2025"); ("data-month", "12"); ("data-day", "9")]
             [Element "time" [("datetime", "2025-12-09")] [];
              Element "time" [] [Text "2026-01-02"];
              Element "p" [] [Element "time" [("datetime", "2024-05-05")] []]]).
Proof. split; vm_compute; reflexivity. Qed.

(** ** The [datetime] attribute as it stands *)

(** X7.  The annotator does not look at what a non-empty [datetime]
    attribute holds: whatever the value, it is copied to [data-date] of
    the target as it stands, and when [new Date] does not read it as a
    date the three components are written as [NaN]. *)
Theorem annotator_copies_the_datetime_verbatim (h : Host)
        (parentSelector : option selector) (doc : node) (timeEl parentEl : path)
        (el : node) (v : string) :
  lookup doc timeEl = Some el ->
  getAttribute el "datetime" = Some v -> v <> "" ->
  Annotator.resolve_parent parentSelector doc timeEl = Some parentEl ->
  exists doc' t a cs,
    Annotator.annotate h parentSelector doc timeEl = Ok doc'
    /\ lookup doc' parentEl = Some (Element t a cs)
    /\ assoc "data-date" a = Some v
    /\ (new_Date h v = NaN ->
        assoc "data-year" a = Some "NaN" /\ assoc "data-month" a = Some "NaN"
        /\ assoc "data-day" a = Some "NaN").
Proof.
  intros Hl Hg Hv Hq.
  destruct (resolve_parent_element parentSelector doc timeEl parentEl el Hl Hq)
    as [t [a0 [cs Hq0]]].
  exists (update (map_attrs (sets (annotation h v))) doc parentEl),
         t, (sets (annotation h v) a0), cs.
  split.
  { rewrite annotate_total, annotate_plan. unfold plan.
    rewrite Hl, (resolve_from_attribute h el v Hg Hv), Hq. reflexivity. }
  split; [exact (lookup_update_same (map_attrs (sets (annotation h v)))
                                    doc parentEl _ Hq0)|].
  assert (Hnd : NoDup (map fst (annotation h v)))
    by (repeat (constructor; [simpl; intuition discriminate|]); constructor).
  split; [rewrite (assoc_sets _ _ _ Hnd); reflexivity|].
  intros Hnan. rewrite !(assoc_sets _ _ _ Hnd). unfold annotation. rewrite Hnan.
  repeat split; reflexivity.
Qed.

Lemma annotator_copies_the_datetime_verbatim_witness :
  let h := Examples.utc in
  let doc := Examples.post [("datetime", "next week")] "TBD" in
  let el := Element "time" [("datetime", "next week")] [Text "TBD"] in
  lookup doc [O] = Some el
  /\ getAttribute el "datetime" = Some "next week"
  /\ Annotator.resolve_parent (Some Examples.post_date) doc [O] = Some []
  /\ new_Date h "next week" = NaN
  /\ exists doc' t a cs,
       Annotator.annotate h (Some Examples.post_date) doc [O] = Ok doc'
       /\ lookup doc' [] = Some (Element t a cs)
       /\ assoc "data-date" a = Some "next week"
       /\ (new_Date h "next week" = NaN ->
           assoc "data-year" a = Some "NaN" /\ assoc "data-month" a = Some "NaN"
           /\ assoc "data-day" a = Some "NaN").
Proof.
  intros h doc el.
  split; [reflexivity|]. split; [reflexivity|]. split; [reflexivity|].
  split; [vm_compute; reflexivity|].
  apply (annotator_copies_the_datetime_verbatim h (Some Examples.post_date) doc
           [O] [] el "next week"); [reflexivity | reflexivity | discriminate | reflexivity].
Defined.

(** ** Elements that no time element resolves to *)

(** X18.  The annotator clears nothing: under a selector that does not
    test the annotation, an element that no time element with a date
    value resolves to in this run keeps its name and all its attributes,
    the [data-date], [data-year], [data-month] and [data-day] of an
    earlier run included. *)
Theorem annotator_keeps_stale_annotations (h : Host)
        (parentSelector : option selector) (doc : node) (q : path) :
  blind parentSelector = true ->
  (forall timeEl el dateValue,
      In timeEl (querySelectorAll Annotator.time_selector doc) ->
      lookup doc timeEl = Some el ->
      Annotator.resolve_dateValue h el = Ok (Some dateValue) ->
      Annotator.resolve_parent parentSelector doc timeEl <> Some q) ->
  exists doc',
    Annotator.addDateDataAttributes h parentSelector doc = Ok doc'
    /\ option_map own_data (lookup doc' q) = option_map own_data (lookup doc q).
Proof.
  intros Hblind Hnone. rewrite addDateDataAttributes_total.
  eexists. split; [reflexivity|].
  destruct (run_performs_plans h parentSelector Hblind doc
              (querySelectorAll Annotator.time_selector doc) doc (sim_refl doc))
    as [E _].
  rewrite E. apply perform_others.
  unfold targets. rewrite in_flat_map. intros [e [He Hin]].
  apply in_map_iff in He. destruct He as [timeEl [<- HtimeEl]].
  unfold plan in Hin.
  destruct (lookup doc timeEl) as [el|] eqn:El; [|contradiction].
  destruct (Annotator.resolve_dateValue h el) as [[dv|]|] eqn:Ev; try contradiction.
  destruct (Annotator.resolve_parent parentSelector doc timeEl) as [q'|] eqn:Eq;
    [|contradiction].
  destruct Hin as [->|[]].
  apply (Hnone timeEl el dv HtimeEl El Ev Eq).
Qed.

Lemma annotator_keeps_stale_annotations_witness :
  let h := Examples.utc in
  let doc :=
    Element "section" [("data-date", "1999-12-31"); ("data-day", "31")]
            [Examples.post [] "December 9, 2025"] in
  blind (Some Examples.post_date) = true
  /\ querySelectorAll Annotator.time_selector doc = [[O; O]]
  /\ Annotator.resolve_parent (Some Examples.post_date) doc [O; O] = Some [O]
  /\ exists doc',
       Annotator.addDateDataAttributes h (Some Examples.post_date) doc = Ok doc'
       /\ option_map own_data (lookup doc' [])
          = option_map own_data (lookup doc []).
Proof.
  intros h doc. split; [reflexivity|]. split; [reflexivity|]. split; [reflexivity|].
  apply (annotator_keeps_stale_annotations h (Some Examples.post_date) doc []);
    [reflexivity|].
  intros timeEl el dateValue Hin _ _. vm_compute in Hin. destruct Hin as [<-|[]].
  vm_compute. discriminate.
Defined.

Open Scope Z_scope.

(** ** The day before *)

Lemma legal_date_bounds (y m d : Z) :
  legal_date y m d = true <-> 1 <= m <= 12 /\ 1 <= d <= DaysInMonth y m.
Proof.
  unfold legal_date. rewrite !andb_true_iff, !Z.leb_le. tauto.
Qed.

Lemma previous_day_MakeDay (y m d : Z) :
  legal_date y m d = true ->
  let '(y', m', d') := previous_day y m d in
  legal_date y' m' d' = true /\ MakeDay y' (m' - 1) d' = MakeDay y (m - 1) d - 1.
Proof.
  intros Hl. apply legal_date_bounds in Hl. destruct Hl as [Hm Hd].
  unfold previous_day.
  destruct (Z.leb_spec 2 d) as [H2|H2].
  - split; [apply legal_date_bounds; lia|].
    rewrite !MakeDay_month by lia. lia.
  - assert (d = 1) by lia. subst d.
    destruct (Z.leb_spec 2 m) as [M2|M2].
    + assert (Hm' : 1 <= m - 1 <= 12) by lia.
      rewrite !MakeDay_month by lia.
      unfold DaysInMonth.
      set (leap := if DaysInYear y =? 366 then 1 else 0).
      assert (Bl : 0 <= leap <= 1)
        by (subst leap; destruct (DaysInYear y =? 366); lia).
      destruct (month_start_cases leap (m - 1) Hm') as [a [b [Ea [Eb Cases]]]].
      split.
      * apply legal_date_bounds. unfold DaysInMonth. fold leap. rewrite Ea, Eb. lia.
      * rewrite Ea, Eb. lia.
    + assert (m = 1) by lia. subst m.
      split.
      * apply legal_date_bounds. unfold DaysInMonth.
        destruct (DaysInYear (y - 1) =? 366); cbn [month_start]; simpl; lia.
      * rewrite (MakeDay_month (y - 1) 12 31), (MakeDay_month y 1 1) by lia.
        pose proof (DayFromYear_succ (y - 1)) as S.
        replace (y - 1 + 1) with y in S by lia.
        pose proof (DaysInYear_bounds (y - 1)) as B.
        destruct (Z.eqb_spec (DaysInYear (y - 1)) 366); cbn [month_start]; simpl; lia.
Qed.

Section WestOfUTC.
Variable h : Host.
Hypothesis west : forall t, - msPerDay <= LocalTZA h t < 0.

Lemma annotation_west_of_UTC (s : string) (y m d : Z) :
  parse_iso_date s = Some (y, m, d) -> legal_date y m d = true ->
  let '(y', m', d') := previous_day y m d in
  annotation h s
  = [ ("data-date", s); ("data-year", Z_to_string y');
      ("data-month", Z_to_string m'); ("data-day", Z_to_string d') ].
Proof.
  intros Hp Hl. pose proof (previous_day_MakeDay y m d Hl) as Hprev.
  destruct (previous_day y m d) as [[y' m'] d']. destruct Hprev as [Hl' Hmk].
  unfold annotation. rewrite (new_Date_iso h s y m d Hp Hl).
  unfold getFullYear, getMonth, getDate, LocalTime.
  set (t := MakeDate (MakeDay y (m - 1) d) 0).
  assert (Ht : t + LocalTZA h t
               = MakeDate (MakeDay y' (m' - 1) d') (msPerDay + LocalTZA h t))
    by (unfold t, MakeDate; rewrite Hmk; lia).
  rewrite Ht.
  destruct (fields_of_MakeDay y' m' d' (msPerDay + LocalTZA h t) Hl')
    as [E1 [E2 E3]]; [pose proof (west t); lia|].
  rewrite E1, E2, E3. cbn [add1 ToString].
  replace (m' - 1 + 1) with m' by lia. reflexivity.
Qed.

End WestOfUTC.

(** X8.  In a zone west of UTC, by a day at most, the components that
    the annotator writes for a legal date-only value are those of the
    calendar day before it: the day before in the same month, the last day
    of the month before, or December 31 of the year before; [data-date]
    is the value itself. *)
Theorem annotator_west_of_UTC_writes_the_day_before (h : Host) (s : string)
        (y m d : Z) (t : string) (a : list (string * string)) (cs : list node) :
  (forall t, - msPerDay <= LocalTZA h t < 0) ->
  parse_iso_date s = Some (y, m, d) -> legal_date y m d = true ->
  let '(y', m', d') := previous_day y m d in
  let parentEl := Annotator.write_attributes h s (Element t a cs) in
  getAttribute parentEl "data-date" = Some s
  /\ getAttribute parentEl "data-year" = Some (Z_to_string y')
  /\ getAttribute parentEl "data-month" = Some (Z_to_string m')
  /\ getAttribute parentEl "data-day" = Some (Z_to_string d').
Proof.
  intros Hwest Hp Hl.
  pose proof (annotation_west_of_UTC h Hwest s y m d Hp Hl) as E.
  destruct (previous_day y m d) as [[y' m'] d'].
  rewrite write_attributes_sets. cbn [map_attrs]. unfold getAttribute. cbn [attrs].
  rewrite E.
  split; [|split; [|split]]; rewrite assoc_sets
    by (repeat (constructor; [simpl; intuition discriminate|]); constructor);
    reflexivity.
Qed.

Lemma annotator_west_of_UTC_writes_the_day_before_witness :
  let h := Examples.new_york in
  let parentEl :=
    Annotator.write_attributes h "2025-01-01"
      (Element "div" [("class", "post-date")] []) in
  (forall t, (- msPerDay <= LocalTZA h t < 0)%Z)
  /\ parse_iso_date "2025-01-01" = Some (2025, 1, 1)%Z
  /\ legal_date 2025 1 1 = true
  /\ previous_day 2025 1 1 = (2024, 12, 31)%Z
  /\ getAttribute parentEl "data-date" = Some "2025-01-01"
  /\ getAttribute parentEl "data-year" = Some (Z_to_string 2024)
  /\ getAttribute parentEl "data-month" = Some (Z_to_string 12)
  /\ getAttribute parentEl "data-day" = Some (Z_to_string 31).
Proof.
  intros h parentEl.
  assert (Hwest : forall t, (- msPerDay <= LocalTZA h t < 0)%Z)
    by (intros t; vm_compute; split; [discriminate | reflexivity]).
  split; [exact Hwest|]. split; [reflexivity|]. split; [reflexivity|].
  split; [reflexivity|].
  exact (annotator_west_of_UTC_writes_the_day_before h "2025-01-01" 2025 1 1
           "div" [("class", "post-date")] [] Hwest eq_refl eq_refl).
Defined.

(** ** The date of [toISOString] read again *)

Lemma in_upto (n z : Z) : 0 <= z < n -> In z (upto n).
Proof.
  intros H. unfold upto. apply in_map_iff. exists (Z.to_nat z).
  split; [lia|]. apply in_seq. lia.
Qed.

Lemma four_digits_table : forallb four_digits_ok (upto 10000) = true.
Proof. vm_compute. reflexivity. Qed.

Lemma two_digits_table : forallb two_digits_ok (upto 100) = true.
Proof. vm_compute. reflexivity. Qed.

Lemma pad4_digits (y : Z) :
  0 <= y <= 9999 ->
  exists a b c d,
    pad 4 y = String a (String b (String c (String d EmptyString)))
    /\ digits_val 0 [a; b; c; d] = Some y.
Proof.
  intros H. pose proof four_digits_table as T. rewrite forallb_forall in T.
  specialize (T y (in_upto 10000 y ltac:(lia))). unfold four_digits_ok in T.
  rewrite <- (string_of_list_ascii_of_string (pad 4 y)).
  destruct (list_ascii_of_string (pad 4 y)) as [|a [|b [|c [|d [|]]]]]; try discriminate.
  destruct (digits_val 0 [a; b; c; d]) as [v|] eqn:V; [|discriminate].
  apply Z.eqb_eq in T. subst v. exists a, b, c, d. split; [reflexivity | exact V].
Qed.

Lemma pad2_digits (n : Z) :
  0 <= n <= 99 ->
  pad 2 n = two_digits n
  /\ digits_val 0 (list_ascii_of_string (two_digits n)) = Some n.
Proof.
  intros H. pose proof two_digits_table as T. rewrite forallb_forall in T.
  specialize (T n (in_upto 100 n ltac:(lia))). unfold two_digits_ok in T.
  apply andb_true_iff in T. destruct T as [T1 T2].
  apply String.eqb_eq in T1. split; [exact T1|].
  destruct (digits_val 0 (list_ascii_of_string (two_digits n))) as [v|]; [|discriminate].
  apply Z.eqb_eq in T2. subst v. reflexivity.
Qed.

Lemma digit_not_T (c : ascii) : is_digit c = true -> Ascii.eqb c "T" = false.
Proof.
  intros H. destruct (Ascii.eqb_spec c "T") as [->|]; [discriminate H | reflexivity].
Qed.

Lemma digits_val_digits (l : list ascii) (acc v : Z) :
  digits_val acc l = Some v -> forallb is_digit l = true.
Proof.
  revert acc; induction l as [|c l IH]; intros acc; [reflexivity|].
  cbn [digits_val forallb]. destruct (is_digit c); [apply IH | discriminate].
Qed.

(** The day of the year lies within the year, and in the month that
    [MonthFromTime] finds. *)
Lemma DayWithinYear_bounds (t : Z) :
  0 <= InLeapYear t <= 1
  /\ DaysInYear (YearFromTime t) = 365 + InLeapYear t
  /\ 0 <= DayWithinYear t < 365 + InLeapYear t.
Proof.
  pose proof (YearFromDay_spec (Day t)) as S.
  rewrite DayFromYear_succ in S. fold (YearFromTime t) in S.
  pose proof (DaysInYear_bounds (YearFromTime t)) as B.
  unfold InLeapYear, DayWithinYear.
  destruct (Z.eqb_spec (DaysInYear (YearFromTime t)) 366); lia.
Qed.

Lemma MonthFromTime_spec (t : Z) :
  0 <= MonthFromTime t <= 11
  /\ month_start (InLeapYear t) (MonthFromTime t) <= DayWithinYear t
     < month_start (InLeapYear t) (MonthFromTime t + 1).
Proof.
  destruct (DayWithinYear_bounds t) as [Bl [_ Bd]].
  unfold MonthFromTime.
  set (d := DayWithinYear t) in *. set (leap := InLeapYear t) in *.
  cbn [month_start].
  repeat match goal with
         | |- context [if (d <? ?z) then _ else _] => destruct (Z.ltb_spec d z)
         end;
    match goal with
    | |- context [month_start leap (?k + 1)] =>
        let v := eval vm_compute in (k + 1) in change (k + 1) with v
    end;
    cbn [month_start]; lia.
Qed.

(** The fields of a date make a legal date, which [MakeDay] takes back to
    the day. *)
Lemma fields_legal (t : Z) :
  legal_date (YearFromTime t) (MonthFromTime t + 1) (DateFromTime t) = true
  /\ MakeDay (YearFromTime t) (MonthFromTime t + 1 - 1) (DateFromTime t) = Day t.
Proof.
  destruct (DayWithinYear_bounds t) as [Bl [Hleap Bd]].
  destruct (MonthFromTime_spec t) as [Bm Hm].
  assert (El : (if DaysInYear (YearFromTime t) =? 366 then 1 else 0) = InLeapYear t)
    by reflexivity.
  split.
  - apply legal_date_bounds. split; [lia|].
    unfold DaysInMonth, DateFromTime. rewrite El.
    replace (MonthFromTime t + 1 - 1) with (MonthFromTime t) by lia. lia.
  - rewrite MakeDay_month by lia. rewrite El.
    replace (MonthFromTime t + 1 - 1) with (MonthFromTime t) by lia.
    unfold DateFromTime, DayWithinYear. lia.
Qed.

Lemma fields_bounds (t : Z) :
  0 <= MonthFromTime t <= 11 /\ 1 <= DateFromTime t <= 31.
Proof.
  destruct (fields_legal t) as [Hl _]. apply legal_date_bounds in Hl.
  destruct Hl as [Hm Hd]. split; [lia|].
  unfold DaysInMonth in Hd.
  set (leap := if DaysInYear (YearFromTime t) =? 366 then 1 else 0) in *.
  assert (Bl : 0 <= leap <= 1)
    by (subst leap; destruct (DaysInYear (YearFromTime t) =? 366); lia).
  destruct (month_start_cases leap (MonthFromTime t + 1) Hm) as [a [b [Ea [Eb Cases]]]].
  rewrite Ea, Eb in Hd. lia.
Qed.

(** The date part of [toISOString] of an instant of the years 0 to 9999 is
    the ten characters of its UTC year, month and day. *)
Lemma iso_date_parse (t : Z) :
  0 <= YearFromTime t <= 9999 ->
  parse_iso_date (split_T_first (iso_string t))
  = Some (YearFromTime t, MonthFromTime t + 1, DateFromTime t).
Proof.
  intros Hy. destruct (fields_bounds t) as [Hm Hd].
  destruct (pad4_digits (YearFromTime t) Hy) as [a [b [c [d [Ey Vy]]]]].
  destruct (pad2_digits (MonthFromTime t + 1) ltac:(lia)) as [Em Vm].
  destruct (pad2_digits (DateFromTime t) ltac:(lia)) as [Ed Vd].
  unfold iso_string, iso_year.
  replace ((0 <=? YearFromTime t) && (YearFromTime t <=? 9999)) with true
    by (symmetry; apply andb_true_iff; rewrite !Z.leb_le; exact Hy).
  rewrite Ey, Em, Ed.
  pose proof (digits_val_digits _ _ _ Vy) as Dy.
  pose proof (digits_val_digits _ _ _ Vm) as Dm.
  pose proof (digits_val_digits _ _ _ Vd) as Dd.
  unfold two_digits in *.
  set (m1 := digit_char ((MonthFromTime t + 1) / 10)) in *.
  set (m2 := digit_char ((MonthFromTime t + 1) mod 10)) in *.
  set (d1 := digit_char (DateFromTime t / 10)) in *.
  set (d2 := digit_char (DateFromTime t mod 10)) in *.
  cbn [forallb list_ascii_of_string] in Dy, Dm, Dd.
  repeat match goal with
         | H : _ && _ = true |- _ => apply andb_true_iff in H; destruct H
         end.
  cbn [append split_T_first].
  repeat match goal with
         | H : is_digit ?c = true |- _ => rewrite (digit_not_T c H); clear H
         end.
  cbn [Ascii.eqb Bool.eqb split_T_first].
  unfold parse_iso_date. cbn [list_ascii_of_string].
  cbn [Ascii.eqb Bool.eqb andb].
  cbn [list_ascii_of_string] in Vm, Vd.
  rewrite Vy, Vm, Vd. reflexivity.
Qed.

Lemma iso_date_new_Date (h : Host) (t : Z) :
  0 <= YearFromTime t <= 9999 ->
  new_Date h (split_T_first (iso_string t)) = Num (msPerDay * Day t).
Proof.
  intros Hy. destruct (fields_legal t) as [Hl Hmk].
  rewrite (new_Date_iso h _ _ _ _ (iso_date_parse t Hy) Hl), Hmk.
  unfold MakeDate. f_equal. lia.
Qed.

Lemma split_T_first_app (p r : string) :
  string_forallb (fun c => negb (Ascii.eqb c "T")) p = true ->
  split_T_first (p ++ String "T" r) = p.
Proof.
  induction p as [|c p IH]; intros H; [reflexivity|].
  cbn [string_forallb] in H. apply andb_true_iff in H. destruct H as [Hc Hp].
  cbn [append split_T_first]. apply negb_true_iff in Hc. rewrite Hc, (IH Hp).
  reflexivity.
Qed.

Lemma pad_chars (n : nat) (z : Z) : string_forallb is_num_char (pad n z) = true.
Proof.
  unfold pad, padStart0. rewrite string_forallb_app.
  rewrite string_forallb_repeat by reflexivity. apply Z_to_string_chars.
Qed.

Lemma iso_date_chars (y m d : Z) :
  string_forallb (fun c => negb (Ascii.eqb c "T")) (iso_date y m d) = true.
Proof.
  apply (string_forallb_impl is_num_char).
  - intros c Hc. unfold is_num_char, is_digit in Hc.
    destruct (Ascii.eqb_spec c "T") as [->|]; [discriminate Hc | reflexivity].
  - unfold iso_date. rewrite !string_forallb_app, !pad_chars. reflexivity.
Qed.

(** The date part of [toISOString] is the ISO form of the UTC fields. *)
Lemma iso_string_date (t : Z) :
  0 <= YearFromTime t <= 9999 ->
  split_T_first (iso_string t)
  = iso_date (YearFromTime t) (MonthFromTime t + 1) (DateFromTime t).
Proof.
  intros Hy. unfold iso_string, iso_year.
  replace ((0 <=? YearFromTime t) && (YearFromTime t <=? 9999)) with true
    by (symmetry; apply andb_true_iff; rewrite !Z.leb_le; exact Hy).
  rewrite <- (split_T_first_app
                (iso_date (YearFromTime t) (MonthFromTime t + 1) (DateFromTime t))
                (pad 2 (HourFromTime t) ++ ":" ++ pad 2 (MinFromTime t) ++ ":"
                 ++ pad 2 (SecFromTime t) ++ "." ++ pad 3 (msFromTime t) ++ "Z")
                (iso_date_chars _ _ _)) at 1.
  f_equal. unfold iso_date. rewrite !append_assoc. reflexivity.
Qed.

(** X9.  The text path of the annotator: the date value that it derives
    from the text of a time element, for an instant of the years 0 to
    9999, is the ISO form of the UTC year, month and day of the instant;
    read again by [new Date] at line 61 it is midnight UTC of that day,
    whatever the host; so the components written are the local fields of
    that midnight, and in a zone at or east of UTC they are the UTC year,
    month and day of the instant. *)
Theorem annotator_text_date_round_trip (h : Host) (el : node) (tv : Z) :
  truthy (getAttribute el "datetime") = false ->
  new_Date h (trim (textContent el)) = Num tv ->
  0 <= YearFromTime tv <= 9999 ->
  exists dateValue,
    Annotator.resolve_dateValue h el = Ok (Some dateValue)
    /\ dateValue = iso_date (YearFromTime tv) (MonthFromTime tv + 1) (DateFromTime tv)
    /\ parse_iso_date dateValue
       = Some (YearFromTime tv, MonthFromTime tv + 1, DateFromTime tv)
    /\ legal_date (YearFromTime tv) (MonthFromTime tv + 1) (DateFromTime tv) = true
    /\ new_Date h dateValue = Num (msPerDay * Day tv)
    /\ ((forall t, 0 <= LocalTZA h t < msPerDay) ->
        forall t a cs,
          let parentEl := Annotator.write_attributes h dateValue (Element t a cs) in
          getAttribute parentEl "data-date" = Some dateValue
          /\ getAttribute parentEl "data-year" = Some (Z_to_string (YearFromTime tv))
          /\ getAttribute parentEl "data-month"
             = Some (Z_to_string (MonthFromTime tv + 1))
          /\ getAttribute parentEl "data-day" = Some (Z_to_string (DateFromTime tv))).
Proof.
  intros Hf Ht Hy. exists (split_T_first (iso_string tv)).
  destruct (fields_legal tv) as [Hl _].
  split; [rewrite (resolve_from_text h el Hf), Ht; reflexivity|].
  split; [apply iso_string_date, Hy|].
  split; [apply iso_date_parse, Hy|].
  split; [exact Hl|].
  split; [apply iso_date_new_Date, Hy|].
  intros Heast t a cs.
  cbv zeta. rewrite write_attributes_sets. cbn [map_attrs]. unfold getAttribute.
  cbn [attrs].
  rewrite (annotation_east_of_UTC h Heast _ _ _ _ (iso_date_parse tv Hy) Hl).
  split; [|split; [|split]]; rewrite assoc_sets
    by (repeat (constructor; [simpl; intuition discriminate|]); constructor);
    reflexivity.
Qed.

Lemma annotator_text_date_round_trip_witness :
  let h := Examples.berlin in
  let el := Element "time" [] [Text "December 9, 2025"] in
  let tv := 1765234800000%Z in
  truthy (getAttribute el "datetime") = false
  /\ new_Date h (trim (textContent el)) = Num tv
  /\ (YearFromTime tv, MonthFromTime tv + 1, DateFromTime tv)%Z = (2025, 12, 8)%Z
  /\ exists dateValue,
       Annotator.resolve_dateValue h el = Ok (Some dateValue)
       /\ dateValue = iso_date (YearFromTime tv) (MonthFromTime tv + 1) (DateFromTime tv)
       /\ parse_iso_date dateValue
          = Some (YearFromTime tv, MonthFromTime tv + 1, DateFromTime tv)%Z
       /\ legal_date (YearFromTime tv) (MonthFromTime tv + 1) (DateFromTime tv) = true
       /\ new_Date h dateValue = Num (msPerDay * Day tv)
       /\ ((forall t, (0 <= LocalTZA h t < msPerDay)%Z) ->
           forall t a cs,
             let parentEl :=
               Annotator.write_attributes h dateValue (Element t a cs) in
             getAttribute parentEl "data-date" = Some dateValue
             /\ getAttribute parentEl "data-year"
                = Some (Z_to_string (YearFromTime tv))
             /\ getAttribute parentEl "data-month"
                = Some (Z_to_string (MonthFromTime tv + 1))
             /\ getAttribute parentEl "data-day"
                = Some (Z_to_string (DateFromTime tv))).
Proof.
  intros h el tv.
  split; [reflexivity|]. split; [vm_compute; reflexivity|].
  split; [vm_compute; reflexivity|].
  apply (annotator_text_date_round_trip h el tv);
    [reflexivity | vm_compute; reflexivity
     | vm_compute; split; discriminate].
Defined.

Close Scope Z_scope.

(* ================================================================== *)
(** * Further properties of the formatter *)
(* ================================================================== *)

(** ** The order of the passes *)

(** The passes for the codes of a table, in any order and any number of
    times each, give what one pass over the words gives. *)
Lemma fold_replace_single_pass (toks : list (string * Formatter.Token))
      (order : list string) :
  (forall lit, In lit (map fst toks) -> is_code lit = true) ->
  (forall lit t, In lit (map fst toks) -> Formatter.get lit toks = Some t ->
                 inert (map fst toks) (token_span t) = true) ->
  (forall lit, In lit order <-> In lit (map fst toks)) ->
  forall format,
    fold_left (Formatter.replace_token toks) order format = single_pass toks format.
Proof.
  intros Hc Hi Ho format. unfold single_pass.
  assert (Hincl : incl order (map fst toks)) by (intros x Hx; apply Ho, Hx).
  rewrite <- (flatten_segs (fold_left _ _ _)).
  rewrite (segs_fold_replace toks (map fst toks) Hc Hi _ _ Hincl).
  induction (segs format) as [|g l IH]; [reflexivity|].
  cbn [flat_map map]. rewrite map_app, flatten_app, IH. cbn [flatten]. f_equal.
  destruct g as [w|c]; [|reflexivity]. cbn [expand_all render_seg].
  destruct (existsb (String.eqb w) order) eqn:E.
  - destruct (Formatter.get w toks) as [t|].
    + apply flatten_segs.
    + simpl. apply append_nil_r.
  - destruct (Formatter.get w toks) as [t|] eqn:Eg; [|simpl; apply append_nil_r].
    exfalso. apply get_In in Eg.
    assert (existsb (String.eqb w) order = true); [|congruence].
    apply existsb_exists. exists w. split; [apply Ho; exact Eg|].
    apply String.eqb_refl.
Qed.

(** X10.  The result of the substitution does not depend on the order of
    the passes: replacing the codes of the table in any order, each once
    or more, gives what [formatDate] computes by taking them longest
    first.  The word boundaries alone keep a short code from matching
    inside a long one. *)
Theorem substitution_does_not_depend_on_the_order (h : Host) (date : Number)
        (order : list string) (format : string) :
  (forall code, In code order <-> In code (map fst (Formatter.tokens h date))) ->
  fold_left (Formatter.replace_token (Formatter.tokens h date)) order format
  = Formatter.substitute (Formatter.tokens h date) format.
Proof.
  intros Ho. rewrite substitute_single_pass.
  apply fold_replace_single_pass; [| |exact Ho].
  - intros lit Hin. rewrite token_codes_keys in Hin.
    repeat (destruct Hin as [<-|Hin]; [reflexivity|]). contradiction.
  - intros lit t Hin. rewrite token_codes_keys in *. apply tokens_inert. exact Hin.
Qed.

Lemma substitution_does_not_depend_on_the_order_witness :
  let h := Examples.utc in
  let date := Num 1765238400000 in
  let order := ["D"; "M"; "DD"; "MM"; "YY"; "ddd"; "MMM"; "dddd"; "MMMM"; "YYYY"] in
  (forall code, In code order <-> In code (map fst (Formatter.tokens h date)))
  /\ fold_left (Formatter.replace_token (Formatter.tokens h date)) order "YYYY-MM-DD"
     = Formatter.substitute (Formatter.tokens h date) "YYYY-MM-DD".
Proof.
  intros h date order.
  assert (Ho : forall code,
             In code order <-> In code (map fst (Formatter.tokens h date)))
    by (intros code; simpl; tauto).
  split; [exact Ho|].
  apply (substitution_does_not_depend_on_the_order h date order "YYYY-MM-DD" Ho).
Defined.

(** ** The escaped code *)

Lemma escapeRegExp_word (s : string) :
  string_forallb is_word s = true -> escapeRegExp s = s.
Proof.
  induction s as [|c r IH]; [reflexivity|]. cbn [string_forallb escapeRegExp].
  intros H. apply andb_true_iff in H. destruct H as [Hc Hr].
  rewrite (IH Hr).
  assert (E : is_regex_special c = false).
  { destruct (is_regex_special c) eqn:E; [|reflexivity].
    unfold is_regex_special in E. apply existsb_exists in E.
    destruct E as [x [Hx Ex]]. apply Ascii.eqb_eq in Ex. subst x.
    simpl in Hx.
    repeat (destruct Hx as [<-|Hx]; [discriminate Hc|]). contradiction. }
  rewrite E. reflexivity.
Qed.

(** X11.  Escaping loses nothing and adds nothing: the pattern source
    that line 104 builds from a string holds no bare syntax character and
    no backslash but before a syntax character, so it is a literal, and
    the literal is that very string, character for character, whatever
    syntax characters it holds.  A string of word characters, as every
    code of the table is, is its own escaped form. *)
Theorem escaped_code_denotes_the_code (s : string) :
  pattern_literal (escapeRegExp s) = Some s
  /\ (string_forallb is_word s = true -> escapeRegExp s = s)
  /\ (In s token_codes -> escapeRegExp s = s).
Proof.
  split; [apply pattern_literal_escapeRegExp|].
  split; [apply escapeRegExp_word|].
  intros Hin. apply escapeRegExp_word.
  unfold token_codes in Hin.
  repeat (destruct Hin as [<-|Hin]; [reflexivity|]). contradiction.
Qed.

(** ** Templates without codes *)

Lemma get_None {A : Type} (k : string) (o : list (string * A)) :
  existsb (String.eqb k) (map fst o) = false -> Formatter.get k o = None.
Proof.
  induction o as [|[k' v] o IH]; [reflexivity|]. cbn [map fst existsb Formatter.get].
  intros H. apply orb_false_iff in H. destruct H as [H1 H2].
  rewrite String.eqb_sym, H1. apply IH, H2.
Qed.

(** X19.  The substitution touches nothing but whole codes: a template
    none of whose words is a code of the table comes out as it went in,
    whatever the date; so does every character outside a word, and every
    word that only contains a code. *)
Theorem template_without_codes_is_unchanged (h : Host) (date : Number)
        (format : string) :
  inert (map fst (Formatter.tokens h date)) format = true ->
  Formatter.substitute (Formatter.tokens h date) format = format.
Proof.
  intros Hi. rewrite substitute_single_pass. unfold single_pass.
  rewrite <- (flatten_segs format) at 2. f_equal.
  unfold inert in Hi. rewrite forallb_forall in Hi.
  apply map_ext_in. intros [w|c] Hg; [|reflexivity].
  specialize (Hi _ Hg). cbn beta iota in Hi. apply negb_true_iff in Hi.
  cbn [render_seg seg_string]. rewrite (get_None w _ Hi). reflexivity.
Qed.

Lemma template_without_codes_is_unchanged_witness :
  let h := Examples.utc in
  let date := Num 1765238400000 in
  inert (map fst (Formatter.tokens h date)) "Dec YYYYMMDD, D_M (d)" = true
  /\ Formatter.substitute (Formatter.tokens h date) "Dec YYYYMMDD, D_M (d)"
     = "Dec YYYYMMDD, D_M (d)".
Proof.
  intros h date. split; [reflexivity|].
  apply (template_without_codes_is_unchanged h date "Dec YYYYMMDD, D_M (d)").
  reflexivity.
Defined.

(** ** The values of the table *)

Open Scope Z_scope.

Lemma short_year_table : forallb short_year_table_ok (upto 10000) = true.
Proof. vm_compute. reflexivity. Qed.

Lemma short_year (y : Z) :
  0 <= y <= 9999 ->
  slice_last2 (Z_to_string y)
  = if y <? 10 then Z_to_string y else two_digits (y mod 100).
Proof.
  intros H. pose proof short_year_table as T. rewrite forallb_forall in T.
  specialize (T y (in_upto 10000 y ltac:(lia))). unfold short_year_table_ok in T.
  destruct (y <? 10); [apply String.eqb_eq, T|].
  unfold short_year_ok in T. apply String.eqb_eq, T.
Qed.

Lemma nth_name (names : list string) (i : Z) :
  0 <= i < Z.of_nat (List.length names) ->
  nth_error names (Z.to_nat i) = Some (nth (Z.to_nat i) names "").
Proof.
  intros H. apply nth_error_nth'. lia.
Qed.

(** X12.  The table of a valid date, whatever the host: the month is from
    1 to 12 and the day from 1 to 31; [MM] and [DD] are always two digits,
    those of [M] and [D]; [MMMM] and [dddd] are always one of the twelve
    and of the seven English names, and [MMM] and [ddd] their first three
    letters; [YY] is the two digits of the year in its century from the
    year 10 to the year 9999, and the single digit of the year before. *)
Theorem token_values_of_a_valid_date (h : Host) (tv : Z) :
  let toks := Formatter.tokens h (Num tv) in
  let value_of code := option_map Formatter.value (Formatter.get code toks) in
  let y := YearFromTime (LocalTime h tv) in
  let m := MonthFromTime (LocalTime h tv) + 1 in
  let d := DateFromTime (LocalTime h tv) in
  let w := WeekDay (LocalTime h tv) in
  (1 <= m <= 12 /\ 1 <= d <= 31 /\ 0 <= w <= 6)
  /\ value_of "YYYY" = Some (VNum (Num y))
  /\ value_of "M" = Some (VNum (Num m))
  /\ value_of "MM" = Some (VStr (two_digits m))
  /\ value_of "D" = Some (VNum (Num d))
  /\ value_of "DD" = Some (VStr (two_digits d))
  /\ (exists name,
         nth_error month_names (Z.to_nat (m - 1)) = Some name
         /\ value_of "MMMM" = Some (VStr name)
         /\ value_of "MMM" = Some (VStr (substring 0 3 name)))
  /\ (exists name,
         nth_error weekday_names (Z.to_nat w) = Some name
         /\ value_of "dddd" = Some (VStr name)
         /\ value_of "ddd" = Some (VStr (substring 0 3 name)))
  /\ (10 <= y <= 9999 -> value_of "YY" = Some (VStr (two_digits (y mod 100))))
  /\ (0 <= y <= 9 -> value_of "YY" = Some (VStr (Z_to_string y))).
Proof.
  cbv zeta.
  destruct (fields_bounds (LocalTime h tv)) as [Bm Bd].
  assert (Bw : 0 <= WeekDay (LocalTime h tv) <= 6).
  { unfold WeekDay. pose proof (Z.mod_pos_bound (Day (LocalTime h tv) + 4) 7). lia. }
  split; [lia|].
  cbn [Formatter.tokens Formatter.get String.eqb Ascii.eqb Bool.eqb option_map
       Formatter.value getFullYear getMonth getDate add1 ToString
       toLocale_month toLocale_weekday].
  split; [reflexivity|]. split; [reflexivity|].
  split.
  { destruct (pad2_digits (MonthFromTime (LocalTime h tv) + 1) ltac:(lia)) as [E _].
    unfold pad in E. rewrite E. reflexivity. }
  split; [reflexivity|].
  split.
  { destruct (pad2_digits (DateFromTime (LocalTime h tv)) ltac:(lia)) as [E _].
    unfold pad in E. rewrite E. reflexivity. }
  split.
  { exists (month_long (MonthFromTime (LocalTime h tv))).
    replace (MonthFromTime (LocalTime h tv) + 1 - 1)
      with (MonthFromTime (LocalTime h tv)) by lia.
    split; [apply nth_name; simpl; lia|]. split; reflexivity. }
  split.
  { exists (weekday_long (WeekDay (LocalTime h tv))).
    split; [apply nth_name; simpl; lia|]. split; reflexivity. }
  split.
  - intros Hy. rewrite short_year by lia.
    destruct (Z.ltb_spec (YearFromTime (LocalTime h tv)) 10); [lia | reflexivity].
  - intros Hy. rewrite short_year by lia.
    destruct (Z.ltb_spec (YearFromTime (LocalTime h tv)) 10); [reflexivity | lia].
Qed.

Close Scope Z_scope.

(** ** The formatter and the annotator on one time element *)


(** X13.  The [datetime] attribute that the formatter gives to a TIME
    element is the date value that the annotator derives from the text of
    that element: after the formatter the annotator reads it from the
    attribute, and for an element that had no usable [datetime] it is what
    the annotator would have resolved before.  An element that had
    another [datetime] value loses it. *)
Theorem formatter_datetime_is_the_annotator_date (h : Host) (name format : string)
        (t : string) (a : list (string * string)) (cs : list node) (tv : Z) :
  toUpperCase t = "TIME" ->
  new_Date h (trim (textContent (Element t a cs))) = Num tv ->
  exists el',
    Formatter.format_element h name format (Element t a cs) = Ok (Some el')
    /\ getAttribute el' "datetime" = Some (split_T_first (iso_string tv))
    /\ Annotator.resolve_dateValue h el' = Ok (Some (split_T_first (iso_string tv)))
    /\ (truthy (getAttribute (Element t a cs) "datetime") = false ->
        Annotator.resolve_dateValue h (Element t a cs)
        = Annotator.resolve_dateValue h el').
Proof.
  intros Htag Hdate.
  rewrite (format_element_parseable h name format t a cs tv Hdate), Htag.
  cbn [String.eqb Ascii.eqb Bool.eqb].
  eexists. split; [reflexivity|].
  assert (Hg : getAttribute
                 (Element t (set_assoc "datetime" (split_T_first (iso_string tv)) a)
                    (parseFragment h
                       (Formatter.span name
                          (Formatter.substitute (Formatter.tokens h (Num tv)) format))))
                 "datetime" = Some (split_T_first (iso_string tv)))
    by apply assoc_set_assoc_same.
  assert (Hr : Annotator.resolve_dateValue h
                 (Element t (set_assoc "datetime" (split_T_first (iso_string tv)) a)
                    (parseFragment h
                       (Formatter.span name
                          (Formatter.substitute (Formatter.tokens h (Num tv)) format))))
               = Ok (Some (split_T_first (iso_string tv))))
    by (apply (resolve_from_attribute h _ _ Hg), iso_date_not_empty).
  split; [exact Hg|]. split; [exact Hr|].
  intros Hf. rewrite Hr, (resolve_from_text h _ Hf), Hdate. reflexivity.
Qed.

Lemma formatter_datetime_is_the_annotator_date_witness :
  let h := Examples.utc in
  let cs := [Text "December 9, 2025"] in
  let tv := 1765238400000%Z in
  toUpperCase "time" = "TIME"
  /\ new_Date h (trim (textContent (Element "time" [] cs))) = Num tv
  /\ exists el',
       Formatter.format_element h "pretty-date" "D MMM" (Element "time" [] cs)
       = Ok (Some el')
       /\ getAttribute el' "datetime" = Some (split_T_first (iso_string tv))
       /\ Annotator.resolve_dateValue h el' = Ok (Some (split_T_first (iso_string tv)))
       /\ (truthy (getAttribute (Element "time" [] cs) "datetime") = false ->
           Annotator.resolve_dateValue h (Element "time" [] cs)
           = Annotator.resolve_dateValue h el').
Proof.
  intros h cs tv.
  split; [reflexivity|]. split; [vm_compute; reflexivity|].
  apply (formatter_datetime_is_the_annotator_date h "pretty-date" "D MMM" "time" []
           cs tv); [reflexivity | vm_compute; reflexivity].
Defined.

Open Scope Z_scope.

(** ** The date of [toISOString] east of UTC *)


(** X14.  East of UTC the formatter shows one day and records another:
    when the text of a TIME element is read as local midnight of a date,
    in a zone ahead of UTC by a day at most, the tokens are the year, the
    month and the day of that date, and the [datetime] attribute written
    is the ISO form of the day before. *)
Theorem formatter_datetime_east_of_UTC (h : Host) (name format : string)
        (t : string) (a : list (string * string)) (cs : list node)
        (tv y m d : Z) :
  toUpperCase t = "TIME" ->
  new_Date h (trim (textContent (Element t a cs))) = Num tv ->
  legal_date y m d = true -> 1 <= y <= 9999 ->
  LocalTime h tv = MakeDate (MakeDay y (m - 1) d) 0 ->
  0 < LocalTZA h tv <= msPerDay ->
  let '(y', m', d') := previous_day y m d in
  let value_of code :=
    option_map Formatter.value (Formatter.get code (Formatter.tokens h (Num tv))) in
  exists el',
    Formatter.format_element h name format (Element t a cs) = Ok (Some el')
    /\ getAttribute el' "datetime" = Some (iso_date y' m' d')
    /\ value_of "YYYY" = Some (VNum (Num y))
    /\ value_of "M" = Some (VNum (Num m))
    /\ value_of "D" = Some (VNum (Num d)).
Proof.
  intros Htag Hdate Hl Hy Hlocal Htza.
  pose proof (previous_day_MakeDay y m d Hl) as Hprev.
  assert (Hy' : fst (fst (previous_day y m d)) = y
                \/ fst (fst (previous_day y m d)) = y - 1).
  { unfold previous_day. destruct (2 <=? d); [left; reflexivity|].
    destruct (2 <=? m); [left | right]; reflexivity. }
  assert (Hy0 : fst (fst (previous_day y m d)) = y - 1 -> 2 <= y \/ y = 1).
  { intros _. lia. }
  destruct (previous_day y m d) as [[y' m'] d']. cbn [fst] in Hy'.
  destruct Hprev as [Hl' Hmk]. cbv zeta.
  destruct (fields_of_MakeDay y m d 0 Hl ltac:(unfold msPerDay; lia)) as [F1 [F2 F3]].
  rewrite <- Hlocal in F1, F2, F3.
  assert (Etv : tv = MakeDate (MakeDay y' (m' - 1) d') (msPerDay - LocalTZA h tv)).
  { unfold LocalTime in Hlocal. unfold MakeDate in *. rewrite Hmk. lia. }
  destruct (fields_of_MakeDay y' m' d' (msPerDay - LocalTZA h tv) Hl' ltac:(lia))
    as [G1 [G2 G3]].
  rewrite <- Etv in G1, G2, G3.
  rewrite (format_element_parseable h name format t a cs tv Hdate), Htag.
  cbn [String.eqb Ascii.eqb Bool.eqb].
  eexists. split; [reflexivity|]. split.
  - unfold getAttribute. cbn [attrs]. rewrite assoc_set_assoc_same.
    rewrite iso_string_date by lia. rewrite G1, G2, G3.
    replace (m' - 1 + 1) with m' by lia. reflexivity.
  - cbn [Formatter.tokens Formatter.get String.eqb Ascii.eqb Bool.eqb option_map
         Formatter.value getFullYear getMonth getDate add1].
    rewrite F1, F2, F3. replace (m - 1 + 1) with m by lia.
    repeat split; reflexivity.
Qed.

Lemma formatter_datetime_east_of_UTC_witness :
  let h := Examples.berlin in
  let cs := [Text "December 9, 2025"] in
  let tv := 1765234800000%Z in
  let value_of code :=
    option_map Formatter.value (Formatter.get code (Formatter.tokens h (Num tv))) in
  new_Date h (trim (textContent (Element "time" [] cs))) = Num tv
  /\ legal_date 2025 12 9 = true
  /\ LocalTime h tv = MakeDate (MakeDay 2025 (12 - 1) 9) 0
  /\ (0 < LocalTZA h tv <= msPerDay)%Z
  /\ previous_day 2025 12 9 = (2025, 12, 8)%Z
  /\ iso_date 2025 12 8 = "2025-12-08"
  /\ exists el',
       Formatter.format_element h "pretty-date" "D MMM" (Element "time" [] cs)
       = Ok (Some el')
       /\ getAttribute el' "datetime" = Some (iso_date 2025 12 8)
       /\ value_of "YYYY" = Some (VNum (Num 2025))
       /\ value_of "M" = Some (VNum (Num 12))
       /\ value_of "D" = Some (VNum (Num 9)).
Proof.
  intros h cs tv value_of.
  assert (H1 : new_Date h (trim (textContent (Element "time" [] cs))) = Num tv)
    by (vm_compute; reflexivity).
  assert (H2 : LocalTime h tv = MakeDate (MakeDay 2025 (12 - 1) 9) 0)
    by (vm_compute; reflexivity).
  assert (H3 : (0 < LocalTZA h tv <= msPerDay)%Z)
    by (vm_compute; split; [reflexivity | discriminate]).
  split; [exact H1|]. split; [reflexivity|]. split; [exact H2|]. split; [exact H3|].
  split; [reflexivity|]. split; [vm_compute; reflexivity|].
  exact (formatter_datetime_east_of_UTC h "pretty-date" "D MMM" "time" [] cs tv
           2025 12 9 eq_refl H1 eq_refl ltac:(lia) H2 H3).
Defined.

Close Scope Z_scope.

(** ** The scripts on a page *)

Lemma applyDateDataAttributes_selector (h : Host)
      (dateDataConfig : option Annotator.DateDataConfig) (doc : node) :
  Annotator.applyDateDataAttributes h dateDataConfig doc
  = Annotator.addDateDataAttributes h (configured_selector dateDataConfig) doc.
Proof.
  destruct dateDataConfig as [[[s|]]|]; reflexivity.
Qed.

(** The annotator's function returns, called by the script or by the
    host. *)
Lemma annotator_returns (h : Host) (w : Page.Window) :
  exists doc',
    Annotator.applyDateDataAttributes h (Page.dateDataConfig w) (Page.document w)
    = Ok doc'
    /\ Page.invoke h Page.applyDateDataAttributes w = Ok (Page.set_document doc' w)
    /\ Page.call h Page.applyDateDataAttributes w = Ok (Page.set_document doc' w).
Proof.
  unfold Page.invoke, Page.call. cbn [Page.run].
  rewrite applyDateDataAttributes_selector, addDateDataAttributes_total.
  eexists. repeat split; reflexivity.
Qed.




(** The page whose [dateFormats] is [[null]].  Parsed already, the
    formatter script ends with the TypeError, before it registers its
    listener and before it puts [formatDate] on [window].  Still loading,
    the script registers the listener, and at [DOMContentLoaded] the
    exception is reported and the annotator, registered after the
    formatter, runs all the same. *)
Example scripts_on_a_page_with_a_null_member :
  Page.date_formatter_js Examples.utc (Pages.null_member Page.complete)
  = Throw TypeError
  /\ (w2 <- (w1 <- Page.date_formatter_js Examples.utc (Pages.null_member Page.loading) ;;
             Page.preprocess_date_js Examples.utc w1) ;;
      Page.DOMContentLoaded Examples.utc w2)
     = Ok {| Page.readyState := Page.interactive;
             Page.document :=
               Element "div"
                 [("class", "post-date"); ("data-date", "2025-12-09");
                  ("data-year", "2025"); ("data-month", "12"); ("data-day", "9")]
                 [Element "time" [] [Text "December 9, 2025"]];
             Page.dateDataConfig := None;
             Page.dateFormats := Formatter.ArrayOf [Formatter.Nullish];
             Page.document_listeners :=
               [("DOMContentLoaded", Page.applyAllDateFormats);
                ("DOMContentLoaded", Page.applyDateDataAttributes)];
             Page.window_listeners :=
               [("mercury:load", Page.applyAllDateFormats);
                ("mercury:load", Page.applyDateDataAttributes)];
             Page.exposed := [Page.addDateDataAttributes; Page.formatDate];
             Page.reported := [TypeError] |}.
Proof. split; vm_compute; reflexivity. Qed.

(** The two scripts on the example page, evaluated after the document
    has been parsed: each runs at once. *)
Example scripts_on_a_parsed_page :
  option_map Page.document
    (match Page.preprocess_date_js Examples.utc (Pages.page Page.complete) with
     | Ok w => Some w
     | Throw _ => None
     end)
  = Some (Element "div"
            [("class", "post-date"); ("data-date", "2025-12-09");
             ("data-year", "2025"); ("data-month", "12"); ("data-day", "9")]
            [Element "time" [] [Text "December 9, 2025"]])
  /\ Page.preprocess_date_js Examples.utc (Pages.page Page.loading)
     = Ok {| Page.readyState := Page.loading;
             Page.document := Examples.post [] "December 9, 2025";
             Page.dateDataConfig :=
               Some {| Annotator.parentSelector := Some Examples.post_date |};
             Page.dateFormats :=
               Formatter.ArrayOf [Formatter.record Examples.pretty_date];
             Page.document_listeners :=
               [("DOMContentLoaded", Page.applyDateDataAttributes)];
             Page.window_listeners := [("mercury:load", Page.applyDateDataAttributes)];
             Page.exposed := [Page.addDateDataAttributes];
             Page.reported := [] |}.
Proof. split; vm_compute; reflexivity. Qed.

(** A run of the annotator under a selector that does not test the
    annotation leaves a document on which a further run changes nothing. *)
Lemma addDateDataAttributes_fixed_point (h : Host) (parentSelector : option selector)
      (doc doc1 : node) :
  blind parentSelector = true ->
  Annotator.addDateDataAttributes h parentSelector doc = Ok doc1 ->
  Annotator.addDateDataAttributes h parentSelector doc1 = Ok doc1.
Proof.
  intros selector_blind. rewrite addDateDataAttributes_total. intros [= <-].
  rewrite addDateDataAttributes_total. f_equal.
  set (ps := querySelectorAll Annotator.time_selector doc).
  destruct (run_performs_plans h parentSelector selector_blind doc ps doc
              (sim_refl doc)) as [E1 S1].
  rewrite <- (blind_querySelectorAll Annotator.time_selector doc _ eq_refl S1).
  fold ps.
  destruct (run_performs_plans h parentSelector selector_blind doc ps _ S1)
    as [E2 _].
  rewrite E2, E1. apply script_idempotent.
Qed.

(** X16.  Once the annotator script has run in a page, under a
    configured selector that does not test the annotation (or none),
    [mercury:load] events that find the document as the last run left it
    change nothing: the page after the event is the page before it. *)
Theorem mercury_load_leaves_an_annotated_page (h : Host) (w : Page.Window) :
  Page.readyState w <> Page.loading ->
  Page.document_listeners w = [] -> Page.window_listeners w = [] ->
  blind (configured_selector (Page.dateDataConfig w)) = true ->
  exists w1,
    Page.preprocess_date_js h w = Ok w1
    /\ Page.mercury_load h w1 = Ok w1
    /\ forall n, forEach (fun w _ => Page.mercury_load h w) (seq 0 n) w1 = Ok w1.
Proof.
  intros Hr Hd Hw Hb.
  destruct (annotator_returns h w) as [doc1 [R [C _]]].
  rewrite applyDateDataAttributes_selector in R.
  pose proof (addDateDataAttributes_fixed_point h _ _ _ Hb R) as F.
  assert (E : Page.preprocess_date_js h w
              = Ok (Page.expose Page.addDateDataAttributes
                      (Page.window_addEventListener "mercury:load"
                         Page.applyDateDataAttributes (Page.set_document doc1 w)))).
  { unfold Page.preprocess_date_js.
    destruct (Page.readyState w); [contradiction Hr; reflexivity| |];
      rewrite C; reflexivity. }
  eexists. split; [exact E|].
  assert (M : Page.mercury_load h
                (Page.expose Page.addDateDataAttributes
                   (Page.window_addEventListener "mercury:load"
                      Page.applyDateDataAttributes (Page.set_document doc1 w)))
              = Ok (Page.expose Page.addDateDataAttributes
                      (Page.window_addEventListener "mercury:load"
                         Page.applyDateDataAttributes (Page.set_document doc1 w)))).
  { unfold Page.mercury_load, Page.dispatch. cbn. rewrite Hw. cbn.
    unfold Page.call. cbn [Page.run]. page_fields.
    rewrite applyDateDataAttributes_selector, F. reflexivity. }
  split; [exact M|].
  intros n. generalize O. induction n as [|n IH]; intros a; [reflexivity|].
  cbn [seq forEach]. rewrite M. cbn [bind]. apply IH.
Qed.

Lemma mercury_load_leaves_an_annotated_page_witness :
  Page.readyState (Pages.page Page.complete) <> Page.loading
  /\ blind (configured_selector (Page.dateDataConfig (Pages.page Page.complete)))
     = true
  /\ exists w1,
       Page.preprocess_date_js Examples.utc (Pages.page Page.complete) = Ok w1
       /\ Page.mercury_load Examples.utc w1 = Ok w1
       /\ forall n,
            forEach (fun w _ => Page.mercury_load Examples.utc w) (seq 0 n) w1 = Ok w1.
Proof.
  split; [discriminate|]. split; [reflexivity|].
  apply (mercury_load_leaves_an_annotated_page Examples.utc (Pages.page Page.complete));
    [discriminate | reflexivity | reflexivity | reflexivity].
Defined.

Lemma dispatch_two (h : Host) (f g : Page.Listener) (w : Page.Window) :
  Page.dispatch h [f; g] w = (w1 <- Page.call h f w ;; Page.call h g w1).
Proof.
  unfold Page.dispatch. cbn [forEach].
  destruct (Page.call h f w) as [w1|e]; [|reflexivity]. cbn [bind].
  destruct (Page.call h g w1); reflexivity.
Qed.

(** X17.  With both scripts in a page, the functions run in the order
    in which the scripts were evaluated, at [DOMContentLoaded] and at
    every [mercury:load]: each on the document that the one before has
    left. *)
Theorem scripts_run_in_the_order_of_evaluation (h : Host) (w : Page.Window) :
  Page.readyState w = Page.loading ->
  Page.document_listeners w = [] -> Page.window_listeners w = [] ->
  wired_in_order h (Page.preprocess_date_js h) (Page.date_formatter_js h)
                 Page.applyDateDataAttributes Page.applyAllDateFormats w
  /\ wired_in_order h (Page.date_formatter_js h) (Page.preprocess_date_js h)
                    Page.applyAllDateFormats Page.applyDateDataAttributes w.
Proof.
  intros Hr Hd Hw.
  assert (Hfire : forall f g w',
             Page.document_listeners w'
             = [("DOMContentLoaded", f); ("DOMContentLoaded", g)] ->
             Page.window_listeners w' = [("mercury:load", f); ("mercury:load", g)] ->
             Page.DOMContentLoaded h w'
             = (w1' <- Page.call h f (Page.set_readyState Page.interactive w') ;;
                Page.call h g w1')
             /\ Page.mercury_load h w'
                = (w1' <- Page.call h f w' ;; Page.call h g w1')).
  { intros f g w' E1 E2. unfold Page.DOMContentLoaded, Page.mercury_load.
    page_fields. rewrite E1, E2. split; apply dispatch_two. }
  split; unfold wired_in_order.
  - unfold Page.preprocess_date_js, Page.date_formatter_js. rewrite Hr.
    page_fields. rewrite Hr. page_fields.
    eexists. split; [reflexivity|]. split; [reflexivity|].
    page_fields. rewrite Hd, Hw. intros w' E1 E2. apply Hfire; assumption.
  - unfold Page.preprocess_date_js, Page.date_formatter_js. rewrite Hr.
    page_fields. rewrite Hr. page_fields.
    eexists. split; [reflexivity|]. split; [reflexivity|].
    page_fields. rewrite Hd, Hw. intros w' E1 E2. apply Hfire; assumption.
Qed.

Lemma scripts_run_in_the_order_of_evaluation_witness :
  Page.readyState (Pages.page Page.loading) = Page.loading
  /\ wired_in_order Examples.utc (Page.preprocess_date_js Examples.utc)
                    (Page.date_formatter_js Examples.utc)
                    Page.applyDateDataAttributes Page.applyAllDateFormats
                    (Pages.page Page.loading)
  /\ wired_in_order Examples.utc (Page.date_formatter_js Examples.utc)
                    (Page.preprocess_date_js Examples.utc)
                    Page.applyAllDateFormats Page.applyDateDataAttributes
                    (Pages.page Page.loading).
Proof.
  split; [reflexivity|].
  apply (scripts_run_in_the_order_of_evaluation Examples.utc
           (Pages.page Page.loading)); reflexivity.
Defined.

(** The example page with both scripts, in the two orders: when the
    annotator runs first, the formatter then gives the time element its
    [datetime]; when the formatter runs first, the annotator reads that
    [datetime].  Here the two orders leave the same document. *)
Example both_scripts_on_a_page :
  let loaded first second :=
    match (w1 <- first (Pages.page Page.loading) ;;
           w2 <- second w1 ;; Page.DOMContentLoaded Examples.utc w2) with
    | Ok w => Some (Page.document w)
    | Throw _ => None
    end in
  let result :=
    Element "div"
      [("class", "post-date"); ("data-date", "2025-12-09"); ("data-year", "2025");
       ("data-month", "12"); ("data-day", "9")]
      [Element "time" [("datetime", "2025-12-09")]
         [Element "span" [("class", "pretty-date")]
            [Element "span" [("class", "weekday-long")] [Text "Tuesday"]; Text ", ";
             Element "span" [("class", "month-long")] [Text "December"]; Text " ";
             Element "span" [("class", "day-numeric")] [Text "9"]; Text ", ";
             Element "span" [("class", "year-full")] [Text "2025"]]]] in
  loaded (Page.preprocess_date_js Examples.utc) (Page.date_formatter_js Examples.utc)
  = Some result
  /\ loaded (Page.date_formatter_js Examples.utc) (Page.preprocess_date_js Examples.utc)
     = Some result.
Proof. split; vm_compute; reflexivity. Qed.
